(** * High-thrust transfer: patched-conic design and per-leg re-propagation

    Shallow embedding of [HighThrust/propagationOptimizationHighThrustTransfer.cpp]:
    the acceleration-model builder
    [getAccelerationModelsPerturbedPatchedConicsTrajectory] and the driver
    [main], which designs an Earth-Venus-X-Y-Jupiter transfer and then
    re-propagates every arc forwards and backwards from its middle.

    Conventions of the embedding.
    - A C++ [double] is an exact rational ([Q]); rounding is outside the
      model.  Where the source stores [TUDAT_NAN] the field has type
      [option Q] and [None] stands for the NaN.
    - [std::vector] is [list]; [at] is bounds-checked and throws.
    - A [std::map] whose iteration order matters is the list of its
      entries in iteration (key) order; the nested
      [SelectedAccelerationMap] is a [gmap].
    - The Tudat library is an interface ([Tudat]): a record of the types
      and functions the file calls.  A call may throw; the program has no
      handler, so an exception ends the run.
    - Everything the program hands to a collaborator or prints is recorded
      in a log, in program order. *)

From Stdlib Require Import QArith Qabs Qround ZArith Lia Lqa.
From Stdlib Require Import DecimalString.
From Stdlib Require DecimalPos DecimalZ.
From stdpp Require Import base option list strings gmap.

Local Open Scope string_scope.
Local Open Scope list_scope.
Local Open Scope Z_scope.

(** ** Exceptions and the log-and-exception monad *)

Inductive exception : Type :=
| std_out_of_range                    (* thrown by std::vector::at *)
| undefined_dereference               (* begin()/rbegin() of an empty map:
                                         undefined in C++, here the run ends *)
| tudat_error (what : string).        (* anything a library call throws *)

Inductive outcome (A : Type) : Type :=
| Done (a : A)
| Raised (e : exception).
Arguments Done {A} a.
Arguments Raised {A} e.

Module Run.
Section Monad.
Context {Ev : Type}.

(** A computation is the log it produced and how it ended. *)
Definition M (A : Type) : Type := list Ev * outcome A.

Definition ret {A} (a : A) : M A := ([], Done a).
Definition throw {A} (e : exception) : M A := ([], Raised e).
Definition emit (e : Ev) : M unit := ([e], Done tt).
Definition lift {A} (o : outcome A) : M A := ([], o).

(** [m] after the entries [l] have been logged. *)
Definition prefixed {A} (l : list Ev) (m : M A) : M A :=
  let '(l2, o) := m in (l ++ l2, o).

Definition bind {A B} (m : M A) (f : A -> M B) : M B :=
  match m with
  | (l1, Raised e) => (l1, Raised e)
  | (l1, Done a) => prefixed l1 (f a)
  end.

Definition log {A} (m : M A) : list Ev := fst m.
Definition result {A} (m : M A) : outcome A := snd m.
End Monad.
Arguments M : clear implicits.
End Run.

Arguments Run.bind : simpl never.
Arguments Run.prefixed : simpl never.
Arguments Run.ret : simpl never.
Arguments Run.throw : simpl never.
Arguments Run.emit : simpl never.
Arguments Run.lift : simpl never.

Notation "x <- m ;; k" := (Run.bind m (fun x => k))
  (at level 100, m at next level, right associativity).
Notation "m ;;; k" := (Run.bind m (fun _ => k))
  (at level 100, right associativity).

(** ** Vectors and indices *)

(** [v.at( i )] for an [int]/[size_t] index. *)
Definition at_ {A} (v : list A) (i : Z) : outcome A :=
  if (0 <=? i) && (i <? Z.of_nat (length v)) then
    match v !! Z.to_nat i with
    | Some a => Done a
    | None => Raised std_out_of_range
    end
  else Raised std_out_of_range.

(** [std::to_string] of an [int]. *)
Definition to_string (i : Z) : string := NilZero.string_of_int (Z.to_int i).

(** Conversion of a [double] to [int]: truncation towards zero. *)
Definition double_to_int (d : Q) : Z := Z.quot (Qnum d) (Z.pos (Qden d)).

(** [size_t] is 64 bits wide; an [int] compared with it is converted first. *)
Definition as_size_t (z : Z) : Z := z mod 2 ^ 64.

(** ** The acceleration-model builder (lines 31-64) *)

Inductive AvailableAcceleration : Type :=
| central_gravity
| point_mass_gravity.

#[global] Instance AvailableAcceleration_eq_dec : EqDecision AvailableAcceleration.
Proof. solve_decision. Defined.

(** [SelectedAccelerationMap]: body undergoing acceleration, then body
    exerting it, then the list of acceleration settings. *)
Abbreviation SelectedAccelerationMap :=
  (gmap string (gmap string (list AvailableAcceleration))).

(** [m[ a ][ b ].push_back( x )]: [operator[]] creates missing entries. *)
Definition push_back_at (m : SelectedAccelerationMap) (a b : string)
    (x : AvailableAcceleration) : SelectedAccelerationMap :=
  let inner := default ∅ (m !! a) in
  <[a := <[b := default [] (inner !! b) ++ [x]]> inner]> m.

Section Builder.
Context {NamedBodyMap AccelerationMap : Type}.
(** [createAccelerationModelsMap( bodyMap, settings, { propagated }, { central } )]. *)
Variable createAccelerationModelsMap :
  NamedBodyMap -> SelectedAccelerationMap -> list string -> list string ->
  AccelerationMap.

(** [numberOfLegs] is declared [const double]; the loop counter [i] is an
    [int] and is converted for the two comparisons. *)
Variable numberOfLegs : Q.
Variable nameCentralBody nameBodyToPropagate : string.
Variable bodyMap : NamedBodyMap.
Variable transferBodyOrder : list string.

(** The settings assembled by one pass of the loop body (lines 41-56). *)
Definition accelerationSettingsMapOfLeg (i : Z) : outcome SelectedAccelerationMap :=
  let m0 : SelectedAccelerationMap := ∅ in
  let m1 := push_back_at m0 nameBodyToPropagate nameCentralBody central_gravity in
  match at_ transferBodyOrder i with
  | Raised e => Raised e
  | Done bi =>
    let m2 := push_back_at m1 nameBodyToPropagate bi point_mass_gravity in
    if negb (Qeq_bool (inject_Z i) (numberOfLegs - 1)) then
      match at_ transferBodyOrder i with
      | Raised e => Raised e
      | Done bi' =>
        match at_ transferBodyOrder (i + 1) with
        | Raised e => Raised e
        | Done bnext =>
          if negb (String.eqb bi' bnext) then
            Done (push_back_at m2 nameBodyToPropagate bnext point_mass_gravity)
          else Done m2
        end
      end
    else Done m2
  end.

(** The [for] loop of line 39.  Every pass evaluates
    [transferBodyOrder.at( i )], so the loop cannot make more passes than
    the vector has entries plus one: that bound is the fuel, and [None]
    (fuel exhausted) is never returned, see [accelerationLoop_fuel]. *)
Fixpoint accelerationLoop (fuel : nat) (i : Z)
    (accelerationMapsVector : list AccelerationMap) :
    option (outcome (list AccelerationMap)) :=
  match fuel with
  | O => None
  | S fuel' =>
    if Qlt_le_dec (inject_Z i) numberOfLegs then
      match accelerationSettingsMapOfLeg i with
      | Raised e => Some (Raised e)
      | Done accelerationSettingsMap =>
        accelerationLoop fuel' (i + 1)
          (accelerationMapsVector ++
             [createAccelerationModelsMap bodyMap accelerationSettingsMap
                [nameBodyToPropagate] [nameCentralBody]])
      end
    else Some (Done accelerationMapsVector)
  end.

Definition getAccelerationModelsPerturbedPatchedConicsTrajectory :
    option (outcome (list AccelerationMap)) :=
  accelerationLoop (S (length transferBodyOrder)) 0 [].
End Builder.


(** ** Data handed to and received from the Tudat library *)

Inductive TransferLegType : Type :=
| mga_Departure
| mga_Swingby
| capture.

Inductive AvailableIntegrators : Type := rungeKutta4.
Inductive TranslationalPropagatorType : Type := cowell.
Inductive PropagationDependentVariables : Type := relative_distance_dependent_variable.

Record SingleDependentVariableSaveSettings : Type := {
  dependentVariableType_ : PropagationDependentVariables;
  associatedBody_ : string;
  secondaryBody_ : string }.

(** [Eigen::Vector3d] and [Eigen::Vector6d] (position, then velocity). *)
Definition Vector3d : Type := Q * Q * Q.
Record Vector6d : Type := mkVector6d {
  rx : Q; ry : Q; rz : Q; vx : Q; vy : Q; vz : Q }.

Definition Vector6d_elements (v : Vector6d) : list Q :=
  [rx v; ry v; rz v; vx v; vy v; vz v].

(** [std::map< double, Eigen::Vector6d >] and [std::map< double, Eigen::VectorXd >],
    as their entries in increasing epoch order. *)
Definition StateHistory : Type := list (Q * Vector6d).
Definition DataMap : Type := list (Q * list Q).

Definition asDataMap (h : StateHistory) : DataMap :=
  map (fun e => (e.1, Vector6d_elements e.2)) h.

(** [h.begin( )->first] and [h.rbegin( )->first]. *)
Definition begin_first {A} (h : list (Q * A)) : outcome Q :=
  match h with
  | [] => Raised undefined_dereference
  | e :: _ => Done e.1
  end.
Definition rbegin_first {A} (h : list (Q * A)) : outcome Q :=
  match last h with
  | None => Raised undefined_dereference
  | Some e => Done e.1
  end.

(** [numerical_integrators::IntegratorSettings< >]. *)
Record IntegratorSettings : Type := {
  integratorType_ : AvailableIntegrators;
  initialTime_ : option Q;
  initialTimeStep_ : Q }.

(** Termination settings: the time condition the program installs, or
    whatever the library installed when it created the settings. *)
Inductive PropagationTerminationSettings (LibraryTermination : Type) : Type :=
| PropagationTimeTerminationSettings (terminationTime : Q)
| libraryTerminationSettings (s : LibraryTermination).
Arguments PropagationTimeTerminationSettings {LibraryTermination} _.
Arguments libraryTerminationSettings {LibraryTermination} _.

(** [propagators::TranslationalStatePropagatorSettings< double >]: the
    two members the program resets, and the rest of the object (central
    and propagated bodies, acceleration model, propagator type, dependent
    variables), which is set when the library creates it. *)
Record TranslationalStatePropagatorSettings (Dynamics LibraryTermination : Type) : Type := {
  dynamics_ : Dynamics;
  initialStates_ : Vector6d;
  terminationSettings_ : PropagationTerminationSettings LibraryTermination }.
Arguments dynamics_ {_ _} _.
Arguments initialStates_ {_ _} _.
Arguments terminationSettings_ {_ _} _.

Definition resetInitialStates {D L} (s : TranslationalStatePropagatorSettings D L)
    (x : Vector6d) : TranslationalStatePropagatorSettings D L :=
  {| dynamics_ := dynamics_ s;
     initialStates_ := x;
     terminationSettings_ := terminationSettings_ s |}.

Definition resetTerminationSettings {D L} (s : TranslationalStatePropagatorSettings D L)
    (t : PropagationTerminationSettings L) : TranslationalStatePropagatorSettings D L :=
  {| dynamics_ := dynamics_ s;
     initialStates_ := initialStates_ s;
     terminationSettings_ := t |}.

(** One velocity change of the transfer. *)
Record Maneuver : Type := {
  epoch : Q;
  position : Vector3d;
  velocityChangeMagnitude : Q }.

(** The library, at its interface.  Shared objects passed to a library
    function are read by it, not written: what a call yields is its result. *)
Record Tudat : Type := {
  NamedBodyMap : Type;
  AccelerationMap : Type;
  PropagatorDynamics : Type;
  LibraryTermination : Type;
  JULIAN_DAY : Q;
  getOutputPath : string -> string;
  setupBodyMapFromEphemeridesForPatchedConicsTrajectory :
    string -> string -> list string -> outcome NamedBodyMap;
  (* bodyMap[ name ] = make_shared< Body >( ); bodyMap[ name ]->setConstantBodyMass( m ) *)
  addBodyWithConstantMass : NamedBodyMap -> string -> Q -> NamedBodyMap;
  setGlobalFrameBodyEphemerides : NamedBodyMap -> string -> string -> outcome NamedBodyMap;
  getDefaultMinimumPericenterRadii : list string -> outcome (list Q);
  (* the two-body solution of one leg (Lambert arc, swing-by or capture
     geometry) inside the trajectory object, see Trajectory below *)
  solveTransferLeg :
    NamedBodyMap -> list string -> string -> list TransferLegType ->
    list (option Q) -> list Q -> option Q -> option Q -> option Q -> option Q ->
    nat -> outcome Maneuver;
  createAccelerationModelsMap :
    NamedBodyMap -> SelectedAccelerationMap -> list string -> list string ->
    AccelerationMap;
  getPatchedConicPropagatorSettings :
    NamedBodyMap -> list AccelerationMap -> list string -> string -> string ->
    list TransferLegType -> list (option Q) -> list Q ->
    list (option Q) -> list (option Q) ->
    list (list SingleDependentVariableSaveSettings) ->
    TranslationalPropagatorType -> bool ->
    outcome (list (TranslationalStatePropagatorSettings PropagatorDynamics LibraryTermination *
                   TranslationalStatePropagatorSettings PropagatorDynamics LibraryTermination));
  fullPropagationPatchedConicsTrajectory :
    NamedBodyMap -> list string -> string -> list TransferLegType ->
    list (option Q) -> list Q -> list (option Q) -> list (option Q) ->
    list (TranslationalStatePropagatorSettings PropagatorDynamics LibraryTermination *
          TranslationalStatePropagatorSettings PropagatorDynamics LibraryTermination) ->
    IntegratorSettings ->
    outcome (list (Z * StateHistory) * list (Z * StateHistory) * list (Z * DataMap));
  (* createOneDimensionalInterpolator( h, LagrangeInterpolatorSettings( n ) )->interpolate( t ) *)
  lagrangeInterpolate : StateHistory -> Z -> Q -> outcome Vector6d;
  (* SingleArcDynamicsSimulator< >( ... ).getEquationsOfMotionNumericalSolution( ) *)
  SingleArcDynamicsSimulator :
    NamedBodyMap -> IntegratorSettings ->
    TranslationalStatePropagatorSettings PropagatorDynamics LibraryTermination ->
    outcome DataMap }.

Abbreviation PropagatorSettings T :=
  (TranslationalStatePropagatorSettings (PropagatorDynamics T) (LibraryTermination T)).

(** A [shared_ptr] into the vector of settings pairs: which pair, which member. *)
Inductive PairMember : Type := first | second.
Record SettingsPointer : Type := { arc_ : Z; member_ : PairMember }.

Definition pointee {T} (store : list (PropagatorSettings T * PropagatorSettings T))
    (p : SettingsPointer) : option (PropagatorSettings T) :=
  match store !! Z.to_nat (arc_ p) with
  | Some pr => Some (match member_ p with first => pr.1 | second => pr.2 end)
  | None => None
  end.

Definition through {T} (store : list (PropagatorSettings T * PropagatorSettings T))
    (p : SettingsPointer) (f : PropagatorSettings T -> PropagatorSettings T) :
    list (PropagatorSettings T * PropagatorSettings T) :=
  match store !! Z.to_nat (arc_ p) with
  | Some pr =>
    <[Z.to_nat (arc_ p) :=
        match member_ p with first => (f pr.1, pr.2) | second => (pr.1, f pr.2) end]> store
  | None => store
  end.

(** What the program prints and what it hands to the library. *)
Inductive Printed : Type :=
| text (s : string)
| number (d : option Q).

Inductive Event (T : Tudat) : Type :=
| Cout (items : list Printed)
| Interpolation (history : StateHistory) (order : Z) (time : Q)
| Simulation (bodyMap : NamedBodyMap T) (integratorSettings : IntegratorSettings)
    (settings : SettingsPointer) (propagatorSettings : PropagatorSettings T)
| FileWrite (data : DataMap) (name path : string).
Arguments Cout {T} _.
Arguments Interpolation {T} _ _ _.
Arguments Simulation {T} _ _ _ _.
Arguments FileWrite {T} _ _ _.

(** ** The patched-conic trajectory object *)

Module Trajectory.
(** Modelled from the spec: the class [transfer_trajectories::Trajectory]
    ([createTransferTrajectoryObject], [calculateTrajectory],
    [getCaptureDeltaV], [maneuvers]) is called by [main] but is not among
    the sources.  The spec's data model gives one [Maneuver] per leg and a
    [TrajectoryResult] with the total velocity change, the capture
    velocity change (NaN when no capture leg is configured) and the
    maneuver sequence; its section 4.2 says which velocity changes enter
    the total.  The two inclusion flags are the ones [main] passes
    (line 170); the physics of a single leg is the interface's
    [solveTransferLeg]. *)
Record t : Type := {
  legTypeVector_ : list TransferLegType;
  legManeuvers_ : list Maneuver;
  includeDepartureDeltaV_ : bool;
  includeArrivalDeltaV_ : bool;
  arrivalSemiMajorAxis_ : option Q;
  arrivalEccentricity_ : option Q }.

(** Modelled from the spec: the leg-by-leg run of the missing solver
    (section 5: sequentially, leg by leg; section 4.2: the first failure
    ends the computation and no partial result is published). *)
Fixpoint solveLegs (solve : nat -> outcome Maneuver) (legs : list nat) :
    outcome (list Maneuver) :=
  match legs with
  | [] => Done []
  | i :: rest =>
    match solve i with
    | Raised e => Raised e
    | Done m =>
      match solveLegs solve rest with
      | Raised e => Raised e
      | Done ms => Done (m :: ms)
      end
    end
  end.

(** Modelled from the spec: the missing [createTransferTrajectoryObject],
    with the parameters of the call at lines 168-171; it solves the legs
    and keeps what the result is made of. *)
Definition createTransferTrajectoryObject (T : Tudat)
    (bodyMap : NamedBodyMap T) (transferBodyOrder : list string)
    (centralBody : string) (legTypes : list TransferLegType)
    (trajectoryIndependentVariables : list (option Q))
    (minimumPericenterRadii : list Q)
    (includeDepartureDeltaV : bool)
    (departureSemiMajorAxis departureEccentricity : option Q)
    (includeArrivalDeltaV : bool)
    (arrivalSemiMajorAxis arrivalEccentricity : option Q) : outcome t :=
  match solveLegs
          (solveTransferLeg T bodyMap transferBodyOrder centralBody legTypes
             trajectoryIndependentVariables minimumPericenterRadii
             departureSemiMajorAxis departureEccentricity
             arrivalSemiMajorAxis arrivalEccentricity)
          (seq 0 (length legTypes)) with
  | Raised e => Raised e
  | Done ms =>
    Done {| legTypeVector_ := legTypes;
            legManeuvers_ := ms;
            includeDepartureDeltaV_ := includeDepartureDeltaV;
            includeArrivalDeltaV_ := includeArrivalDeltaV;
            arrivalSemiMajorAxis_ := arrivalSemiMajorAxis;
            arrivalEccentricity_ := arrivalEccentricity |}
  end.

(** Modelled from the spec: what one leg adds to the total of the missing
    [calculateTrajectory] (section 4.2: the departure velocity change is
    excluded, here when the departure flag is off as in [main]; swing-by
    velocity changes count; the capture velocity change is included, here
    when the arrival flag is on as in [main]). *)
Definition contribution (tr : t) (leg : TransferLegType * Maneuver) : Q :=
  match leg.1 with
  | mga_Departure =>
    if includeDepartureDeltaV_ tr then velocityChangeMagnitude leg.2 else 0%Q
  | mga_Swingby => velocityChangeMagnitude leg.2
  | capture =>
    if includeArrivalDeltaV_ tr then velocityChangeMagnitude leg.2 else 0%Q
  end.

(** Modelled from the spec: the legs of the missing trajectory object, each
    leg type with the one maneuver produced for it (section 3). *)
Definition legs (tr : t) : list (TransferLegType * Maneuver) :=
  zip (legTypeVector_ tr) (legManeuvers_ tr).

(** Modelled from the spec: the missing
    [trajectory.calculateTrajectory( totalDeltaV )]; the total accumulates
    the contributions of the legs (sections 4.2 and 8). *)
Definition calculateTrajectory (tr : t) : Q :=
  fold_left (fun total leg => (total + contribution tr leg)%Q) (legs tr) 0%Q.

(** Modelled from the spec: the missing
    [trajectory.getCaptureDeltaV( captureDeltaV )]; the velocity change of
    the final leg when that is a capture leg, NaN otherwise (section 3). *)
Definition getCaptureDeltaV (tr : t) : option Q :=
  match last (legs tr) with
  | Some (capture, m) => Some (velocityChangeMagnitude m)
  | _ => None
  end.

(** Modelled from the spec: the missing
    [trajectory.maneuvers( positionVector, timeVector, deltaVVector )]; the
    ordered sequence of maneuvers, one per leg (section 3). *)
Definition maneuvers (tr : t) : list Vector3d * list Q * list Q :=
  (map position (legManeuvers_ tr),
   map epoch (legManeuvers_ tr),
   map velocityChangeMagnitude (legManeuvers_ tr)).
End Trajectory.

(** ** The driver [main] (lines 98-358) *)

(** What the design phase leaves in [main]'s local variables. *)
Record TransferDesign (T : Tudat) : Type := {
  transferBodyOrder_ : list string;
  transferLegTypes_ : list TransferLegType;
  departureCaptureSemiMajorAxes_ : list (option Q);
  departureCaptureEccentricities_ : list (option Q);
  bodyMapForPatchedConic_ : NamedBodyMap T;
  minimumPericenterRadii_ : list Q;
  trajectoryIndependentVariables_ : list (option Q);
  trajectory_ : Trajectory.t;
  totalDeltaV_ : Q;
  captureDeltaV_ : option Q;
  positionVector_ : list Vector3d;
  timeVector_ : list Q;
  deltaVVector_ : list Q }.
Arguments transferBodyOrder_ {T} _.
Arguments transferLegTypes_ {T} _.
Arguments departureCaptureSemiMajorAxes_ {T} _.
Arguments departureCaptureEccentricities_ {T} _.
Arguments bodyMapForPatchedConic_ {T} _.
Arguments minimumPericenterRadii_ {T} _.
Arguments trajectoryIndependentVariables_ {T} _.
Arguments trajectory_ {T} _.
Arguments totalDeltaV_ {T} _.
Arguments captureDeltaV_ {T} _.
Arguments positionVector_ {T} _.
Arguments timeVector_ {T} _.
Arguments deltaVVector_ {T} _.

(** What the library's own propagation leaves in [main]'s local variables. *)
Record PropagationSetup (T : Tudat) : Type := {
  bodyMapForPropagation_ : NamedBodyMap T;
  accelerationMap_ : list (AccelerationMap T);
  bodyList_ : list string;
  dependentVariablesToSave_ : list (list SingleDependentVariableSaveSettings);
  propagatorSettingsCreated_ : list (PropagatorSettings T * PropagatorSettings T);
  lambertTargeterResultForEachLeg_ : list (Z * StateHistory);
  fullProblemResultForEachLeg_ : list (Z * StateHistory);
  dependentVariableResultForEachLeg_ : list (Z * DataMap) }.
Arguments bodyMapForPropagation_ {T} _.
Arguments accelerationMap_ {T} _.
Arguments bodyList_ {T} _.
Arguments dependentVariablesToSave_ {T} _.
Arguments propagatorSettingsCreated_ {T} _.
Arguments lambertTargeterResultForEachLeg_ {T} _.
Arguments fullProblemResultForEachLeg_ {T} _.
Arguments dependentVariableResultForEachLeg_ {T} _.

(** The variables the arc loop updates from one pass to the next. *)
Record ArcLoopState (T : Tudat) : Type := {
  integratorSettings_ : IntegratorSettings;
  propagatorSettings_ : list (PropagatorSettings T * PropagatorSettings T);
  currentArcMiddleTime_ : Q }.
Arguments integratorSettings_ {T} _.
Arguments propagatorSettings_ {T} _.
Arguments currentArcMiddleTime_ {T} _.

Section Program.
Context (T : Tudat).
(** [sc.now( )]: the n-th reading of the steady clock. *)
Variable steady_clock_now : nat -> Q.

Local Abbreviation M := (Run.M (Event T)).

Definition transferCases : list string :=
  ["EVEEJ"; "EVVEJ"; "EVEVJ"; "EVVMJ"; "EVEMJ"; "EVMMJ"; "EVMVJ"].
Definition transferCaseNames : list (string * string) :=
  [("Earth", "Earth"); ("Venus", "Earth"); ("Earth", "Venus"); ("Venus", "Mars");
   ("Earth", "Mars"); ("Mars", "Mars"); ("Mars", "Venus")].

(** Lines 109-186: transfer settings, body map, patched-conic trajectory.
    (Loading the Spice kernels, line 101, yields nothing the program reads
    and is left out.) *)
Definition designTransfer (trajectoryParameters : list Q) : M (TransferDesign T) :=
  p5 <- Run.lift (at_ trajectoryParameters 5) ;;
  let transferCase := double_to_int p5 in
  caseNames <- Run.lift (at_ transferCaseNames transferCase) ;;
  let transferBodyOrder := ["Earth"; "Venus"; caseNames.1; caseNames.2; "Jupiter"] in
  let transferLegTypes := [mga_Departure; mga_Swingby; mga_Swingby; mga_Swingby; capture] in
  let captureSemiMajorAxis := (1.0895e8 / 0.02)%Q in
  let captureEccentricity := 0.98%Q in
  let departureCaptureSemiMajorAxes := [None; Some captureSemiMajorAxis] in
  let departureCaptureEccentricities := [None; Some captureEccentricity] in
  bodyMap0 <- Run.lift (setupBodyMapFromEphemeridesForPatchedConicsTrajectory T
                          "Sun" "Spacecraft" transferBodyOrder) ;;
  let bodyMap1 := addBodyWithConstantMass T bodyMap0 "Spacecraft" 400%Q in
  bodyMapForPatchedConic <- Run.lift (setGlobalFrameBodyEphemerides T bodyMap1
                                        "SSB" "ECLIPJ2000") ;;
  minimumPericenterRadii <- Run.lift (getDefaultMinimumPericenterRadii T
                                        transferBodyOrder) ;;
  (* for( i < size - 1 ) push_back( at( i ) * JULIAN_DAY ); push_back( TUDAT_NAN ) *)
  let trajectoryIndependentVariables :=
    map (fun p => Some (p * JULIAN_DAY T)%Q)
        (take (length trajectoryParameters - 1) trajectoryParameters) ++ [None] in
  trajectory <- Run.lift (Trajectory.createTransferTrajectoryObject T
                  bodyMapForPatchedConic transferBodyOrder "Sun" transferLegTypes
                  trajectoryIndependentVariables minimumPericenterRadii
                  false None None true
                  (Some captureSemiMajorAxis) (Some captureEccentricity)) ;;
  let totalDeltaV := Trajectory.calculateTrajectory trajectory in
  let captureDeltaV := Trajectory.getCaptureDeltaV trajectory in
  Run.emit (Cout [text "Total/capture Delta V: "; number (Some totalDeltaV);
                  text " "; number captureDeltaV]) ;;;
  let '(positionVector, timeVector, deltaVVector) := Trajectory.maneuvers trajectory in
  Run.ret {| transferBodyOrder_ := transferBodyOrder;
             transferLegTypes_ := transferLegTypes;
             departureCaptureSemiMajorAxes_ := departureCaptureSemiMajorAxes;
             departureCaptureEccentricities_ := departureCaptureEccentricities;
             bodyMapForPatchedConic_ := bodyMapForPatchedConic;
             minimumPericenterRadii_ := minimumPericenterRadii;
             trajectoryIndependentVariables_ := trajectoryIndependentVariables;
             trajectory_ := trajectory;
             totalDeltaV_ := totalDeltaV;
             captureDeltaV_ := captureDeltaV;
             positionVector_ := positionVector;
             timeVector_ := timeVector;
             deltaVVector_ := deltaVVector |}.

(** Lines 206-215: the bodies of the sequence, each once, then the Sun. *)
Definition relevantBodies (transferBodyOrder : list string) : list string :=
  fold_left (fun bodyList b => if bool_decide (b ∈ bodyList) then bodyList
                               else bodyList ++ [b])
            transferBodyOrder [] ++ ["Sun"].

(** Lines 192-269: acceleration models, integrator and propagator settings,
    and the library's propagation of the full problem. *)
Definition propagateFullProblem (integratorSettings : IntegratorSettings)
    (d : TransferDesign T) : M (PropagationSetup T) :=
  let bodyMapForPropagation := bodyMapForPatchedConic_ d in
  accelerationMap <-
    Run.lift
      match getAccelerationModelsPerturbedPatchedConicsTrajectory
              (createAccelerationModelsMap T)
              (inject_Z (Z.of_nat (length (transferLegTypes_ d))))
              "Sun" "Spacecraft" bodyMapForPropagation (transferBodyOrder_ d) with
      | Some o => o
      | None => Raised std_out_of_range   (* not reached: accelerationLoop_fuel *)
      end ;;
  let bodyList := relevantBodies (transferBodyOrder_ d) in
  let dependentVariableList :=
    map (fun b => {| dependentVariableType_ := relative_distance_dependent_variable;
                     associatedBody_ := "Spacecraft";
                     secondaryBody_ := b |}) bodyList in
  let dependentVariablesToSave :=
    replicate (length (transferBodyOrder_ d)) dependentVariableList in
  let propagatorType := cowell in
  propagatorSettings <-
    Run.lift (getPatchedConicPropagatorSettings T
                bodyMapForPropagation accelerationMap (transferBodyOrder_ d)
                "Sun" "Spacecraft" (transferLegTypes_ d)
                (trajectoryIndependentVariables_ d) (minimumPericenterRadii_ d)
                (departureCaptureSemiMajorAxes_ d) (departureCaptureEccentricities_ d)
                dependentVariablesToSave propagatorType true) ;;
  let start := steady_clock_now 0%nat in
  results <-
    Run.lift (fullPropagationPatchedConicsTrajectory T
                bodyMapForPropagation (transferBodyOrder_ d) "Sun" (transferLegTypes_ d)
                (trajectoryIndependentVariables_ d) (minimumPericenterRadii_ d)
                (departureCaptureSemiMajorAxes_ d) (departureCaptureEccentricities_ d)
                propagatorSettings integratorSettings) ;;
  let end_ := steady_clock_now 1%nat in
  let runTimeInSeconds := (end_ - start)%Q in
  Run.emit (Cout [text "Operation took: "; number (Some runTimeInSeconds);
                  text " seconds"]) ;;;
  Run.ret {| bodyMapForPropagation_ := bodyMapForPropagation;
             accelerationMap_ := accelerationMap;
             bodyList_ := bodyList;
             dependentVariablesToSave_ := dependentVariablesToSave;
             propagatorSettingsCreated_ := propagatorSettings;
             lambertTargeterResultForEachLeg_ := results.1.1;
             fullProblemResultForEachLeg_ := results.1.2;
             dependentVariableResultForEachLeg_ := results.2 |}.

(** *** The arc loop (lines 271-328) *)

Section ArcLoop.
Variable trajectoryParameters : list Q.
Variable bodyMapForPropagation : NamedBodyMap T.
Variable outputPath : string.
(** [fullProblemResultForEachLeg.size( )]. *)
Variable numberOfResults : Z.

Definition interpolateAt (h : StateHistory) (order : Z) (t : Q) : M Vector6d :=
  Run.emit (Interpolation h order t) ;;;
  Run.lift (lagrangeInterpolate T h order t).

Definition simulate (integratorSettings : IntegratorSettings)
    (store : list (PropagatorSettings T * PropagatorSettings T))
    (p : SettingsPointer) : M DataMap :=
  match pointee store p with
  | None => Run.throw std_out_of_range
  | Some settings =>
    Run.emit (Simulation bodyMapForPropagation integratorSettings p settings) ;;;
    Run.lift (SingleArcDynamicsSimulator T bodyMapForPropagation
                integratorSettings settings)
  end.

(** One pass of the loop body (lines 274-327). *)
Definition arcBody (st : ArcLoopState T) (resultIterator : Z * StateHistory) :
    M (ArcLoopState T) :=
  let currentArc := resultIterator.1 in
  let fullProblemSolution := resultIterator.2 in
  let currentArcMiddleTime := currentArcMiddleTime_ st in
  currentArcMiddleState <-
    interpolateAt fullProblemSolution 8 (currentArcMiddleTime * 86400)%Q ;;
  let integratorSettings1 :=
    {| integratorType_ := integratorType_ (integratorSettings_ st);
       initialTime_ := Some (currentArcMiddleTime * 86400)%Q;
       initialTimeStep_ := initialTimeStep_ (integratorSettings_ st) |} in
  (* forward *)
  _ <- Run.lift (at_ (propagatorSettings_ st) resultIterator.1) ;;
  let forwardPropagatorSettings := {| arc_ := resultIterator.1; member_ := second |} in
  let store1 := through (propagatorSettings_ st) forwardPropagatorSettings
                  (fun s => resetInitialStates s currentArcMiddleState) in
  tEnd <- Run.lift (rbegin_first fullProblemSolution) ;;
  let store2 := through store1 forwardPropagatorSettings
                  (fun s => resetTerminationSettings s
                              (PropagationTimeTerminationSettings tEnd)) in
  let integratorSettings2 :=
    {| integratorType_ := integratorType_ integratorSettings1;
       initialTime_ := initialTime_ integratorSettings1;
       initialTimeStep_ := Qabs (initialTimeStep_ integratorSettings1) |} in
  forwardSolution <- simulate integratorSettings2 store2 forwardPropagatorSettings ;;
  Run.emit (FileWrite forwardSolution
              ("numericalResultForward" +:+ to_string resultIterator.1 +:+ ".dat")
              outputPath) ;;;
  (* backward *)
  _ <- Run.lift (at_ store2 resultIterator.1) ;;
  let backwardPropagatorSettings := {| arc_ := resultIterator.1; member_ := second |} in
  let store3 := through store2 backwardPropagatorSettings
                  (fun s => resetInitialStates s currentArcMiddleState) in
  tStart <- Run.lift (begin_first fullProblemSolution) ;;
  let store4 := through store3 backwardPropagatorSettings
                  (fun s => resetTerminationSettings s
                              (PropagationTimeTerminationSettings tStart)) in
  let integratorSettings3 :=
    {| integratorType_ := integratorType_ integratorSettings2;
       initialTime_ := initialTime_ integratorSettings2;
       initialTimeStep_ := (initialTimeStep_ integratorSettings2 * -1)%Q |} in
  backwardSolution <- simulate integratorSettings3 store4 backwardPropagatorSettings ;;
  Run.emit (FileWrite backwardSolution
              ("numericalResultBackward" +:+ to_string resultIterator.1 +:+ ".dat")
              outputPath) ;;;
  (* middle time of the next arc *)
  if as_size_t currentArc <? as_size_t (numberOfResults - 1) then
    p1 <- Run.lift (at_ trajectoryParameters (currentArc + 1)) ;;
    p2 <- Run.lift (at_ trajectoryParameters (currentArc + 2)) ;;
    Run.ret {| integratorSettings_ := integratorSettings3;
               propagatorSettings_ := store4;
               currentArcMiddleTime_ := (currentArcMiddleTime + (p1 + p2) / 2)%Q |}
  else
    Run.ret {| integratorSettings_ := integratorSettings3;
               propagatorSettings_ := store4;
               currentArcMiddleTime_ := currentArcMiddleTime |}.

(** [for( auto resultIterator : fullProblemResultForEachLeg )]. *)
Fixpoint arcLoop (st : ArcLoopState T) (results : list (Z * StateHistory)) :
    M (ArcLoopState T) :=
  match results with
  | [] => Run.ret st
  | resultIterator :: rest =>
    st' <- arcBody st resultIterator ;;
    arcLoop st' rest
  end.
End ArcLoop.

(** Lines 271-328, with the initialisation of the middle time. *)
Definition repropagateArcs (trajectoryParameters : list Q) (outputPath : string)
    (integratorSettings : IntegratorSettings) (s : PropagationSetup T) :
    M (ArcLoopState T) :=
  p0 <- Run.lift (at_ trajectoryParameters 0) ;;
  p1 <- Run.lift (at_ trajectoryParameters 1) ;;
  arcLoop trajectoryParameters (bodyMapForPropagation_ s) outputPath
    (Z.of_nat (length (fullProblemResultForEachLeg_ s)))
    {| integratorSettings_ := integratorSettings;
       propagatorSettings_ := propagatorSettingsCreated_ s;
       currentArcMiddleTime_ := (p0 + p1 / 2)%Q |}
    (fullProblemResultForEachLeg_ s).

(** Lines 330-354: one table per leg and kind. *)
Fixpoint writeEach (prefix : string) (outputPath : string)
    (tables : list (Z * DataMap)) : M unit :=
  match tables with
  | [] => Run.ret tt
  | resultIterator :: rest =>
    Run.emit (FileWrite resultIterator.2
                (prefix +:+ to_string resultIterator.1 +:+ ".dat") outputPath) ;;;
    writeEach prefix outputPath rest
  end.

Definition tables (r : list (Z * StateHistory)) : list (Z * DataMap) :=
  map (fun e => (e.1, asDataMap e.2)) r.

Definition writeResults (outputPath : string) (s : PropagationSetup T) : M unit :=
  writeEach "lambertResult" outputPath (tables (lambertTargeterResultForEachLeg_ s)) ;;;
  writeEach "numericalResult" outputPath (tables (fullProblemResultForEachLeg_ s)) ;;;
  writeEach "dependentResult" outputPath (dependentVariableResultForEachLeg_ s).

(** The body of [main] for a given parameter vector and integrator
    settings; it yields the local variables that hold the results. *)
Definition pipeline (trajectoryParameters : list Q)
    (integratorSettings : IntegratorSettings) :
    M (TransferDesign T * PropagationSetup T * ArcLoopState T) :=
  let outputPath := getOutputPath T "HighThrust" in
  d <- designTransfer trajectoryParameters ;;
  s <- propagateFullProblem integratorSettings d ;;
  st <- repropagateArcs trajectoryParameters outputPath integratorSettings s ;;
  writeResults outputPath s ;;;
  Run.ret (d, s, st).

(** Line 116-117 and lines 201-203. *)
Definition trajectoryParameters : list Q :=
  [ (-1851.46422926478)%Q; 94.13188652993128%Q; 381.9429079287791%Q;
    55.6729929900098%Q; 700.990295462437%Q; 1%Q ].
Definition integratorSettings : IntegratorSettings :=
  {| integratorType_ := rungeKutta4; initialTime_ := None; initialTimeStep_ := 1000%Q |}.

Definition EXIT_SUCCESS : Z := 0.

Definition main : M Z :=
  pipeline trajectoryParameters integratorSettings ;;;
  Run.ret EXIT_SUCCESS.
End Program.

(** ** A small library instance, for running the program on examples *)

Module Toy.
Definition zero6 : Vector6d := mkVector6d 0 0 0 0 0 0.

(** Interpolation refuses epochs outside the span of the history and
    otherwise yields the latest sample not after the epoch. *)
Fixpoint sampleAt (h : StateHistory) (t : Q) (current : Vector6d) : Vector6d :=
  match h with
  | [] => current
  | e :: rest => if Qle_bool e.1 t then sampleAt rest t e.2 else current
  end.

Definition interpolate (h : StateHistory) (order : Z) (t : Q) : outcome Vector6d :=
  match begin_first h, rbegin_first h with
  | Done t0, Done t1 =>
    if Qle_bool t0 t && Qle_bool t t1 then Done (sampleAt h t zero6)
    else Raised (tudat_error "interpolation outside the covered time span")
  | _, _ => Raised (tudat_error "interpolation of an empty history")
  end.

(** The simulator reports the seed at the initial time and again at the
    termination time. *)
Definition simulator (integ : IntegratorSettings)
    (s : TranslationalStatePropagatorSettings SelectedAccelerationMap unit) :
    outcome DataMap :=
  match initialTime_ integ, terminationSettings_ s with
  | Some t0, PropagationTimeTerminationSettings t1 =>
    Done [(t0, Vector6d_elements (initialStates_ s));
          (t1, Vector6d_elements (initialStates_ s))]
  | _, _ => Raised (tudat_error "propagation without initial or final time")
  end.

Definition library
    (results : list (Z * StateHistory) * list (Z * StateHistory) * list (Z * DataMap)) :
    Tudat :=
  {| NamedBodyMap := list string;
     AccelerationMap := SelectedAccelerationMap;
     PropagatorDynamics := SelectedAccelerationMap;
     LibraryTermination := unit;
     JULIAN_DAY := 86400%Q;
     getOutputPath := fun s => s;
     setupBodyMapFromEphemeridesForPatchedConicsTrajectory :=
       fun central propagated order => Done (central :: order);
     addBodyWithConstantMass := fun bm name _ => bm ++ [name];
     setGlobalFrameBodyEphemerides := fun bm _ _ => Done bm;
     getDefaultMinimumPericenterRadii := fun order => Done (map (fun _ => 1%Q) order);
     solveTransferLeg := fun _ _ _ _ _ _ _ _ _ _ i =>
       Done {| epoch := inject_Z (Z.of_nat i);
               position := (0%Q, 0%Q, 0%Q);
               velocityChangeMagnitude := inject_Z (Z.of_nat (S i)) |};
     createAccelerationModelsMap := fun _ settings _ _ => settings;
     getPatchedConicPropagatorSettings := fun _ accelerationMap _ _ _ _ _ _ _ _ _ _ _ =>
       Done (map (fun a =>
               let s := {| dynamics_ := a; initialStates_ := zero6;
                           terminationSettings_ := libraryTerminationSettings tt |} in
               (s, s)) accelerationMap);
     fullPropagationPatchedConicsTrajectory := fun _ _ _ _ _ _ _ _ _ _ => Done results;
     lagrangeInterpolate := interpolate;
     SingleArcDynamicsSimulator := fun _ => simulator |}.

Definition clock (n : nat) : Q := inject_Z (Z.of_nat n).

(** Two-sample histories spanning the whole transfer, and one that does not. *)
Definition analyticHistory : StateHistory :=
  [((-200000000)%Q, mkVector6d 1 0 0 0 1 0); (200000000%Q, mkVector6d 2 0 0 0 1 0)].
Definition propagatedHistory : StateHistory :=
  [((-200000000)%Q, mkVector6d 3 0 0 0 1 0); (200000000%Q, mkVector6d 4 0 0 0 1 0)].
Definition shortHistory : StateHistory :=
  [(0%Q, mkVector6d 5 0 0 0 1 0); (1%Q, mkVector6d 6 0 0 0 1 0)].

(** A library whose propagation yields one arc, two arcs, and two arcs
    of which the first cannot be interpolated at its middle. *)
Definition oneArc : Tudat :=
  library ([(0, analyticHistory)], [(0, propagatedHistory)], [(0, [])]).
Definition twoArcs : Tudat :=
  library ([(0, analyticHistory); (1, analyticHistory)],
           [(0, propagatedHistory); (1, propagatedHistory)],
           [(0, []); (1, [])]).
Definition firstArcFails : Tudat :=
  library ([(0, analyticHistory); (1, analyticHistory)],
           [(0, shortHistory); (1, propagatedHistory)],
           [(0, []); (1, [])]).

(** The state in which the arc loop starts for a library of this kind. *)
Definition settingsPair : PropagatorSettings oneArc * PropagatorSettings oneArc :=
  let s := {| dynamics_ := (∅ : SelectedAccelerationMap); initialStates_ := zero6;
              terminationSettings_ := libraryTerminationSettings tt |} in
  (s, s).
Definition state0 : ArcLoopState oneArc :=
  {| integratorSettings_ :=
       {| integratorType_ := rungeKutta4; initialTime_ := None;
          initialTimeStep_ := 1000%Q |};
     propagatorSettings_ := [settingsPair; settingsPair];
     currentArcMiddleTime_ := 0%Q |}.

(** What the library's propagation leaves behind, for two arcs. *)
Definition setup : PropagationSetup oneArc :=
  {| bodyMapForPropagation_ := (["Sun"] : NamedBodyMap oneArc);
     accelerationMap_ := [];
     bodyList_ := ["Sun"];
     dependentVariablesToSave_ := [];
     propagatorSettingsCreated_ := [settingsPair; settingsPair];
     lambertTargeterResultForEachLeg_ := [(0, analyticHistory); (1, analyticHistory)];
     fullProblemResultForEachLeg_ := [(0, propagatedHistory); (1, propagatedHistory)];
     dependentVariableResultForEachLeg_ := [(0, []); (1, [])] |}.


End Toy.


(** ** Notions used in the statements *)

(** The settings stored at [m[ a ][ b ]], empty when there is no entry. *)
Definition accelerationsOn (m : SelectedAccelerationMap) (a b : string) :
    list AvailableAcceleration :=
  default [] (default ∅ (m !! a) !! b).

(** The settings map of leg [i], when the loop body completes. *)
Definition legSettings (numberOfLegs : Q) (nameCentralBody nameBodyToPropagate : string)
    (transferBodyOrder : list string) (i : Z) : SelectedAccelerationMap :=
  match accelerationSettingsMapOfLeg numberOfLegs nameCentralBody nameBodyToPropagate
          transferBodyOrder i with
  | Done m => m
  | Raised _ => ∅
  end.

Definition Qsum (l : list Q) : Q := fold_right Qplus 0%Q l.

(** The accelerations that body [k] exerts during leg [i] of [n], whose
    trailing body is [bi]: central gravity if [k] is the central body, point-mass
    gravity if [k] is the trailing body, and point-mass gravity if [k] is the
    following body, [i] is not the last index and the following body is not
    the trailing one. *)
Definition perturbationsOfLeg (nameCentralBody : string) (transferBodyOrder : list string)
    (n i : Z) (bi k : string) : list AvailableAcceleration :=
  (if bool_decide (k = nameCentralBody) then [central_gravity] else []) ++
  (if bool_decide (k = bi) then [point_mass_gravity] else []) ++
  (if bool_decide (i <> n - 1 /\
                   transferBodyOrder !! Z.to_nat (i + 1) <> Some bi /\
                   transferBodyOrder !! Z.to_nat (i + 1) = Some k)
   then [point_mass_gravity] else []).

(** Settings with initial state [x] and termination at time [t], as the
    two resets of the loop body leave them. *)
Definition timedSettings {D L} (s : TranslationalStatePropagatorSettings D L)
    (x : Vector6d) (t : Q) : TranslationalStatePropagatorSettings D L :=
  resetTerminationSettings (resetInitialStates s x)
    (PropagationTimeTerminationSettings t).

(** The integrator settings seen by the forward and by the backward run of
    an arc with middle epoch [t], when the step had value [h] before. *)
Definition forwardIntegratorSettings (s : IntegratorSettings) (t : Q) : IntegratorSettings :=
  {| integratorType_ := integratorType_ s;
     initialTime_ := Some t;
     initialTimeStep_ := Qabs (initialTimeStep_ s) |}.
Definition backwardIntegratorSettings (s : IntegratorSettings) (t : Q) : IntegratorSettings :=
  {| integratorType_ := integratorType_ s;
     initialTime_ := Some t;
     initialTimeStep_ := (Qabs (initialTimeStep_ s) * -1)%Q |}.

(** The pointer both runs of arc [k] use. *)
Definition arcSettings (k : Z) : SettingsPointer := {| arc_ := k; member_ := second |}.

(** The middle time after the pass for arc [k] (lines 323-327). *)
Definition nextArcMiddleTime (trajectoryParameters : list Q) (numberOfResults k : Z)
    (currentArcMiddleTime : Q) : outcome Q :=
  if as_size_t k <? as_size_t (numberOfResults - 1) then
    match at_ trajectoryParameters (k + 1), at_ trajectoryParameters (k + 2) with
    | Done p1, Done p2 => Done (currentArcMiddleTime + (p1 + p2) / 2)%Q
    | Raised e, _ => Raised e
    | _, Raised e => Raised e
    end
  else Done currentArcMiddleTime.

(** The five entries a completed pass for arc [k] adds to the log. *)
Definition arcEvents {T : Tudat} (bodyMap : NamedBodyMap T) (outputPath : string)
    (integratorSettings : IntegratorSettings) (created : PropagatorSettings T)
    (k : Z) (h : StateHistory) (t : Q) (seed : Vector6d) (tEnd tStart : Q)
    (forwardSolution backwardSolution : DataMap) : list (Event T) :=
  [ Interpolation h 8 t;
    Simulation bodyMap (forwardIntegratorSettings integratorSettings t)
      (arcSettings k) (timedSettings created seed tEnd);
    FileWrite forwardSolution
      ("numericalResultForward" +:+ to_string k +:+ ".dat") outputPath;
    Simulation bodyMap (backwardIntegratorSettings integratorSettings t)
      (arcSettings k) (timedSettings created seed tStart);
    FileWrite backwardSolution
      ("numericalResultBackward" +:+ to_string k +:+ ".dat") outputPath ].

(** What the loop leaves unchanged from one pass to the next: the
    integrator type, the magnitude of the time step, the first members of
    the settings pairs and the dynamics of the second members. *)
Definition sameModels {T : Tudat} (st0 st : ArcLoopState T) : Prop :=
  integratorType_ (integratorSettings_ st) = integratorType_ (integratorSettings_ st0) /\
  Qabs (initialTimeStep_ (integratorSettings_ st)) =
    Qabs (initialTimeStep_ (integratorSettings_ st0)) /\
  Forall2 (fun a b => a.1 = b.1 /\ dynamics_ a.2 = dynamics_ b.2)
          (propagatorSettings_ st0) (propagatorSettings_ st).

(** [chunk] is the log of a completed pass for the entry [e], in a loop
    that started in state [st0]. *)
Definition reconciled {T : Tudat} (bodyMap : NamedBodyMap T) (outputPath : string)
    (st0 : ArcLoopState T) (e : Z * StateHistory) (chunk : list (Event T)) : Prop :=
  exists t seed tEnd tStart created forwardSolution backwardSolution,
    pointee (propagatorSettings_ st0) (arcSettings e.1) = Some created /\
    lagrangeInterpolate T e.2 8 t = Done seed /\
    rbegin_first e.2 = Done tEnd /\
    begin_first e.2 = Done tStart /\
    SingleArcDynamicsSimulator T bodyMap
      (forwardIntegratorSettings (integratorSettings_ st0) t)
      (timedSettings created seed tEnd) = Done forwardSolution /\
    SingleArcDynamicsSimulator T bodyMap
      (backwardIntegratorSettings (integratorSettings_ st0) t)
      (timedSettings created seed tStart) = Done backwardSolution /\
    chunk = arcEvents bodyMap outputPath (integratorSettings_ st0) created e.1 e.2
              t seed tEnd tStart forwardSolution backwardSolution.

(** The epochs at which the log records an interpolation, in order. *)
Definition interpolationEpochs {T : Tudat} (log : list (Event T)) : list Q :=
  omap (fun ev => match ev with Interpolation _ _ t => Some t | _ => None end) log.

(** The duration schedule of a parameter vector, in days: entry 0 is the
    start of leg 0 and entry [i + 1] the duration of leg [i]. *)
Definition legDuration (parameters : list Q) (i : nat) : Q := nth (S i) parameters 0%Q.
Definition legStartDay (parameters : list Q) (i : nat) : Q :=
  (nth 0 parameters 0 + Qsum (map (legDuration parameters) (seq 0 i)))%Q.
Definition legStartEpoch (parameters : list Q) (i : nat) : Q :=
  (legStartDay parameters i * 86400)%Q.
Definition legEndEpoch (parameters : list Q) (i : nat) : Q :=
  ((legStartDay parameters i + legDuration parameters i) * 86400)%Q.
Definition legMiddleEpoch (parameters : list Q) (i : nat) : Q :=
  ((legStartDay parameters i + legDuration parameters i / 2) * 86400)%Q.

(** Every simulation recorded in [log] starts from the state obtained by
    interpolating, with order 8 and at the initial time of the integrator,
    the history that [histories] holds for the arc of the simulation. *)
Definition seedsInterpolatedFrom (T : Tudat) (histories : list (Z * StateHistory))
    (log : list (Event T)) : Prop :=
  forall bodyMap integratorSettings settings propagatorSettings,
    Simulation bodyMap integratorSettings settings propagatorSettings ∈ log ->
    exists history t,
      (arc_ settings, history) ∈ histories /\
      initialTime_ integratorSettings = Some t /\
      lagrangeInterpolate T history 8 t = Done (initialStates_ propagatorSettings).

(** Arc [k] has been reconciled and its tables written: the forward and
    backward solutions, the propagated history and the dependent variables. *)
Definition legEmitted {T : Tudat} (log : list (Event T)) (k : Z) : Prop :=
  (exists data path,
     FileWrite data ("numericalResultForward" +:+ to_string k +:+ ".dat") path ∈ log) /\
  (exists data path,
     FileWrite data ("numericalResultBackward" +:+ to_string k +:+ ".dat") path ∈ log) /\
  (exists data path,
     FileWrite data ("numericalResult" +:+ to_string k +:+ ".dat") path ∈ log) /\
  (exists data path,
     FileWrite data ("dependentResult" +:+ to_string k +:+ ".dat") path ∈ log).

(** The line that reports the wall-clock duration, and a log without it. *)
Definition isRunTimeReport {T : Tudat} (ev : Event T) : bool :=
  match ev with
  | Cout (text s :: _) => String.eqb s "Operation took: "
  | _ => false
  end.
Definition withoutRunTime {T : Tudat} (log : list (Event T)) : list (Event T) :=
  List.filter (fun ev => negb (isRunTimeReport ev)) log.



(** ** Notions used in further properties of the code *)

(** How many entries of the body sequence a call of the builder reads:
    none when the leg count is not positive; otherwise one per pass, and
    one more unless the leg count is a whole number, since only then a pass
    is the last one for the test [i != numberOfLegs - 1] of line 49. *)
Definition bodiesRead (numberOfLegs : Q) : Z :=
  if Qle_bool numberOfLegs 0 then 0
  else if Qeq_bool numberOfLegs (inject_Z (Qceiling numberOfLegs))
       then Qceiling numberOfLegs
       else Qceiling numberOfLegs + 1.

(** The initials of a list of body names, as one string. *)
Definition initials (bodies : list string) : string :=
  fold_right (fun b s => match b with String c _ => String c s | EmptyString => s end)
             "" bodies.

(** The save settings for the distance of the spacecraft to body [b]
    (lines 221-222). *)
Definition distanceTo (b : string) : SingleDependentVariableSaveSettings :=
  {| dependentVariableType_ := relative_distance_dependent_variable;
     associatedBody_ := "Spacecraft";
     secondaryBody_ := b |}.

(** The name of the table with prefix [prefix] for the arc with key [k]. *)
Definition tableName (prefix : string) (k : Z) : string :=
  prefix +:+ to_string k +:+ ".dat".

(** The two tables that a pass of the arc loop writes for the arc with key [k]. *)
Definition arcFiles (k : Z) : list string :=
  [tableName "numericalResultForward" k; tableName "numericalResultBackward" k].

(** One write per table, in the order of the tables (lines 331-354). *)
Definition tableWrites {T : Tudat} (prefix outputPath : string)
    (tables : list (Z * DataMap)) : list (Event T) :=
  map (fun e => FileWrite e.2 (tableName prefix e.1) outputPath) tables.

(** The files written according to a log, directory and name, in order. *)
Definition filesWritten {T : Tudat} (log : list (Event T)) : list (string * string) :=
  omap (fun ev => match ev with
                  | FileWrite _ name path => Some (path, name)
                  | _ => None
                  end) log.

(** ** Reasoning about runs *)

Section RunLemmas.
Context {Ev : Type}.
Implicit Types (l : list Ev).

Lemma bind_Done_inv {A B} (m : Run.M Ev A) (f : A -> Run.M Ev B) l b :
  Run.bind m f = (l, Done b) ->
  exists l1 a l2, m = (l1, Done a) /\ f a = (l2, Done b) /\ l = l1 ++ l2.
Proof.
  unfold Run.bind, Run.prefixed. destruct m as [l1 [a|e]]; [|discriminate].
  destruct (f a) as [l2 o] eqn:Hf. intros [= <- ->]. eauto 6.
Qed.

Lemma bind_Raised_inv {A B} (m : Run.M Ev A) (f : A -> Run.M Ev B) l e :
  Run.bind m f = (l, Raised e) ->
  m = (l, Raised e) \/
  exists l1 a l2, m = (l1, Done a) /\ f a = (l2, Raised e) /\ l = l1 ++ l2.
Proof.
  unfold Run.bind, Run.prefixed. destruct m as [l1 [a|e']].
  - destruct (f a) as [l2 o] eqn:Hf. intros [= <- ->]. right. eauto 6.
  - intros [= <- <-]. by left.
Qed.

Lemma bind_Done_l {A B} (f : A -> Run.M Ev B) l1 a :
  Run.bind (l1, Done a) f = Run.prefixed l1 (f a).
Proof. reflexivity. Qed.

Lemma prefixed_pair {A} l l2 (o : outcome A) :
  Run.prefixed l (l2, o) = (l ++ l2, o).
Proof. reflexivity. Qed.

Lemma prefixed_nil {A} (m : Run.M Ev A) : Run.prefixed [] m = m.
Proof. by destruct m. Qed.

Lemma bind_Raised_l {A B} (f : A -> Run.M Ev B) l1 e :
  Run.bind (l1, Raised e) f = (l1, Raised e).
Proof. reflexivity. Qed.

Lemma bind_lift {A B} (o : outcome A) (f : A -> Run.M Ev B) :
  Run.bind (Run.lift o) f =
  match o with Done a => f a | Raised e => ([], Raised e) end.
Proof. destruct o as [a|e]; [|done]. unfold Run.lift. by rewrite bind_Done_l, prefixed_nil. Qed.

Lemma lift_Done_inv {A} (o : outcome A) l a :
  Run.lift (Ev := Ev) o = (l, Done a) -> o = Done a /\ l = [].
Proof. unfold Run.lift. by intros [= <- ->]. Qed.

Lemma lift_Raised_inv {A} (o : outcome A) l e :
  Run.lift (Ev := Ev) o = (l, Raised e) -> o = Raised e /\ l = [].
Proof. unfold Run.lift. by intros [= <- ->]. Qed.
End RunLemmas.

(** Inversion of a successful run into the steps it is made of. *)
Ltac run_inv H :=
  lazymatch type of H with
  | Run.bind _ _ = (_, Done _) =>
    let l1 := fresh "l" in
    let a := fresh "a" in
    let l2 := fresh "l" in
    let H1 := fresh "Hstep" in
    let H2 := fresh "Hrest" in
    apply bind_Done_inv in H as (l1 & a & l2 & H1 & H2 & ->);
    run_inv H1; run_inv H2
  | Run.lift _ = (_, Done _) =>
    apply lift_Done_inv in H as [H ->]
  | Run.emit _ = (_, Done _) =>
    injection H as <- <-
  | Run.ret _ = (_, Done _) =>
    injection H as <- <-
  | _ => idtac
  end.

(** ** Indexing lemmas *)

Lemma at_Done {A} (v : list A) (i : Z) (a : A) :
  at_ v i = Done a <-> 0 <= i /\ v !! Z.to_nat i = Some a.
Proof.
  unfold at_. split.
  - destruct (0 <=? i) eqn:H0; simpl; [|discriminate].
    destruct (i <? Z.of_nat (length v)); [|discriminate].
    destruct (v !! Z.to_nat i); [|discriminate]. intros [= ->]. split; [lia|done].
  - intros [H0 Hl]. pose proof (lookup_lt_Some _ _ _ Hl) as Hlt.
    replace (0 <=? i) with true by lia.
    replace (i <? Z.of_nat (length v)) with true by lia.
    simpl. by rewrite Hl.
Qed.

Lemma at_in_range {A} (v : list A) (i : Z) :
  0 <= i < Z.of_nat (length v) -> exists a, at_ v i = Done a.
Proof.
  intros Hi. destruct (lookup_lt_is_Some_2 v (Z.to_nat i)) as [a Ha]; [lia|].
  exists a. apply at_Done. split; [lia|done].
Qed.

Lemma at_insert {A} (v : list A) (i : Z) (a : A) :
  0 <= i -> (Z.to_nat i < length v)%nat -> at_ (<[Z.to_nat i := a]> v) i = Done a.
Proof. intros H0 Hlt. apply at_Done. split; [done|]. by apply list_lookup_insert_eq. Qed.

Lemma at_out_of_range {A} (v : list A) (i : Z) :
  ~ (0 <= i < Z.of_nat (length v)) -> at_ v i = Raised std_out_of_range.
Proof.
  intros Hi. unfold at_.
  destruct (0 <=? i) eqn:H0; simpl; [|done].
  destruct (i <? Z.of_nat (length v)) eqn:H1; [lia|done].
Qed.

(** ** The acceleration-model builder *)

Lemma accelerationsOn_empty a b : accelerationsOn ∅ a b = [].
Proof. unfold accelerationsOn. by rewrite lookup_empty. Qed.

Lemma accelerationsOn_push_back_at (m : SelectedAccelerationMap) a b x b' :
  accelerationsOn (push_back_at m a b x) a b' =
  accelerationsOn m a b' ++ (if bool_decide (b' = b) then [x] else []).
Proof.
  unfold accelerationsOn, push_back_at. rewrite lookup_insert_eq. simpl.
  case_bool_decide as Hb.
  - subst b'. by rewrite lookup_insert_eq.
  - rewrite lookup_insert_ne by done. by rewrite app_nil_r.
Qed.

Lemma accelerationsOn_push_back_at_ne (m : SelectedAccelerationMap) a b x a' b' :
  a' <> a ->
  accelerationsOn (push_back_at m a b x) a' b' = accelerationsOn m a' b'.
Proof.
  intros Ha. unfold accelerationsOn, push_back_at. by rewrite lookup_insert_ne.
Qed.

Lemma inject_Z_lt_iff (i n : Z) : (inject_Z i < inject_Z n)%Q <-> i < n.
Proof. unfold Qlt. simpl. lia. Qed.

Lemma Qeq_bool_inject_Z_pred (i n : Z) :
  Qeq_bool (inject_Z i) (inject_Z n - 1) = bool_decide (i = n - 1).
Proof.
  destruct (decide (i = n - 1)) as [->|Hne].
  - rewrite bool_decide_eq_true_2 by done. apply Qeq_bool_iff.
    unfold Qeq. simpl. lia.
  - rewrite bool_decide_eq_false_2 by done.
    destruct (Qeq_bool (inject_Z i) (inject_Z n - 1)) eqn:E; [|done].
    apply Qeq_bool_iff in E. unfold Qeq in E. simpl in E. lia.
Qed.

Section BuilderFacts.
Context {NamedBodyMap AccelerationMap : Type}.
Variable create :
  NamedBodyMap -> SelectedAccelerationMap -> list string -> list string ->
  AccelerationMap.
Variable nameCentralBody nameBodyToPropagate : string.
Variable bodyMap : NamedBodyMap.
Variable transferBodyOrder : list string.

(** The fuel of the loop is never exhausted, whatever [numberOfLegs] is. *)
Lemma accelerationLoop_fuel (numberOfLegs : Q) (fuel : nat) (i : Z)
    (acc : list AccelerationMap) :
  0 <= i <= Z.of_nat (length transferBodyOrder) ->
  Z.of_nat (length transferBodyOrder) < i + Z.of_nat fuel ->
  accelerationLoop create numberOfLegs nameCentralBody nameBodyToPropagate
    bodyMap transferBodyOrder fuel i acc <> None.
Proof.
  revert i acc. induction fuel as [|fuel IH]; intros i acc Hi Hfuel; [lia|].
  simpl. destruct (Qlt_le_dec (inject_Z i) numberOfLegs); [|done].
  destruct (accelerationSettingsMapOfLeg _ _ _ _ i) as [m|e] eqn:Hleg; [|done].
  apply IH; [|lia].
  unfold accelerationSettingsMapOfLeg in Hleg.
  destruct (at_ transferBodyOrder i) as [b|] eqn:Hat; [|done].
  apply at_Done in Hat as [_ Hat]. apply lookup_lt_Some in Hat. lia.
Qed.

Lemma getAccelerationModels_returns (numberOfLegs : Q) :
  getAccelerationModelsPerturbedPatchedConicsTrajectory create numberOfLegs
    nameCentralBody nameBodyToPropagate bodyMap transferBodyOrder <> None.
Proof. apply accelerationLoop_fuel; lia. Qed.

Variable n : Z.
Hypothesis n_in_range : 0 <= n <= Z.of_nat (length transferBodyOrder).

Local Abbreviation legOf :=
  (accelerationSettingsMapOfLeg (inject_Z n) nameCentralBody nameBodyToPropagate
     transferBodyOrder).

(** What one pass of the loop body assembles. *)
Lemma accelerationSettingsMapOfLeg_spec (i : Z) (bi : string) :
  0 <= i < n ->
  transferBodyOrder !! Z.to_nat i = Some bi ->
  exists m,
    legOf i = Done m /\
    (forall a k, a <> nameBodyToPropagate -> accelerationsOn m a k = []) /\
    (forall k, accelerationsOn m nameBodyToPropagate k =
               perturbationsOfLeg nameCentralBody transferBodyOrder n i bi k).
Proof.
  intros Hi Hbi. unfold accelerationSettingsMapOfLeg, perturbationsOfLeg.
  assert (at_ transferBodyOrder i = Done bi) as -> by (apply at_Done; split; [lia|done]).
  rewrite Qeq_bool_inject_Z_pred.
  destruct (decide (i = n - 1)) as [Hlast|Hlast].
  { rewrite bool_decide_eq_true_2 by done. simpl. eexists; split; [done|]. split.
    - intros a k Ha.
      by rewrite !accelerationsOn_push_back_at_ne, accelerationsOn_empty.
    - intros k. rewrite !accelerationsOn_push_back_at, accelerationsOn_empty. simpl.
      rewrite (bool_decide_eq_false_2 (_ <> _ /\ _)) by tauto.
      by rewrite app_nil_r. }
  rewrite bool_decide_eq_false_2 by done. simpl.
  destruct (at_in_range transferBodyOrder (i + 1)) as [bn Hbn]; [lia|].
  rewrite Hbn. apply at_Done in Hbn as [_ Hbn]. rewrite Hbn.
  destruct (String.eqb bi bn) eqn:Heq; simpl.
  - apply String.eqb_eq in Heq as <-. eexists; split; [done|]. split.
    + intros a k Ha.
      by rewrite !accelerationsOn_push_back_at_ne, accelerationsOn_empty.
    + intros k. rewrite !accelerationsOn_push_back_at, accelerationsOn_empty. simpl.
      rewrite (bool_decide_eq_false_2 (_ <> _ /\ _)) by tauto.
      by rewrite app_nil_r.
  - apply String.eqb_neq in Heq. eexists; split; [done|]. split.
    + intros a k Ha.
      by rewrite !accelerationsOn_push_back_at_ne, accelerationsOn_empty.
    + intros k. rewrite !accelerationsOn_push_back_at, accelerationsOn_empty. simpl.
      rewrite <- app_assoc. do 2 f_equal.
      rewrite (bool_decide_ext (k = bn) (i <> n - 1 /\ Some bn <> Some bi /\ Some bn = Some k));
        [done|].
      split; [intros ->; split_and!; congruence|].
      intros (_ & _ & [= ->]). done.
Qed.

Lemma accelerationLoop_spec (fuel : nat) (i : Z) (acc : list AccelerationMap) :
  0 <= i <= n ->
  n - i < Z.of_nat fuel ->
  accelerationLoop create (inject_Z n) nameCentralBody nameBodyToPropagate
    bodyMap transferBodyOrder fuel i acc =
  Some (Done (acc ++
    map (fun j => create bodyMap
                    (legSettings (inject_Z n) nameCentralBody nameBodyToPropagate
                       transferBodyOrder j)
                    [nameBodyToPropagate] [nameCentralBody])
        (seqZ i (n - i)))).
Proof.
  revert i acc. induction fuel as [|fuel IH]; intros i acc Hi Hfuel; [lia|].
  simpl. destruct (Qlt_le_dec (inject_Z i) (inject_Z n)) as [Hlt|Hge].
  - apply (proj1 (inject_Z_lt_iff _ _)) in Hlt.
    destruct (lookup_lt_is_Some_2 transferBodyOrder (Z.to_nat i)) as [bi Hbi]; [lia|].
    destruct (accelerationSettingsMapOfLeg_spec i bi) as (m & Hm & _); [lia|done|].
    rewrite Hm, IH by lia.
    assert (seqZ i (n - i) = i :: seqZ (i + 1) (n - (i + 1))) as ->.
    { rewrite seqZ_cons by lia. do 2 f_equal; lia. }
    simpl. unfold legSettings at 2. by rewrite Hm, <- app_assoc.
  - assert (i = n) as ->.
    { destruct (decide (i < n)) as [Hlt|]; [|lia].
      apply (proj2 (inject_Z_lt_iff _ _)) in Hlt. by apply Qle_not_lt in Hge. }
    by rewrite Z.sub_diag, app_nil_r.
Qed.
End BuilderFacts.

Lemma perturbationsOfLeg_NoDup central order n i bi k :
  NoDup (perturbationsOfLeg central order n i bi k).
Proof.
  unfold perturbationsOfLeg.
  repeat case_bool_decide; simpl;
    repeat match goal with
           | |- NoDup [] => apply NoDup_nil_2
           | |- NoDup (_ :: _) =>
             apply NoDup_cons_2;
             [solve [rewrite ?elem_of_cons, ?elem_of_nil; intuition discriminate]|]
           end; try done.
  all: exfalso; destruct_and?; congruence.
Qed.

(** C6.  When the number of legs [n] does not exceed the length of the body
    sequence, the builder returns [n] acceleration maps, the [i]-th created
    from a settings map in which only the propagated body is accelerated and
    in which the accelerations exerted by any body [k] are: central gravity
    if [k] is the central body, point-mass gravity if [k] is
    [transferBodyOrder[i]], and point-mass gravity if [k] is
    [transferBodyOrder[i+1]] exactly when [i] is not the last index and
    [transferBodyOrder[i+1]] differs from [transferBodyOrder[i]]; no body
    has the same acceleration twice. *)
Theorem builder_perturbation_sets {NamedBodyMap AccelerationMap : Type}
    (create : NamedBodyMap -> SelectedAccelerationMap -> list string -> list string ->
              AccelerationMap)
    (nameCentralBody nameBodyToPropagate : string) (bodyMap : NamedBodyMap)
    (transferBodyOrder : list string) (n : Z) :
  0 <= n <= Z.of_nat (length transferBodyOrder) ->
  exists settings : list SelectedAccelerationMap,
    getAccelerationModelsPerturbedPatchedConicsTrajectory create (inject_Z n)
      nameCentralBody nameBodyToPropagate bodyMap transferBodyOrder =
    Some (Done (map (fun m => create bodyMap m [nameBodyToPropagate] [nameCentralBody])
                    settings)) /\
    length settings = Z.to_nat n /\
    forall (i : Z) (bi : string),
      0 <= i < n ->
      transferBodyOrder !! Z.to_nat i = Some bi ->
      exists m,
        settings !! Z.to_nat i = Some m /\
        (forall a k, a <> nameBodyToPropagate -> accelerationsOn m a k = []) /\
        (forall k, accelerationsOn m nameBodyToPropagate k =
                   perturbationsOfLeg nameCentralBody transferBodyOrder n i bi k) /\
        (forall k, NoDup (accelerationsOn m nameBodyToPropagate k)).
Proof.
  intros Hn.
  exists (map (legSettings (inject_Z n) nameCentralBody nameBodyToPropagate
                 transferBodyOrder) (seqZ 0 n)).
  split; [|split].
  - unfold getAccelerationModelsPerturbedPatchedConicsTrajectory.
    rewrite (accelerationLoop_spec create _ _ bodyMap _ n Hn) by lia.
    by rewrite Z.sub_0_r, map_map.
  - by rewrite length_map, length_seqZ.
  - intros i bi Hi Hbi.
    destruct (accelerationSettingsMapOfLeg_spec create nameCentralBody
                nameBodyToPropagate bodyMap transferBodyOrder n Hn i bi Hi Hbi)
      as (m & Hm & Hother & Hown).
    exists m. split_and!; [|done|done|].
    + rewrite list_lookup_fmap, lookup_seqZ_lt by lia. simpl.
      unfold legSettings. rewrite Z.add_0_l, Z2Nat.id, Hm by lia. done.
    + intros k. rewrite Hown. apply perturbationsOfLeg_NoDup.
Qed.

Lemma builder_perturbation_sets_witness :
  0 <= 3 <= Z.of_nat (length ["Earth"; "Venus"; "Venus"; "Jupiter"]) /\
  exists settings : list SelectedAccelerationMap,
    getAccelerationModelsPerturbedPatchedConicsTrajectory
      (fun (_ : unit) m _ _ => m) (inject_Z 3) "Sun" "Spacecraft" tt
      ["Earth"; "Venus"; "Venus"; "Jupiter"] =
    Some (Done (map (fun m => m) settings)) /\
    length settings = Z.to_nat 3 /\
    forall (i : Z) (bi : string),
      0 <= i < 3 ->
      ["Earth"; "Venus"; "Venus"; "Jupiter"] !! Z.to_nat i = Some bi ->
      exists m,
        settings !! Z.to_nat i = Some m /\
        (forall a k, a <> "Spacecraft" -> accelerationsOn m a k = []) /\
        (forall k, accelerationsOn m "Spacecraft" k =
                   perturbationsOfLeg "Sun" ["Earth"; "Venus"; "Venus"; "Jupiter"] 3 i bi k) /\
        (forall k, NoDup (accelerationsOn m "Spacecraft" k)).
Proof.
  split; [simpl; lia|].
  apply (builder_perturbation_sets (fun (_ : unit) m _ _ => m) "Sun" "Spacecraft" tt
           ["Earth"; "Venus"; "Venus"; "Jupiter"] 3).
  simpl; lia.
Defined.

(** ** The patched-conic design (lines 109-186) *)

Lemma fold_left_Qplus {A} (g : A -> Q) (l : list A) (a : Q) :
  (fold_left (fun total x => total + g x) l a == a + Qsum (map g l))%Q.
Proof.
  revert a. induction l as [|x l IH]; intros a; simpl.
  - ring.
  - rewrite IH. ring.
Qed.

Lemma calculateTrajectory_sum (tr : Trajectory.t) :
  (Trajectory.calculateTrajectory tr ==
   Qsum (map (Trajectory.contribution tr) (Trajectory.legs tr)))%Q.
Proof.
  unfold Trajectory.calculateTrajectory. rewrite fold_left_Qplus. ring.
Qed.

Lemma solveLegs_Done (solve : nat -> outcome Maneuver) (legs : list nat)
    (ms : list Maneuver) :
  Trajectory.solveLegs solve legs = Done ms ->
  Forall2 (fun i m => solve i = Done m) legs ms.
Proof.
  revert ms. induction legs as [|i legs IH]; intros ms; simpl.
  - intros [= <-]. constructor.
  - destruct (solve i) as [m|] eqn:Hm; [|done].
    destruct (Trajectory.solveLegs solve legs) as [ms'|]; [|done].
    intros [= <-]. constructor; auto.
Qed.

Section DesignFacts.
Context (T : Tudat).

(** A completed design phase, step by step. *)
Lemma designTransfer_Done (parameters : list Q) (log : list (Event T))
    (d : TransferDesign T) :
  designTransfer T parameters = (log, Done d) ->
  transferLegTypes_ d = [mga_Departure; mga_Swingby; mga_Swingby; mga_Swingby; capture] /\
  (exists x y, transferBodyOrder_ d = ["Earth"; "Venus"; x; y; "Jupiter"]) /\
  Trajectory.createTransferTrajectoryObject T (bodyMapForPatchedConic_ d)
    (transferBodyOrder_ d) "Sun" (transferLegTypes_ d)
    (trajectoryIndependentVariables_ d) (minimumPericenterRadii_ d)
    false None None true (Some (1.0895e8 / 0.02)%Q) (Some 0.98%Q) =
  Done (trajectory_ d) /\
  totalDeltaV_ d = Trajectory.calculateTrajectory (trajectory_ d) /\
  captureDeltaV_ d = Trajectory.getCaptureDeltaV (trajectory_ d) /\
  (positionVector_ d, timeVector_ d, deltaVVector_ d) =
  Trajectory.maneuvers (trajectory_ d) /\
  log = [Cout [text "Total/capture Delta V: "; number (Some (totalDeltaV_ d));
               text " "; number (captureDeltaV_ d)]].
Proof.
  unfold designTransfer. intros H. run_inv H.
  match goal with
  | H : context [Trajectory.maneuvers ?tr] |- _ =>
    destruct (Trajectory.maneuvers tr) as [[ps ts] dvs] eqn:Hman; run_inv H
  end.
  simpl. rewrite Hman. split_and!; eauto.
Qed.

(** The five legs of a completed design: their maneuvers are the
    solutions of the five legs, in order. *)
Lemma designTransfer_legs (parameters : list Q) (log : list (Event T))
    (d : TransferDesign T) :
  designTransfer T parameters = (log, Done d) ->
  exists m0 m1 m2 m3 m4,
    Trajectory.legs (trajectory_ d) =
      [(mga_Departure, m0); (mga_Swingby, m1); (mga_Swingby, m2); (mga_Swingby, m3);
       (capture, m4)] /\
    Trajectory.legManeuvers_ (trajectory_ d) = [m0; m1; m2; m3; m4] /\
    Trajectory.includeDepartureDeltaV_ (trajectory_ d) = false /\
    Trajectory.includeArrivalDeltaV_ (trajectory_ d) = true /\
    Forall2 (fun i m =>
               solveTransferLeg T (bodyMapForPatchedConic_ d) (transferBodyOrder_ d) "Sun"
                 (transferLegTypes_ d) (trajectoryIndependentVariables_ d)
                 (minimumPericenterRadii_ d) None None
                 (Some (1.0895e8 / 0.02)%Q) (Some 0.98%Q) i = Done m)
            [0; 1; 2; 3; 4]%nat [m0; m1; m2; m3; m4].
Proof.
  intros H. apply designTransfer_Done in H as (Htypes & _ & Hcreate & _).
  destruct d as [order types smas eccs bm radii vars tr total cap ps ts dvs].
  simpl in *. subst types.
  unfold Trajectory.createTransferTrajectoryObject in Hcreate.
  destruct (Trajectory.solveLegs _ _) as [ms|] eqn:Hsolve; [|done].
  apply solveLegs_Done in Hsolve. simpl in Hsolve.
  injection Hcreate as <-. unfold Trajectory.legs. simpl.
  repeat match goal with
         | H : Forall2 _ (_ :: _) _ |- _ =>
           apply Forall2_cons_inv_l in H as (? & ? & ? & H & ->)
         | H : Forall2 _ [] _ |- _ => apply Forall2_nil_inv_l in H as ->
         end.
  do 5 eexists. split_and!; try done.
  repeat constructor; done.
Qed.
End DesignFacts.

(** C3.  In every completed design the maneuver sequence returned by the
    trajectory object starts with the departure maneuver, the solution of
    leg 0, reported with its position, epoch and velocity change; the total
    velocity change is the sum of the velocity changes of the other
    maneuvers, that is, the sum over the whole sequence less the departure
    one. *)
Theorem departure_excluded_but_reported (T : Tudat) (parameters : list Q)
    (log : list (Event T)) (d : TransferDesign T) :
  designTransfer T parameters = (log, Done d) ->
  exists departure others,
    solveTransferLeg T (bodyMapForPatchedConic_ d) (transferBodyOrder_ d) "Sun"
      (transferLegTypes_ d) (trajectoryIndependentVariables_ d)
      (minimumPericenterRadii_ d) None None
      (Some (1.0895e8 / 0.02)%Q) (Some 0.98%Q) 0%nat = Done departure /\
    head (transferLegTypes_ d) = Some mga_Departure /\
    Trajectory.legManeuvers_ (trajectory_ d) = departure :: others /\
    positionVector_ d = position departure :: map position others /\
    timeVector_ d = epoch departure :: map epoch others /\
    deltaVVector_ d =
      velocityChangeMagnitude departure :: map velocityChangeMagnitude others /\
    (totalDeltaV_ d == Qsum (map velocityChangeMagnitude others))%Q /\
    (totalDeltaV_ d == Qsum (deltaVVector_ d) - velocityChangeMagnitude departure)%Q.
Proof.
  intros H.
  destruct (designTransfer_legs T _ _ _ H)
    as (m0 & m1 & m2 & m3 & m4 & Hlegs & Hms & Hdep & Harr & Hsolved).
  apply designTransfer_Done in H as (Htypes & _ & _ & Htotal & _ & Hman & _).
  unfold Trajectory.maneuvers in Hman. rewrite Hms in Hman.
  injection Hman as Hps Hts Hdvs.
  exists m0, [m1; m2; m3; m4].
  apply Forall2_cons_1 in Hsolved as [Hsolved0 _].
  assert (totalDeltaV_ d == Qsum (map velocityChangeMagnitude [m1; m2; m3; m4]))%Q
    as Hsum.
  { rewrite Htotal, calculateTrajectory_sum, Hlegs.
    unfold Trajectory.contribution. simpl. rewrite Hdep, Harr. ring. }
  split_and!; try done.
  - by rewrite Htypes.
  - rewrite Hsum, Hdvs. simpl. ring.
Qed.

Lemma departure_excluded_but_reported_witness :
  exists d,
    designTransfer (Toy.library ([], [], [])) trajectoryParameters =
      (Run.log (designTransfer (Toy.library ([], [], [])) trajectoryParameters), Done d) /\
    deltaVVector_ d = [1; 2; 3; 4; 5]%Q /\
    exists departure others,
      Trajectory.legManeuvers_ (trajectory_ d) = departure :: others /\
      (totalDeltaV_ d == Qsum (map velocityChangeMagnitude others))%Q.
Proof.
  eexists. split; [reflexivity|]. split; [reflexivity|].
  destruct (departure_excluded_but_reported (Toy.library ([], [], []))
              trajectoryParameters _ _ eq_refl)
    as (departure & others & _ & _ & Hms & _ & _ & _ & Hsum & _).
  exists departure, others. split; [exact Hms|exact Hsum].
Defined.

(** C4.  In every completed design the last leg is a capture leg, solved
    for the configured semi-major axis 1.0895e8 / 0.02 and eccentricity
    0.98; its velocity change is what [getCaptureDeltaV] yields, it is
    printed next to the total, and the total is the sum of the velocity
    changes of the three swing-by legs and of the capture. *)
Theorem capture_delta_v_reported_and_included (T : Tudat) (parameters : list Q)
    (log : list (Event T)) (d : TransferDesign T) :
  designTransfer T parameters = (log, Done d) ->
  last (transferLegTypes_ d) = Some capture /\
  Trajectory.arrivalSemiMajorAxis_ (trajectory_ d) = Some (1.0895e8 / 0.02)%Q /\
  Trajectory.arrivalEccentricity_ (trajectory_ d) = Some 0.98%Q /\
  exists m0 m1 m2 m3 arrival,
    Trajectory.legManeuvers_ (trajectory_ d) = [m0; m1; m2; m3; arrival] /\
    solveTransferLeg T (bodyMapForPatchedConic_ d) (transferBodyOrder_ d) "Sun"
      (transferLegTypes_ d) (trajectoryIndependentVariables_ d)
      (minimumPericenterRadii_ d) None None
      (Some (1.0895e8 / 0.02)%Q) (Some 0.98%Q) 4%nat = Done arrival /\
    captureDeltaV_ d = Some (velocityChangeMagnitude arrival) /\
    log = [Cout [text "Total/capture Delta V: "; number (Some (totalDeltaV_ d));
                 text " "; number (Some (velocityChangeMagnitude arrival))]] /\
    (totalDeltaV_ d ==
     velocityChangeMagnitude m1 + velocityChangeMagnitude m2 +
     velocityChangeMagnitude m3 + velocityChangeMagnitude arrival)%Q.
Proof.
  intros H.
  destruct (designTransfer_legs T _ _ _ H)
    as (m0 & m1 & m2 & m3 & m4 & Hlegs & Hms & Hdep & Harr & Hsolved).
  apply designTransfer_Done in H as (Htypes & _ & Hcreate & Htotal & Hcap & _ & Hlog).
  assert (captureDeltaV_ d = Some (velocityChangeMagnitude m4)) as Hcap'.
  { rewrite Hcap. unfold Trajectory.getCaptureDeltaV. by rewrite Hlegs. }
  unfold Trajectory.createTransferTrajectoryObject in Hcreate.
  destruct (Trajectory.solveLegs _ _); [|done]. injection Hcreate as Htr.
  split_and!.
  - by rewrite Htypes.
  - by rewrite <- Htr.
  - by rewrite <- Htr.
  - exists m0, m1, m2, m3, m4. split_and!; try done.
    + by do 4 apply Forall2_cons_1 in Hsolved as [_ Hsolved];
        apply Forall2_cons_1 in Hsolved as [Hsolved _].
    + by rewrite Hlog, Hcap'.
    + rewrite Htotal, calculateTrajectory_sum, Hlegs.
      unfold Trajectory.contribution. simpl. rewrite Hdep, Harr. ring.
Qed.

Lemma capture_delta_v_reported_and_included_witness :
  exists d,
    designTransfer (Toy.library ([], [], [])) trajectoryParameters =
      (Run.log (designTransfer (Toy.library ([], [], [])) trajectoryParameters), Done d) /\
    captureDeltaV_ d = Some 5%Q /\
    last (transferLegTypes_ d) = Some capture.
Proof.
  eexists. split; [reflexivity|]. split; [reflexivity|].
  exact (proj1 (capture_delta_v_reported_and_included (Toy.library ([], [], []))
                  trajectoryParameters _ _ eq_refl)).
Defined.

(** ** One pass of the arc loop (lines 274-327) *)

Section ArcFacts.
Context (T : Tudat).
Variable trajectoryParameters : list Q.
Variable bodyMapForPropagation : NamedBodyMap T.
Variable outputPath : string.
Variable numberOfResults : Z.

Local Abbreviation body :=
  (arcBody T trajectoryParameters bodyMapForPropagation outputPath numberOfResults).
Local Abbreviation loop :=
  (arcLoop T trajectoryParameters bodyMapForPropagation outputPath numberOfResults).

Lemma through_second (store : list (PropagatorSettings T * PropagatorSettings T))
    (k : Z) (f : PropagatorSettings T -> PropagatorSettings T)
    (pr : PropagatorSettings T * PropagatorSettings T) :
  store !! Z.to_nat k = Some pr ->
  through store (arcSettings k) f = <[Z.to_nat k := (pr.1, f pr.2)]> store.
Proof. intros H. unfold through. simpl. by rewrite H. Qed.

Lemma pointee_insert_second (store : list (PropagatorSettings T * PropagatorSettings T))
    (k : Z) (pr : PropagatorSettings T * PropagatorSettings T) :
  (Z.to_nat k < length store)%nat ->
  pointee (<[Z.to_nat k := pr]> store) (arcSettings k) = Some pr.2.
Proof. intros H. unfold pointee. simpl. by rewrite list_lookup_insert_eq. Qed.

Lemma simulate_Done integ store p l r :
  simulate T bodyMapForPropagation integ store p = (l, Done r) ->
  exists settings,
    pointee store p = Some settings /\
    SingleArcDynamicsSimulator T bodyMapForPropagation integ settings = Done r /\
    l = [Simulation bodyMapForPropagation integ p settings].
Proof.
  unfold simulate. destruct (pointee store p) as [settings|]; [|done].
  intros H. run_inv H. eauto.
Qed.

Lemma interpolateAt_Done h order t l x :
  interpolateAt T h order t = (l, Done x) ->
  lagrangeInterpolate T h order t = Done x /\ l = [Interpolation h order t].
Proof. unfold interpolateAt. intros H. run_inv H. eauto. Qed.

(** A completed pass, step by step. *)
Lemma arcBody_Done (st st' : ArcLoopState T) (k : Z) (h : StateHistory)
    (l : list (Event T)) :
  body st (k, h) = (l, Done st') ->
  let t := (currentArcMiddleTime_ st * 86400)%Q in
  exists seed tEnd tStart pr forwardSolution backwardSolution mid',
    lagrangeInterpolate T h 8 t = Done seed /\
    rbegin_first h = Done tEnd /\
    begin_first h = Done tStart /\
    0 <= k /\
    propagatorSettings_ st !! Z.to_nat k = Some pr /\
    SingleArcDynamicsSimulator T bodyMapForPropagation
      (forwardIntegratorSettings (integratorSettings_ st) t)
      (timedSettings pr.2 seed tEnd) = Done forwardSolution /\
    SingleArcDynamicsSimulator T bodyMapForPropagation
      (backwardIntegratorSettings (integratorSettings_ st) t)
      (timedSettings pr.2 seed tStart) = Done backwardSolution /\
    nextArcMiddleTime trajectoryParameters numberOfResults k
      (currentArcMiddleTime_ st) = Done mid' /\
    l = [ Interpolation h 8 t;
          Simulation bodyMapForPropagation
            (forwardIntegratorSettings (integratorSettings_ st) t)
            (arcSettings k) (timedSettings pr.2 seed tEnd);
          FileWrite forwardSolution
            ("numericalResultForward" +:+ to_string k +:+ ".dat") outputPath;
          Simulation bodyMapForPropagation
            (backwardIntegratorSettings (integratorSettings_ st) t)
            (arcSettings k) (timedSettings pr.2 seed tStart);
          FileWrite backwardSolution
            ("numericalResultBackward" +:+ to_string k +:+ ".dat") outputPath ] /\
    st' = {| integratorSettings_ := backwardIntegratorSettings (integratorSettings_ st) t;
             propagatorSettings_ :=
               <[Z.to_nat k := (pr.1, timedSettings pr.2 seed tStart)]>
                 (propagatorSettings_ st);
             currentArcMiddleTime_ := mid' |}.
Proof.
  unfold arcBody. simpl. intros H. fold (arcSettings k) in H.
  apply bind_Done_inv in H as (l1 & seed & l2 & Hseed & H & ->).
  apply interpolateAt_Done in Hseed as [Hseed ->].
  apply bind_Done_inv in H as (? & pr & l3 & Hpr & H & ->).
  apply lift_Done_inv in Hpr as [Hpr ->]. apply at_Done in Hpr as [Hk Hpr].
  pose proof (lookup_lt_Some _ _ _ Hpr) as Hlt.
  apply bind_Done_inv in H as (? & tEnd & l4 & HtEnd & H & ->).
  apply lift_Done_inv in HtEnd as [HtEnd ->].
  rewrite (through_second _ _ _ pr Hpr) in H.
  rewrite (through_second _ _ _ (pr.1, resetInitialStates pr.2 seed)) in H
    by by apply list_lookup_insert_eq.
  rewrite list_insert_insert_eq in H. simpl in H.
  apply bind_Done_inv in H as (? & fwd & l5 & Hfwd & H & ->).
  apply simulate_Done in Hfwd as (sF & HsF & Hfwd & ->).
  rewrite pointee_insert_second in HsF by done. injection HsF as <-.
  apply bind_Done_inv in H as (? & [] & l6 & Hw & H & ->). injection Hw as <-.
  apply bind_Done_inv in H as (? & pr' & l7 & Hpr' & H & ->).
  apply lift_Done_inv in Hpr' as [Hpr' ->].
  rewrite (through_second _ _ _ (pr.1, timedSettings pr.2 seed tEnd)) in H
    by by apply list_lookup_insert_eq.
  rewrite list_insert_insert_eq in H. simpl in H.
  apply bind_Done_inv in H as (? & tStart & l8 & HtStart & H & ->).
  apply lift_Done_inv in HtStart as [HtStart ->].
  rewrite (through_second _ _ _
             (pr.1, resetInitialStates (timedSettings pr.2 seed tEnd) seed)) in H
    by by apply list_lookup_insert_eq.
  rewrite list_insert_insert_eq in H. simpl in H.
  apply bind_Done_inv in H as (? & bwd & l9 & Hbwd & H & ->).
  apply simulate_Done in Hbwd as (sB & HsB & Hbwd & ->).
  rewrite pointee_insert_second in HsB by done. injection HsB as <-.
  apply bind_Done_inv in H as (? & [] & l10 & Hw & H & ->). injection Hw as <-.
  exists seed, tEnd, tStart, pr, fwd, bwd.
  unfold nextArcMiddleTime.
  destruct (as_size_t k <? as_size_t (numberOfResults - 1)).
  - apply bind_Done_inv in H as (? & p1 & l11 & Hp1 & H & ->).
    apply lift_Done_inv in Hp1 as [Hp1 ->].
    apply bind_Done_inv in H as (? & p2 & l12 & Hp2 & H & ->).
    apply lift_Done_inv in Hp2 as [Hp2 ->].
    injection H as <- <-. rewrite Hp1, Hp2.
    eexists. split_and!; try done.
  - injection H as <- <-. eexists. split_and!; try done.
Qed.

Lemma interpolateAt_eq h order t :
  interpolateAt T h order t = ([Interpolation h order t], lagrangeInterpolate T h order t).
Proof. reflexivity. Qed.

Lemma simulate_eq integ store p settings :
  pointee store p = Some settings ->
  simulate T bodyMapForPropagation integ store p =
  ([Simulation bodyMapForPropagation integ p settings],
   SingleArcDynamicsSimulator T bodyMapForPropagation integ settings).
Proof. intros H. unfold simulate. by rewrite H. Qed.

(** The pass as a cascade: what is in the log when a step throws. *)
Lemma arcBody_eq (st : ArcLoopState T) (k : Z) (h : StateHistory) :
  let t := (currentArcMiddleTime_ st * 86400)%Q in
  let I := integratorSettings_ st in
  body st (k, h) =
  match lagrangeInterpolate T h 8 t with
  | Raised e => ([Interpolation h 8 t], Raised e)
  | Done seed =>
  match at_ (propagatorSettings_ st) k with
  | Raised e => ([Interpolation h 8 t], Raised e)
  | Done pr =>
  match rbegin_first h with
  | Raised e => ([Interpolation h 8 t], Raised e)
  | Done tEnd =>
  match SingleArcDynamicsSimulator T bodyMapForPropagation
          (forwardIntegratorSettings I t) (timedSettings pr.2 seed tEnd) with
  | Raised e =>
    (take 2 (arcEvents bodyMapForPropagation outputPath I pr.2 k h t seed tEnd 0 [] []),
     Raised e)
  | Done forwardSolution =>
  match begin_first h with
  | Raised e =>
    (take 3 (arcEvents bodyMapForPropagation outputPath I pr.2 k h t seed tEnd 0
               forwardSolution []),
     Raised e)
  | Done tStart =>
  match SingleArcDynamicsSimulator T bodyMapForPropagation
          (backwardIntegratorSettings I t) (timedSettings pr.2 seed tStart) with
  | Raised e =>
    (take 4 (arcEvents bodyMapForPropagation outputPath I pr.2 k h t seed tEnd tStart
               forwardSolution []),
     Raised e)
  | Done backwardSolution =>
    (arcEvents bodyMapForPropagation outputPath I pr.2 k h t seed tEnd tStart
       forwardSolution backwardSolution,
     match nextArcMiddleTime trajectoryParameters numberOfResults k
             (currentArcMiddleTime_ st) with
     | Raised e => Raised e
     | Done mid' =>
       Done {| integratorSettings_ := backwardIntegratorSettings I t;
               propagatorSettings_ :=
                 <[Z.to_nat k := (pr.1, timedSettings pr.2 seed tStart)]>
                   (propagatorSettings_ st);
               currentArcMiddleTime_ := mid' |}
     end)
  end end end end end end.
Proof.
  unfold arcBody. simpl. fold (arcSettings k). rewrite interpolateAt_eq.
  destruct (lagrangeInterpolate T h 8 _) as [seed|e]; [|done].
  rewrite bind_Done_l.
  destruct (at_ (propagatorSettings_ st) k) as [pr|e] eqn:Hpr; [|done].
  apply at_Done in Hpr as [Hk Hpr]. pose proof (lookup_lt_Some _ _ _ Hpr) as Hlt.
  unfold Run.lift at 1. rewrite bind_Done_l.
  destruct (rbegin_first h) as [tEnd|e]; [|done].
  unfold Run.lift at 1. rewrite bind_Done_l.
  rewrite (through_second _ _ _ pr Hpr).
  rewrite (through_second _ _ _ (pr.1, resetInitialStates pr.2 seed))
    by by apply list_lookup_insert_eq.
  rewrite list_insert_insert_eq. simpl.
  erewrite simulate_eq by by apply pointee_insert_second.
  destruct (SingleArcDynamicsSimulator T _ _ _) as [fwd|e]; [|done].
  rewrite bind_Done_l. unfold Run.emit at 1. rewrite bind_Done_l.
  rewrite at_insert by done.
  unfold Run.lift at 1. rewrite bind_Done_l.
  rewrite (through_second _ _ _ (pr.1, timedSettings pr.2 seed tEnd))
    by by apply list_lookup_insert_eq.
  rewrite list_insert_insert_eq. simpl.
  destruct (begin_first h) as [tStart|e]; [|done].
  unfold Run.lift at 1. rewrite bind_Done_l.
  rewrite (through_second _ _ _
             (pr.1, resetInitialStates (timedSettings pr.2 seed tEnd) seed))
    by by apply list_lookup_insert_eq.
  rewrite list_insert_insert_eq. simpl.
  erewrite simulate_eq by by apply pointee_insert_second.
  destruct (SingleArcDynamicsSimulator T _ _ _) as [bwd|e]; [|done].
  rewrite bind_Done_l. unfold Run.emit at 1. rewrite bind_Done_l.
  unfold nextArcMiddleTime.
  destruct (as_size_t k <? as_size_t (numberOfResults - 1)); [|done].
  destruct (at_ trajectoryParameters (k + 1)) as [p1|e]; [|done].
  unfold Run.lift at 1. rewrite bind_Done_l.
  destruct (at_ trajectoryParameters (k + 2)) as [p2|e]; done.
Qed.

(** *** The loop as a sequence of passes *)

Lemma Qabs_opp_abs (h : Q) : Qabs (Qabs h * -1) = Qabs h.
Proof.
  destruct h as [n d]. unfold Qabs, Qmult. simpl.
  f_equal; [lia|]. apply Pos.mul_1_r.
Qed.

Lemma sameModels_refl (st : ArcLoopState T) : sameModels st st.
Proof. split_and!; try done. by apply Forall_Forall2_diag, Forall_forall. Qed.

Lemma sameModels_forward (st0 st : ArcLoopState T) t :
  sameModels st0 st ->
  forwardIntegratorSettings (integratorSettings_ st) t =
  forwardIntegratorSettings (integratorSettings_ st0) t.
Proof. intros (Hty & Hstep & _). unfold forwardIntegratorSettings. by rewrite Hty, Hstep. Qed.

Lemma sameModels_backward (st0 st : ArcLoopState T) t :
  sameModels st0 st ->
  backwardIntegratorSettings (integratorSettings_ st) t =
  backwardIntegratorSettings (integratorSettings_ st0) t.
Proof. intros (Hty & Hstep & _). unfold backwardIntegratorSettings. by rewrite Hty, Hstep. Qed.

Lemma sameModels_created (st0 st : ArcLoopState T) (k : Z) pr :
  sameModels st0 st ->
  propagatorSettings_ st !! Z.to_nat k = Some pr ->
  exists pr0,
    propagatorSettings_ st0 !! Z.to_nat k = Some pr0 /\
    pr0.1 = pr.1 /\ dynamics_ pr0.2 = dynamics_ pr.2.
Proof.
  intros (_ & _ & Hstore) Hpr.
  destruct (Forall2_lookup_r _ _ _ _ _ Hstore Hpr) as (pr0 & Hpr0 & H1 & H2). eauto.
Qed.

Lemma timedSettings_dynamics (s s' : PropagatorSettings T) x t :
  dynamics_ s = dynamics_ s' -> timedSettings s x t = timedSettings s' x t.
Proof.
  intros H. unfold timedSettings, resetTerminationSettings, resetInitialStates.
  simpl. by rewrite H.
Qed.

(** A completed pass preserves [sameModels] and logs a [reconciled] chunk. *)
Lemma arcBody_step (st0 st st' : ArcLoopState T) e l :
  sameModels st0 st ->
  body st e = (l, Done st') ->
  reconciled bodyMapForPropagation outputPath st0 e l /\ sameModels st0 st'.
Proof.
  intros Hsame H. destruct e as [k h].
  apply arcBody_Done in H
    as (seed & tEnd & tStart & pr & fwd & bwd & mid' & Hseed & HtEnd & HtStart & Hk
        & Hpr & Hfwd & Hbwd & Hmid & -> & ->).
  destruct (sameModels_created _ _ _ _ Hsame Hpr) as (pr0 & Hpr0 & Hfst & Hdyn).
  rewrite (sameModels_forward _ _ _ Hsame) in *.
  rewrite (sameModels_backward _ _ _ Hsame) in *.
  rewrite <- !(timedSettings_dynamics pr0.2 pr.2) in * by done.
  split.
  - exists (currentArcMiddleTime_ st * 86400)%Q, seed, tEnd, tStart, pr0.2, fwd, bwd.
    split_and!; try done. unfold pointee. simpl. by rewrite Hpr0.
  - destruct Hsame as (Hty & Hstep & Hstore). split_and!.
    + done.
    + apply Qabs_opp_abs.
    + simpl. rewrite <- (list_insert_id _ _ _ Hpr0). apply Forall2_insert; [done|].
      simpl. by rewrite Hfst.
Qed.

Lemma arcLoop_cons st e rest :
  loop st (e :: rest) = Run.bind (body st e) (fun st' => loop st' rest).
Proof. reflexivity. Qed.

(** Every run of the loop: one chunk per completed pass, then what the
    failing pass logged, if a pass failed. *)
Lemma arcLoop_run (st0 st : ArcLoopState T) results log o :
  sameModels st0 st ->
  loop st results = (log, o) ->
  exists chunks tail,
    log = concat chunks ++ tail /\
    Forall2 (reconciled bodyMapForPropagation outputPath st0)
            (take (length chunks) results) chunks /\
    match o with
    | Done st' => length chunks = length results /\ tail = [] /\ sameModels st0 st'
    | Raised e =>
      exists stk entry,
        results !! length chunks = Some entry /\
        sameModels st0 stk /\
        body stk entry = (tail, Raised e)
    end.
Proof.
  revert st log. induction results as [|e rest IH]; intros st log Hsame H.
  - injection H as <- <-. exists [], []. split_and!; done.
  - rewrite arcLoop_cons in H. destruct o as [st'|ex].
    + apply bind_Done_inv in H as (l1 & st1 & l2 & Hbody & Hrest & ->).
      destruct (arcBody_step _ _ _ _ _ Hsame Hbody) as [Hrec Hsame1].
      destruct (IH _ _ Hsame1 Hrest) as (chunks & tail & -> & Hall & Hlen & -> & Hsame').
      exists (l1 :: chunks), []. simpl. split_and!; try done.
      * by rewrite !app_nil_r.
      * by constructor.
      * by rewrite Hlen.
    + apply bind_Raised_inv in H as [Hbody|(l1 & st1 & l2 & Hbody & Hrest & ->)].
      * exists [], log. simpl. split_and!; try done. eauto.
      * destruct (arcBody_step _ _ _ _ _ Hsame Hbody) as [Hrec Hsame1].
        destruct (IH _ _ Hsame1 Hrest)
          as (chunks & tail & -> & Hall & stk & entry & Hentry & Hsamek & Hfail).
        exists (l1 :: chunks), tail. simpl. split_and!.
        -- by rewrite app_assoc.
        -- by constructor.
        -- eauto.
Qed.

(** A failing run stops at the failing pass. *)
Lemma arcLoop_Raised st results log e :
  loop st results = (log, Raised e) ->
  exists done entry rest stk logDone tail,
    results = done ++ entry :: rest /\
    loop st done = (logDone, Done stk) /\
    body stk entry = (tail, Raised e) /\
    log = logDone ++ tail.
Proof.
  revert st log. induction results as [|entry rest IH]; intros st log H; [done|].
  rewrite arcLoop_cons in H.
  apply bind_Raised_inv in H as [Hbody|(l1 & st1 & l2 & Hbody & Hrest & ->)].
  - exists [], entry, rest, st, [], log. split_and!; done.
  - destruct (IH _ _ Hrest) as (done & entry' & rest' & stk & logDone & tail
                                 & -> & Hdone & Hfail & ->).
    exists (entry :: done), entry', rest', stk, (l1 ++ logDone), tail.
    split_and!; try done.
    + rewrite arcLoop_cons, Hbody, bind_Done_l, Hdone. done.
    + by rewrite app_assoc.
Qed.

(** *** Simulations and interpolations in the log of any run *)

Lemma bind_log {A B} (m : Run.M (Event T) A) (f : A -> Run.M (Event T) B) :
  (Run.bind m f).1 =
  m.1 ++ match m.2 with Done a => (f a).1 | Raised _ => [] end.
Proof.
  destruct m as [l [a|e]]; simpl.
  - rewrite bind_Done_l. by destruct (f a).
  - by rewrite app_nil_r.
Qed.

Lemma bind_result {A B} (m : Run.M (Event T) A) (f : A -> Run.M (Event T) B) :
  (Run.bind m f).2 =
  match m.2 with Done a => (f a).2 | Raised e => Raised e end.
Proof.
  destruct m as [l [a|e]]; simpl; [|done].
  rewrite bind_Done_l. by destruct (f a).
Qed.

Lemma interpolationEpochs_app (l1 l2 : list (Event T)) :
  interpolationEpochs (l1 ++ l2) = interpolationEpochs l1 ++ interpolationEpochs l2.
Proof. apply omap_app. Qed.

Lemma arcBody_simulations st k h bm I p s :
  Simulation bm I p s ∈ (body st (k, h)).1 ->
  let t := (currentArcMiddleTime_ st * 86400)%Q in
  p = arcSettings k /\
  initialTime_ I = Some t /\
  lagrangeInterpolate T h 8 t = Done (initialStates_ s).
Proof.
  rewrite arcBody_eq. simpl.
  destruct (lagrangeInterpolate T h 8 _) as [seed|] eqn:Hseed;
    [|by intros [=]%list_elem_of_singleton].
  destruct (at_ (propagatorSettings_ st) k) as [pr|];
    [|by intros [=]%list_elem_of_singleton].
  destruct (rbegin_first h) as [tEnd|]; [|by intros [=]%list_elem_of_singleton].
  destruct (SingleArcDynamicsSimulator T _ _ _) as [fwd|];
    [destruct (begin_first h) as [tStart|];
     [destruct (SingleArcDynamicsSimulator T _ _ _) as [bwd|]|]|];
    simpl; intros Hin;
    repeat (apply elem_of_cons in Hin as [Hin|Hin]);
    try (by apply elem_of_nil in Hin);
    try discriminate; injection Hin as -> -> -> ->; done.
Qed.

Lemma arcBody_interpolations st k h h' order t' :
  Interpolation h' order t' ∈ (body st (k, h)).1 ->
  h' = h /\ order = 8 /\ t' = (currentArcMiddleTime_ st * 86400)%Q.
Proof.
  rewrite arcBody_eq. simpl.
  destruct (lagrangeInterpolate T h 8 _) as [seed|] eqn:Hseed;
    [|by intros [=]%list_elem_of_singleton].
  destruct (at_ (propagatorSettings_ st) k) as [pr|];
    [|by intros [=]%list_elem_of_singleton].
  destruct (rbegin_first h) as [tEnd|]; [|by intros [=]%list_elem_of_singleton].
  destruct (SingleArcDynamicsSimulator T _ _ _) as [fwd|];
    [destruct (begin_first h) as [tStart|];
     [destruct (SingleArcDynamicsSimulator T _ _ _) as [bwd|]|]|];
    simpl; intros Hin;
    repeat (apply elem_of_cons in Hin as [Hin|Hin]);
    try (by apply elem_of_nil in Hin);
    try discriminate; injection Hin as -> -> ->; done.
Qed.

Lemma arcBody_log_head st k h :
  exists l, (body st (k, h)).1 = Interpolation h 8 (currentArcMiddleTime_ st * 86400)%Q :: l.
Proof.
  rewrite arcBody_eq. simpl.
  destruct (lagrangeInterpolate T h 8 _) as [seed|]; [|by eexists].
  destruct (at_ (propagatorSettings_ st) k) as [pr|]; [|by eexists].
  destruct (rbegin_first h) as [tEnd|]; [|by eexists].
  destruct (SingleArcDynamicsSimulator T _ _ _) as [fwd|]; [|by eexists].
  destruct (begin_first h) as [tStart|]; [|by eexists].
  destruct (SingleArcDynamicsSimulator T _ _ _) as [bwd|]; by eexists.
Qed.

Lemma arcLoop_simulations st results bm I p s :
  Simulation bm I p s ∈ (loop st results).1 ->
  exists history t,
    (arc_ p, history) ∈ results /\
    initialTime_ I = Some t /\
    Interpolation history 8 t ∈ (loop st results).1 /\
    lagrangeInterpolate T history 8 t = Done (initialStates_ s).
Proof.
  revert st. induction results as [|[k h] rest IH]; intros st Hin.
  - by apply elem_of_nil in Hin.
  - rewrite arcLoop_cons, bind_log in Hin |- *. apply elem_of_app in Hin as [Hin|Hin].
    + apply arcBody_simulations in Hin as (-> & Ht & Hseed).
      exists h, (currentArcMiddleTime_ st * 86400)%Q. split_and!; try done.
      * simpl. apply elem_of_cons. by left.
      * destruct (arcBody_log_head st k h) as [l ->].
        apply elem_of_app. left. apply elem_of_cons. by left.
    + destruct (body st (k, h)).2 as [st1|]; [|by apply elem_of_nil in Hin].
      destruct (IH _ Hin) as (hist & t & Hhist & Ht & Hlogged & Hseed).
      exists hist, t. split_and!; try done.
      * apply elem_of_cons. by right.
      * apply elem_of_app. by right.
Qed.

Lemma arcBody_writes st k h data name path :
  FileWrite data name path ∈ (body st (k, h)).1 ->
  name = "numericalResultForward" +:+ to_string k +:+ ".dat" \/
  name = "numericalResultBackward" +:+ to_string k +:+ ".dat".
Proof.
  rewrite arcBody_eq. simpl.
  destruct (lagrangeInterpolate T h 8 _) as [seed|] eqn:Hseed;
    [|by intros [=]%list_elem_of_singleton].
  destruct (at_ (propagatorSettings_ st) k) as [pr|];
    [|by intros [=]%list_elem_of_singleton].
  destruct (rbegin_first h) as [tEnd|]; [|by intros [=]%list_elem_of_singleton].
  destruct (SingleArcDynamicsSimulator T _ _ _) as [fwd|];
    [destruct (begin_first h) as [tStart|];
     [destruct (SingleArcDynamicsSimulator T _ _ _) as [bwd|]|]|];
    simpl; intros Hin;
    repeat (apply elem_of_cons in Hin as [Hin|Hin]);
    try (by apply elem_of_nil in Hin);
    try discriminate; injection Hin as -> -> ->; auto.
Qed.

Lemma arcLoop_writes st results data name path :
  FileWrite data name path ∈ (loop st results).1 ->
  exists k,
    name = "numericalResultForward" +:+ to_string k +:+ ".dat" \/
    name = "numericalResultBackward" +:+ to_string k +:+ ".dat".
Proof.
  revert st. induction results as [|[k h] rest IH]; intros st Hin.
  - by apply elem_of_nil in Hin.
  - rewrite arcLoop_cons, bind_log in Hin. apply elem_of_app in Hin as [Hin|Hin].
    + exists k. by eapply arcBody_writes.
    + destruct (body st (k, h)).2 as [st1|]; [|by apply elem_of_nil in Hin].
      by eapply IH.
Qed.

Lemma arcLoop_interpolations st results h order t :
  Interpolation h order t ∈ (loop st results).1 ->
  order = 8 /\ exists k, (k, h) ∈ results.
Proof.
  revert st. induction results as [|[k h0] rest IH]; intros st Hin.
  - by apply elem_of_nil in Hin.
  - rewrite arcLoop_cons, bind_log in Hin. apply elem_of_app in Hin as [Hin|Hin].
    + apply arcBody_interpolations in Hin as (-> & -> & _).
      split; [done|]. exists k. apply elem_of_cons. by left.
    + destruct (body st (k, h0)).2 as [st1|]; [|by apply elem_of_nil in Hin].
      destruct (IH _ Hin) as (-> & k' & Hk'). split; [done|].
      exists k'. apply elem_of_cons. by right.
Qed.

(** *** The middle epochs *)

Lemma Qsum_app (l1 l2 : list Q) : (Qsum (l1 ++ l2) == Qsum l1 + Qsum l2)%Q.
Proof.
  induction l1 as [|x l1 IH]; simpl.
  - ring.
  - rewrite IH. ring.
Qed.

Lemma legStartDay_S (parameters : list Q) (i : nat) :
  (legStartDay parameters (S i) ==
   legStartDay parameters i + legDuration parameters i)%Q.
Proof.
  unfold legStartDay. rewrite seq_S, map_app, Qsum_app. simpl. ring.
Qed.

Lemma legMiddleEpoch_mean (parameters : list Q) (i : nat) :
  (legMiddleEpoch parameters i ==
   (legStartEpoch parameters i + legEndEpoch parameters i) / 2)%Q.
Proof. unfold legMiddleEpoch, legStartEpoch, legEndEpoch. field. Qed.

Lemma at_nth (v : list Q) (i : nat) (x : Q) :
  at_ v (Z.of_nat i) = Done x -> nth i v 0%Q = x.
Proof.
  intros [_ H]%at_Done. rewrite Nat2Z.id in H. by rewrite nth_lookup, H.
Qed.

Lemma arcBody_interpolationEpochs st k h :
  interpolationEpochs (body st (k, h)).1 = [(currentArcMiddleTime_ st * 86400)%Q].
Proof.
  rewrite arcBody_eq. simpl.
  destruct (lagrangeInterpolate T h 8 _) as [seed|]; [|done].
  destruct (at_ (propagatorSettings_ st) k) as [pr|]; [|done].
  destruct (rbegin_first h) as [tEnd|]; [|done].
  destruct (SingleArcDynamicsSimulator T _ _ _) as [fwd|]; [|done].
  destruct (begin_first h) as [tStart|]; [|done].
  by destruct (SingleArcDynamicsSimulator T _ _ _) as [bwd|].
Qed.

Lemma nextArcMiddleTime_schedule (i : nat) (mid mid' : Q) :
  Z.of_nat i < numberOfResults - 1 ->
  numberOfResults <= 2 ^ 64 ->
  (mid == legStartDay trajectoryParameters i
          + legDuration trajectoryParameters i / 2)%Q ->
  nextArcMiddleTime trajectoryParameters numberOfResults (Z.of_nat i) mid = Done mid' ->
  (mid' == legStartDay trajectoryParameters (S i)
           + legDuration trajectoryParameters (S i) / 2)%Q.
Proof.
  intros Hi Hn Hmid. unfold nextArcMiddleTime, as_size_t.
  rewrite !Z.mod_small by lia.
  replace (Z.of_nat i <? numberOfResults - 1) with true by lia.
  replace (Z.of_nat i + 1) with (Z.of_nat (S i)) by lia.
  replace (Z.of_nat i + 2) with (Z.of_nat (S (S i))) by lia.
  destruct (at_ trajectoryParameters (Z.of_nat (S i))) as [p1|] eqn:Hp1; [|done].
  destruct (at_ trajectoryParameters (Z.of_nat (S (S i)))) as [p2|] eqn:Hp2; [|done].
  intros [= <-]. apply at_nth in Hp1, Hp2.
  rewrite legStartDay_S, Hmid. unfold legDuration. rewrite Hp1, Hp2. field.
Qed.

Lemma arcLoop_interpolationEpochs (results : list (Z * StateHistory)) (i : nat)
    (st : ArcLoopState T) :
  map fst results = seqZ (Z.of_nat i) (Z.of_nat (length results)) ->
  Z.of_nat i + Z.of_nat (length results) = numberOfResults ->
  numberOfResults <= 2 ^ 64 ->
  (currentArcMiddleTime_ st == legStartDay trajectoryParameters i
                               + legDuration trajectoryParameters i / 2)%Q ->
  (forall st', (loop st results).2 = Done st' ->
               length (interpolationEpochs (loop st results).1) = length results) /\
  forall j t,
    interpolationEpochs (loop st results).1 !! j = Some t ->
    (j < length results)%nat /\ (t == legMiddleEpoch trajectoryParameters (i + j))%Q.
Proof.
  revert i st. induction results as [|[k h] rest IH]; intros i st Hkeys Hn Hsize Hmid.
  - split; [done|]. intros j t Hj. done.
  - assert (seqZ (Z.of_nat i) (Z.of_nat (length ((k, h) :: rest))) =
            Z.of_nat i :: seqZ (Z.of_nat (S i)) (Z.of_nat (length rest))) as Hseq.
    { rewrite seqZ_cons by (simpl; lia). f_equal. f_equal; simpl; lia. }
    rewrite Hseq in Hkeys. injection Hkeys as -> Hkeys.
    assert (Z.of_nat (S i) + Z.of_nat (length rest) = numberOfResults) as Hn'
      by (simpl in Hn; lia).
    assert (forall t, (t == currentArcMiddleTime_ st * 86400)%Q ->
                      (t == legMiddleEpoch trajectoryParameters (i + 0))%Q) as Hfirst.
    { intros t ->. rewrite Nat.add_0_r. unfold legMiddleEpoch. by rewrite Hmid. }
    rewrite arcLoop_cons, bind_log, bind_result, interpolationEpochs_app,
      arcBody_interpolationEpochs.
    destruct (body st (Z.of_nat i, h)) as [l [st1|e]] eqn:Hbody; cbn [fst snd].
    2: { split; [done|].
         intros [|j] t Hj; [|done]. injection Hj as <-. split; [simpl; lia|].
         by apply Hfirst. }
    destruct rest as [|e' rest'].
    { split; [done|].
      intros [|j] t Hj; [|done]. injection Hj as <-. split; [simpl; lia|].
      by apply Hfirst. }
    apply arcBody_Done in Hbody
      as (seed & tEnd & tStart & pr & fwd & bwd & mid' & _ & _ & _ & _
          & _ & _ & _ & Hnext & _ & ->).
    apply (nextArcMiddleTime_schedule i) in Hnext; [|simpl in Hn; lia|done|done].
    match goal with
    | |- context [loop ?s (e' :: rest')] =>
      destruct (IH (S i) s Hkeys Hn' Hsize Hnext) as [IHlen IHepochs]
    end.
    split.
    + intros st' Hdone. cbn [length app]. f_equal. by eapply IHlen.
    + intros [|j] t Hj.
      * injection Hj as <-. split; [simpl; lia|]. by apply Hfirst.
      * cbn [app lookup list_lookup] in Hj. apply IHepochs in Hj as [Hlt Ht].
        split; [simpl in *; lia|].
        by replace (i + S j)%nat with (S i + j)%nat by lia.
Qed.
End ArcFacts.

Section ArcSeeds.
Context (T : Tudat).
Variable trajectoryParameters : list Q.
Variable bodyMapForPropagation : NamedBodyMap T.
Variable outputPath : string.
Variable numberOfResults : Z.

Local Abbreviation body :=
  (arcBody T trajectoryParameters bodyMapForPropagation outputPath numberOfResults).
Local Abbreviation loop :=
  (arcLoop T trajectoryParameters bodyMapForPropagation outputPath numberOfResults).

(** With keys that count the legs, every simulation of an arc starts at
    the middle epoch of the leg of that arc. *)
Lemma arcLoop_simulationEpochs (results : list (Z * StateHistory)) (i : nat)
    (st : ArcLoopState T) bm I p s :
  map fst results = seqZ (Z.of_nat i) (Z.of_nat (length results)) ->
  Z.of_nat i + Z.of_nat (length results) = numberOfResults ->
  numberOfResults <= 2 ^ 64 ->
  (currentArcMiddleTime_ st == legStartDay trajectoryParameters i
                               + legDuration trajectoryParameters i / 2)%Q ->
  Simulation bm I p s ∈ (loop st results).1 ->
  exists history t,
    (arc_ p, history) ∈ results /\
    initialTime_ I = Some t /\
    (t == legMiddleEpoch trajectoryParameters (Z.to_nat (arc_ p)))%Q /\
    lagrangeInterpolate T history 8 t = Done (initialStates_ s).
Proof.
  revert i st. induction results as [|[k h] rest IH]; intros i st Hkeys Hn Hsize Hmid Hin.
  { by apply elem_of_nil in Hin. }
  assert (seqZ (Z.of_nat i) (Z.of_nat (length ((k, h) :: rest))) =
          Z.of_nat i :: seqZ (Z.of_nat (S i)) (Z.of_nat (length rest))) as Hseq.
  { rewrite seqZ_cons by (simpl; lia). f_equal. f_equal; simpl; lia. }
  rewrite Hseq in Hkeys. injection Hkeys as -> Hkeys.
  rewrite arcLoop_cons, bind_log in Hin. apply elem_of_app in Hin as [Hin|Hin].
  - apply arcBody_simulations in Hin as (-> & Ht & Hseed).
    exists h, (currentArcMiddleTime_ st * 86400)%Q. split_and!; try done.
    + apply elem_of_cons. by left.
    + simpl. rewrite Nat2Z.id. unfold legMiddleEpoch. by rewrite Hmid.
  - destruct (body st (Z.of_nat i, h)) as [l [st1|e]] eqn:Hbody; cbn [fst snd] in Hin;
      [|by apply elem_of_nil in Hin].
    destruct rest as [|e' rest']; [by apply elem_of_nil in Hin|].
    apply arcBody_Done in Hbody
      as (seed & tEnd & tStart & pr & fwd & bwd & mid' & _ & _ & _ & _
          & _ & _ & _ & Hnext & _ & ->).
    apply (nextArcMiddleTime_schedule _ _ i) in Hnext; [|simpl in Hn; lia|done|done].
    match type of Hin with
    | _ ∈ (loop ?st1 _).1 =>
      destruct (IH (S i) st1 Hkeys) as (history & t & Hhist & Ht & Hepoch & Hseed);
        [simpl in Hn |- *; lia|done|exact Hnext|exact Hin|]
    end.
    exists history, t. split_and!; try done. apply elem_of_cons. by right.
Qed.
End ArcSeeds.

(** ** The two runs of every arc *)







(** ** Where the seed state comes from *)

Lemma repropagateArcs_log (T : Tudat) (parameters : list Q) (outputPath : string)
    (integ : IntegratorSettings) (s : PropagationSetup T) :
  Run.log (repropagateArcs T parameters outputPath integ s) = [] \/
  exists st,
    Run.log (repropagateArcs T parameters outputPath integ s) =
    (arcLoop T parameters (bodyMapForPropagation_ s) outputPath
       (Z.of_nat (length (fullProblemResultForEachLeg_ s))) st
       (fullProblemResultForEachLeg_ s)).1.
Proof.
  unfold repropagateArcs, Run.log.
  destruct (at_ parameters 0) as [p0|]; [|by left].
  destruct (at_ parameters 1) as [p1|]; [|by left].
  right. eexists. unfold Run.lift. rewrite !bind_Done_l, !prefixed_nil. done.
Qed.

(** C1, for the history the program interpolates.  Every simulation
    started by the arc loop of [main], forward or backward, starts from the
    state obtained by interpolating with order 8, at the initial time given
    to the integrator, the history that [fullProblemResultForEachLeg] (the
    numerically propagated solution returned by the library) holds for the
    arc; that interpolation is in the log; and the loop requests no other
    interpolation than of order 8 on such a history.  When the propagated
    results are keyed 0, 1, ..., n-1, the legs in order, that initial time
    is the temporal midpoint epoch of the leg of the arc in the duration
    schedule of the parameter vector: the mean of the start and the end
    epoch of the leg. *)
Theorem seed_interpolated_from_propagated_history (T : Tudat) (parameters : list Q)
    (outputPath : string) (integ : IntegratorSettings) (s : PropagationSetup T) :
  seedsInterpolatedFrom T (fullProblemResultForEachLeg_ s)
    (Run.log (repropagateArcs T parameters outputPath integ s)) /\
  (forall bodyMap integratorSettings settings propagatorSettings,
     Simulation bodyMap integratorSettings settings propagatorSettings ∈
       Run.log (repropagateArcs T parameters outputPath integ s) ->
     exists history t,
       (arc_ settings, history) ∈ fullProblemResultForEachLeg_ s /\
       initialTime_ integratorSettings = Some t /\
       Interpolation history 8 t ∈
         Run.log (repropagateArcs T parameters outputPath integ s)) /\
  (forall history order t,
     Interpolation history order t ∈
       Run.log (repropagateArcs T parameters outputPath integ s) ->
     order = 8 /\ exists k, (k, history) ∈ fullProblemResultForEachLeg_ s) /\
  (map fst (fullProblemResultForEachLeg_ s) =
     seqZ 0 (Z.of_nat (length (fullProblemResultForEachLeg_ s))) ->
   Z.of_nat (length (fullProblemResultForEachLeg_ s)) <= 2 ^ 64 ->
   forall bodyMap integratorSettings settings propagatorSettings,
     Simulation bodyMap integratorSettings settings propagatorSettings ∈
       Run.log (repropagateArcs T parameters outputPath integ s) ->
     exists history t,
       (arc_ settings, history) ∈ fullProblemResultForEachLeg_ s /\
       initialTime_ integratorSettings = Some t /\
       (t == legMiddleEpoch parameters (Z.to_nat (arc_ settings)))%Q /\
       (t == (legStartEpoch parameters (Z.to_nat (arc_ settings))
              + legEndEpoch parameters (Z.to_nat (arc_ settings))) / 2)%Q /\
       lagrangeInterpolate T history 8 t = Done (initialStates_ propagatorSettings)).
Proof.
  split_and!.
  - destruct (repropagateArcs_log T parameters outputPath integ s) as [->|[st ->]].
    + intros bm I p ps Hin. by apply elem_of_nil in Hin.
    + intros bm I p ps Hin.
      apply arcLoop_simulations in Hin as (h & t & Hh & Ht & _ & Hseed). eauto.
  - destruct (repropagateArcs_log T parameters outputPath integ s) as [->|[st ->]].
    + intros bm I p ps Hin. by apply elem_of_nil in Hin.
    + intros bm I p ps Hin.
      apply arcLoop_simulations in Hin as (h & t & Hh & Ht & Hlogged & _). eauto.
  - destruct (repropagateArcs_log T parameters outputPath integ s) as [->|[st ->]].
    + intros h order t Hin. by apply elem_of_nil in Hin.
    + intros h order t. apply arcLoop_interpolations.
  - intros Hkeys Hsize bm I p ps. unfold repropagateArcs, Run.log.
    rewrite bind_lift. destruct (at_ parameters 0) as [p0|] eqn:Hp0;
      [|by intros ?%elem_of_nil].
    rewrite bind_lift. destruct (at_ parameters 1) as [p1|] eqn:Hp1;
      [|by intros ?%elem_of_nil].
    apply (at_nth _ 0) in Hp0. apply (at_nth _ 1) in Hp1.
    intros Hin.
    apply (arcLoop_simulationEpochs T parameters _ _ _ _ 0) in Hin
      as (history & t & Hhist & Ht & Hepoch & Hseed); try done.
    + exists history, t. split_and!; try done. by rewrite Hepoch, legMiddleEpoch_mean.
    + simpl. unfold legStartDay, legDuration. simpl. rewrite Hp0, Hp1. ring.
Qed.

Lemma seed_interpolated_from_propagated_history_witness :
  exists bodyMap integ settings propagatorSettings history t,
    Simulation bodyMap integ settings propagatorSettings ∈
      Run.log (repropagateArcs Toy.oneArc [10; 20; 30; 1]%Q "HighThrust"
                 integratorSettings Toy.setup) /\
    arc_ settings = 1 /\
    (arc_ settings, history) ∈ fullProblemResultForEachLeg_ Toy.setup /\
    initialTime_ integ = Some t /\
    (t == (10 + 20 + 30 / 2) * 86400)%Q /\
    lagrangeInterpolate Toy.oneArc history 8 t = Done (initialStates_ propagatorSettings).
Proof.
  assert (exists bodyMap integ member propagatorSettings,
            Run.log (repropagateArcs Toy.oneArc [10; 20; 30; 1]%Q "HighThrust"
                       integratorSettings Toy.setup) !! 6%nat =
            Some (Simulation bodyMap integ {| arc_ := 1; member_ := member |}
                    propagatorSettings))
    as (bodyMap & integ & member & propagatorSettings & Hev).
  { eexists _, _, _, _. reflexivity. }
  apply list_elem_of_lookup_2 in Hev.
  assert (map fst (fullProblemResultForEachLeg_ Toy.setup) =
          seqZ 0 (Z.of_nat (length (fullProblemResultForEachLeg_ Toy.setup)))) as Hkeys
    by reflexivity.
  assert (Z.of_nat (length (fullProblemResultForEachLeg_ Toy.setup)) <= 2 ^ 64) as Hsize
    by (simpl; lia).
  destruct (seed_interpolated_from_propagated_history Toy.oneArc
              [10; 20; 30; 1]%Q "HighThrust" integratorSettings Toy.setup)
    as (_ & _ & _ & Hmiddle).
  destruct (Hmiddle Hkeys Hsize _ _ _ _ Hev)
    as (history & t & Hin & Ht & Hepoch & _ & Hseed).
  exists bodyMap, integ, {| arc_ := 1; member_ := member |}, propagatorSettings, history, t.
  split; [exact Hev|]. split; [reflexivity|]. split; [exact Hin|]. split; [exact Ht|].
  split; [|exact Hseed].
  rewrite Hepoch. simpl. unfold legMiddleEpoch, legStartDay, legDuration. simpl. ring.
Defined.

(** C1 with the analytic history as the source of the seed does not hold:
    in the run of [main] on a library whose propagation yields one arc
    with an analytic history and a different propagated history, the
    forward run starts from the state interpolated from the propagated
    history, which is not what interpolating the analytic history gives. *)
Lemma seed_not_from_analytic_history :
  exists d s st,
    Run.result (pipeline Toy.oneArc Toy.clock trajectoryParameters integratorSettings) =
      Done (d, s, st) /\
    lambertTargeterResultForEachLeg_ s = [(0, Toy.analyticHistory)] /\
    ~ seedsInterpolatedFrom Toy.oneArc (lambertTargeterResultForEachLeg_ s)
        (Run.log (pipeline Toy.oneArc Toy.clock trajectoryParameters integratorSettings)).
Proof.
  assert (exists d s st,
            Run.result (pipeline Toy.oneArc Toy.clock trajectoryParameters
                          integratorSettings) = Done (d, s, st) /\
            lambertTargeterResultForEachLeg_ s = [(0, Toy.analyticHistory)])
    as (d & s & st & Hrun & Hanalytic).
  { eexists _, _, _. split; reflexivity. }
  exists d, s, st. split; [exact Hrun|]. split; [exact Hanalytic|].
  rewrite Hanalytic. intros Hclaim.
  assert (exists bodyMap integ dyn term,
            Run.log (pipeline Toy.oneArc Toy.clock trajectoryParameters
                       integratorSettings) !! 3%nat =
            Some (Simulation bodyMap integ {| arc_ := 0; member_ := second |}
                    {| dynamics_ := dyn;
                       initialStates_ := mkVector6d 3 0 0 0 1 0;
                       terminationSettings_ := term |}) /\
            initialTime_ integ =
              Some ((-1851.46422926478 + 94.13188652993128 / 2) * 86400)%Q)
    as (bodyMap & integ & dyn & term & Hev & Hinteg).
  { eexists _, _, _, _. split; reflexivity. }
  apply list_elem_of_lookup_2 in Hev.
  destruct (Hclaim _ _ _ _ Hev) as (history & t & Hin & Ht & Hseed).
  simpl in Hin. apply list_elem_of_singleton in Hin. injection Hin as ->.
  rewrite Hinteg in Ht. injection Ht as <-.
  vm_compute in Hseed. discriminate.
Qed.

(** ** The middle epoch of every arc *)

(** C7.  When the propagated results are keyed 0, 1, ..., n-1 and the
    parameter vector holds a duration for each of these legs (and its size
    fits [size_t]), the [i]-th interpolation of the arc loop of [main] is
    requested at the epoch: start of leg 0, plus the durations of the legs
    before leg [i], plus half the duration of leg [i], in seconds; this is
    the mean of the start and end epochs of leg [i].  A completed loop
    requests exactly n interpolations. *)
Theorem arc_middle_epochs (T : Tudat) (parameters : list Q) (outputPath : string)
    (integ : IntegratorSettings) (s : PropagationSetup T) :
  map fst (fullProblemResultForEachLeg_ s) =
    seqZ 0 (Z.of_nat (length (fullProblemResultForEachLeg_ s))) ->
  (length (fullProblemResultForEachLeg_ s) + 2 <= length parameters)%nat ->
  Z.of_nat (length parameters) <= 2 ^ 64 ->
  (forall st,
     Run.result (repropagateArcs T parameters outputPath integ s) = Done st ->
     length (interpolationEpochs
               (Run.log (repropagateArcs T parameters outputPath integ s))) =
     length (fullProblemResultForEachLeg_ s)) /\
  forall (i : nat) (t : Q),
    interpolationEpochs (Run.log (repropagateArcs T parameters outputPath integ s)) !! i
      = Some t ->
    (i < length (fullProblemResultForEachLeg_ s))%nat /\
    (t == (nth 0 parameters 0
           + Qsum (map (fun j => nth (S j) parameters 0) (seq 0 i))
           + nth (S i) parameters 0 / 2) * 86400)%Q /\
    (t == (legStartEpoch parameters i + legEndEpoch parameters i) / 2)%Q.
Proof.
  intros Hkeys Hlen Hsize.
  unfold repropagateArcs, Run.log, Run.result.
  destruct (at_in_range parameters 0) as [p0 Hp0]; [lia|].
  destruct (at_in_range parameters 1) as [p1 Hp1]; [lia|].
  rewrite Hp0, Hp1. unfold Run.lift. rewrite !bind_Done_l, !prefixed_nil.
  apply (at_nth _ 0) in Hp0. apply (at_nth _ 1) in Hp1.
  match goal with
  | |- context [arcLoop T _ _ _ _ ?st0 _] =>
    destruct (arcLoop_interpolationEpochs T parameters (bodyMapForPropagation_ s)
                outputPath (Z.of_nat (length (fullProblemResultForEachLeg_ s)))
                (fullProblemResultForEachLeg_ s) 0 st0) as [Hdone Hepochs]
  end; try done; try lia.
  { simpl. unfold legStartDay, legDuration. simpl. rewrite Hp0, Hp1. ring. }
  split; [exact Hdone|].
  intros i t Hi. apply Hepochs in Hi as [Hlt Ht]. simpl in Ht.
  split_and!; [done| |].
  - rewrite Ht. reflexivity.
  - by rewrite Ht, legMiddleEpoch_mean.
Qed.

Lemma arc_middle_epochs_witness :
  map fst (fullProblemResultForEachLeg_ Toy.setup) =
    seqZ 0 (Z.of_nat (length (fullProblemResultForEachLeg_ Toy.setup))) /\
  (length (fullProblemResultForEachLeg_ Toy.setup) + 2 <= length [10; 20; 30; 1]%Q)%nat /\
  Z.of_nat (length [10; 20; 30; 1]%Q) <= 2 ^ 64 /\
  exists t0 t1,
    interpolationEpochs
      (Run.log (repropagateArcs Toy.oneArc [10; 20; 30; 1]%Q "HighThrust"
                  integratorSettings Toy.setup)) = [t0; t1] /\
    (t0 == (10 + 20 / 2) * 86400)%Q /\
    (t1 == (10 + 20 + 30 / 2) * 86400)%Q.
Proof.
  assert (map fst (fullProblemResultForEachLeg_ Toy.setup) =
          seqZ 0 (Z.of_nat (length (fullProblemResultForEachLeg_ Toy.setup)))) as Hkeys
    by reflexivity.
  assert (length (fullProblemResultForEachLeg_ Toy.setup) + 2
          <= length [10; 20; 30; 1]%Q)%nat as Hlen by (simpl; lia).
  assert (Z.of_nat (length [10; 20; 30; 1]%Q) <= 2 ^ 64) as Hsize by (simpl; lia).
  split; [exact Hkeys|]. split; [exact Hlen|]. split; [exact Hsize|].
  assert (exists t0 t1,
            interpolationEpochs
              (Run.log (repropagateArcs Toy.oneArc [10; 20; 30; 1]%Q "HighThrust"
                          integratorSettings Toy.setup)) = [t0; t1])
    as (t0 & t1 & Hepochs).
  { eexists _, _. reflexivity. }
  exists t0, t1. split; [exact Hepochs|].
  destruct (arc_middle_epochs Toy.oneArc [10; 20; 30; 1]%Q "HighThrust"
              integratorSettings Toy.setup Hkeys Hlen Hsize) as [_ Hall].
  rewrite Hepochs in Hall.
  destruct (Hall 0%nat t0 eq_refl) as (_ & H0 & _).
  destruct (Hall 1%nat t1 eq_refl) as (_ & H1 & _).
  simpl in H0, H1. split; [rewrite H0|rewrite H1]; ring.
Defined.

(** ** Failures *)

Lemma designTransfer_parameters (T : Tudat) (parameters : list Q)
    (log : list (Event T)) (d : TransferDesign T) :
  designTransfer T parameters = (log, Done d) -> (6 <= length parameters)%nat.
Proof.
  unfold designTransfer. intros H.
  apply bind_Done_inv in H as (? & p5 & ? & Hp5 & _).
  apply lift_Done_inv in Hp5 as [Hp5 _]. apply at_Done in Hp5 as [_ Hp5].
  apply lookup_lt_Some in Hp5. simpl in Hp5. lia.
Qed.

Lemma propagateFullProblem_log (T : Tudat) (clock : nat -> Q)
    (integ : IntegratorSettings) (d : TransferDesign T) (l : list (Event T))
    (s : PropagationSetup T) :
  propagateFullProblem T clock integ d = (l, Done s) -> exists items, l = [Cout items].
Proof.
  unfold propagateFullProblem. rewrite !bind_lift.
  destruct (match getAccelerationModelsPerturbedPatchedConicsTrajectory _ _ _ _ _ _ with
            | Some o => o
            | None => Raised std_out_of_range
            end) as [accelerationMap|]; [|done].
  rewrite !bind_lift.
  destruct (getPatchedConicPropagatorSettings T _ _ _ _ _ _ _ _ _ _ _ _ _)
    as [settings|]; [|done].
  rewrite !bind_lift.
  destruct (fullPropagationPatchedConicsTrajectory T _ _ _ _ _ _ _ _ _ _)
    as [results|]; [|done].
  intros H. apply bind_Done_inv in H as (? & [] & ? & Hemit & H & ->).
  injection Hemit as <-. injection H as <- _. eauto.
Qed.

(** C8, without a handler.  An exception raised while an arc is
    reconciled is not caught.  The arc loop ends with it in the pass of that
    arc, after the completed passes of the arcs before it; the arcs after
    it are not processed; and the run ends with the same exception, its
    log being the log up to the failure: the only tables written are
    forward and backward solutions, none of the tables that [main] writes
    after the loop. *)
Theorem leg_failure_ends_the_run (T : Tudat) (clock : nat -> Q) (parameters : list Q)
    (integ : IntegratorSettings) (l0 l1 l2 : list (Event T))
    (d : TransferDesign T) (s : PropagationSetup T) (e : exception) :
  designTransfer T parameters = (l0, Done d) ->
  propagateFullProblem T clock integ d = (l1, Done s) ->
  repropagateArcs T parameters (getOutputPath T "HighThrust") integ s = (l2, Raised e) ->
  pipeline T clock parameters integ = (l0 ++ l1 ++ l2, Raised e) /\
  (forall data name path,
     FileWrite data name path ∈ l0 ++ l1 ++ l2 ->
     exists k,
       name = "numericalResultForward" +:+ to_string k +:+ ".dat" \/
       name = "numericalResultBackward" +:+ to_string k +:+ ".dat") /\
  exists done entry rest st0 stk logDone tail,
    fullProblemResultForEachLeg_ s = done ++ entry :: rest /\
    arcLoop T parameters (bodyMapForPropagation_ s) (getOutputPath T "HighThrust")
      (Z.of_nat (length (fullProblemResultForEachLeg_ s))) st0 done =
      (logDone, Done stk) /\
    arcBody T parameters (bodyMapForPropagation_ s) (getOutputPath T "HighThrust")
      (Z.of_nat (length (fullProblemResultForEachLeg_ s))) stk entry =
      (tail, Raised e) /\
    l2 = logDone ++ tail.
Proof.
  intros Hdesign Hsetup Hloop. split_and!.
  - unfold pipeline. rewrite Hdesign, bind_Done_l, Hsetup, bind_Done_l, Hloop.
    rewrite bind_Raised_l, !prefixed_pair. done.
  - intros data name path Hin.
    apply designTransfer_Done in Hdesign as (_ & _ & _ & _ & _ & _ & ->).
    apply propagateFullProblem_log in Hsetup as [c ->].
    apply elem_of_cons in Hin as [Hin|Hin]; [discriminate|].
    apply elem_of_cons in Hin as [Hin|Hin]; [discriminate|].
    destruct (repropagateArcs_log T parameters (getOutputPath T "HighThrust") integ s)
      as [Hnil|[st Hlog]]; unfold Run.log in *; rewrite Hloop in *; simpl in *.
    + subst l2. by apply elem_of_nil in Hin.
    + rewrite Hlog in Hin. by eapply arcLoop_writes.
  - apply designTransfer_parameters in Hdesign.
    unfold repropagateArcs in Hloop.
    destruct (at_in_range parameters 0) as [p0 Hp0]; [lia|].
    destruct (at_in_range parameters 1) as [p1 Hp1]; [lia|].
    rewrite Hp0, Hp1 in Hloop. unfold Run.lift in Hloop.
    rewrite !bind_Done_l, !prefixed_nil in Hloop.
    apply arcLoop_Raised in Hloop
      as (done & entry & rest & stk & logDone & tail & Hres & Hdone & Hfail & ->).
    eauto 12.
Qed.

Lemma leg_failure_ends_the_run_witness :
  exists e,
    Run.result (pipeline Toy.firstArcFails Toy.clock trajectoryParameters
                  integratorSettings) = Raised e.
Proof.
  assert (exists l0 d l1 s l2 e,
            designTransfer Toy.firstArcFails trajectoryParameters = (l0, Done d) /\
            propagateFullProblem Toy.firstArcFails Toy.clock integratorSettings d =
              (l1, Done s) /\
            repropagateArcs Toy.firstArcFails trajectoryParameters
              (getOutputPath Toy.firstArcFails "HighThrust") integratorSettings s =
              (l2, Raised e))
    as (l0 & d & l1 & s & l2 & e & Hdesign & Hsetup & Hloop).
  { eexists _, _, _, _, _, _. split; [reflexivity|]. split; reflexivity. }
  exists e.
  destruct (leg_failure_ends_the_run Toy.firstArcFails Toy.clock trajectoryParameters
              integratorSettings l0 l1 l2 d s e Hdesign Hsetup Hloop) as [Hrun _].
  rewrite Hrun. reflexivity.
Defined.

(** C8 with failures confined to their arc does not hold: on a library
    whose propagation yields two arcs, the first with a history that does
    not cover its middle epoch, the interpolation for the first arc throws,
    [main] ends with that exception, and the second arc, whose own
    interpolation would succeed, is neither reconciled nor are its tables
    written. *)
Lemma leg_failure_not_isolated :
  exists e,
    Run.result (main Toy.firstArcFails Toy.clock) = Raised e /\
    (exists seed,
       lagrangeInterpolate Toy.firstArcFails Toy.propagatedHistory 8
         (legMiddleEpoch trajectoryParameters 1) = Done seed) /\
    ~ legEmitted (Run.log (main Toy.firstArcFails Toy.clock)) 1.
Proof.
  assert (exists a b t e,
            main Toy.firstArcFails Toy.clock =
            ([Cout a; Cout b; Interpolation Toy.shortHistory 8 t], Raised e))
    as (a & b & t & e & Hrun).
  { eexists _, _, _, _. reflexivity. }
  exists e. rewrite Hrun. split; [reflexivity|]. split.
  - eexists. reflexivity.
  - intros ((data & path & Hin) & _). simpl in Hin.
    repeat (apply elem_of_cons in Hin as [Hin|Hin]; [discriminate|]).
    by apply elem_of_nil in Hin.
Qed.

(** ** Two runs *)

Lemma withoutRunTime_app {T : Tudat} (l1 l2 : list (Event T)) :
  withoutRunTime (l1 ++ l2) = withoutRunTime l1 ++ withoutRunTime l2.
Proof. apply List.filter_app. Qed.

Lemma prefixed_log {Ev A} (l : list Ev) (m : Run.M Ev A) :
  (Run.prefixed l m).1 = l ++ m.1.
Proof. by destruct m. Qed.

Lemma prefixed_result {Ev A} (l : list Ev) (m : Run.M Ev A) :
  (Run.prefixed l m).2 = m.2.
Proof. by destruct m. Qed.

(** The clock readings reach the log only through the run-time report. *)
Lemma propagateFullProblem_clock (T : Tudat) (clock1 clock2 : nat -> Q)
    (integ : IntegratorSettings) (d : TransferDesign T) :
  (propagateFullProblem T clock1 integ d).2 = (propagateFullProblem T clock2 integ d).2 /\
  withoutRunTime (propagateFullProblem T clock1 integ d).1 =
  withoutRunTime (propagateFullProblem T clock2 integ d).1.
Proof.
  unfold propagateFullProblem. rewrite !bind_lift.
  destruct (match getAccelerationModelsPerturbedPatchedConicsTrajectory _ _ _ _ _ _ with
            | Some o => o
            | None => Raised std_out_of_range
            end) as [accelerationMap|]; [|done].
  rewrite !bind_lift.
  destruct (getPatchedConicPropagatorSettings T _ _ _ _ _ _ _ _ _ _ _ _ _)
    as [settings|]; [|done].
  rewrite !bind_lift.
  destruct (fullPropagationPatchedConicsTrajectory T _ _ _ _ _ _ _ _ _ _)
    as [results|]; [|done].
  done.
Qed.

(** C9.  Two runs of the pipeline on the same parameter vector and the
    same integrator settings, with the same library and whatever the clock
    shows in either run, end in the same way and with the same values in
    the local variables that hold the results (the trajectory with its
    total and capture velocity changes and its maneuvers, the analytic and
    the propagated histories), and they log the same events in the same
    order, the report of the wall-clock duration excepted. *)
Theorem two_runs_agree (T : Tudat) (clock1 clock2 : nat -> Q) (parameters : list Q)
    (integ : IntegratorSettings) :
  Run.result (pipeline T clock1 parameters integ) =
  Run.result (pipeline T clock2 parameters integ) /\
  withoutRunTime (Run.log (pipeline T clock1 parameters integ)) =
  withoutRunTime (Run.log (pipeline T clock2 parameters integ)).
Proof.
  unfold pipeline, Run.result, Run.log.
  destruct (designTransfer T parameters) as [l0 [d|e]]; [|done].
  rewrite !bind_Done_l, !prefixed_result, !prefixed_log, !withoutRunTime_app.
  destruct (propagateFullProblem_clock T clock1 clock2 integ d) as [Hres Hlog].
  destruct (propagateFullProblem T clock1 integ d) as [l1 o1].
  destruct (propagateFullProblem T clock2 integ d) as [l2 o2].
  simpl in Hres, Hlog. subst o2. destruct o1 as [s|e].
  - rewrite !bind_Done_l, !prefixed_result, !prefixed_log, !withoutRunTime_app.
    by rewrite Hlog.
  - rewrite !bind_Raised_l. simpl. by rewrite Hlog.
Qed.

(** ** How many legs *)

Lemma pipeline_Done (T : Tudat) (clock : nat -> Q) (parameters : list Q)
    (integ : IntegratorSettings) (d : TransferDesign T) (s : PropagationSetup T)
    (st : ArcLoopState T) :
  Run.result (pipeline T clock parameters integ) = Done (d, s, st) ->
  exists l0 l1,
    designTransfer T parameters = (l0, Done d) /\
    propagateFullProblem T clock integ d = (l1, Done s).
Proof.
  intros H.
  assert (pipeline T clock parameters integ =
          (Run.log (pipeline T clock parameters integ), Done (d, s, st))) as Hrun.
  { rewrite <- H. apply surjective_pairing. }
  clear H. unfold pipeline in Hrun at 1.
  apply bind_Done_inv in Hrun as (l0 & d' & ? & Hdesign & Hrun & _).
  apply bind_Done_inv in Hrun as (l1 & s' & ? & Hsetup & Hrun & _).
  apply bind_Done_inv in Hrun as (l2 & st' & ? & _ & Hrun & _).
  apply bind_Done_inv in Hrun as (l3 & [] & ? & _ & Hrun & _).
  injection Hrun as _ <- <- <-. eauto.
Qed.

Lemma propagateFullProblem_Done (T : Tudat) (clock : nat -> Q)
    (integ : IntegratorSettings) (d : TransferDesign T) (l : list (Event T))
    (s : PropagationSetup T) :
  propagateFullProblem T clock integ d = (l, Done s) ->
  getAccelerationModelsPerturbedPatchedConicsTrajectory (createAccelerationModelsMap T)
    (inject_Z (Z.of_nat (length (transferLegTypes_ d)))) "Sun" "Spacecraft"
    (bodyMapForPatchedConic_ d) (transferBodyOrder_ d) = Some (Done (accelerationMap_ s)).
Proof.
  unfold propagateFullProblem. rewrite !bind_lift.
  destruct (getAccelerationModelsPerturbedPatchedConicsTrajectory _ _ _ _ _ _)
    as [[accelerationMap|]|]; [|done|done].
  rewrite !bind_lift.
  destruct (getPatchedConicPropagatorSettings T _ _ _ _ _ _ _ _ _ _ _ _ _)
    as [settings|]; [|done].
  rewrite !bind_lift.
  destruct (fullPropagationPatchedConicsTrajectory T _ _ _ _ _ _ _ _ _ _)
    as [results|]; [|done].
  intros H. apply bind_Done_inv in H as (? & [] & ? & _ & H & _).
  by injection H as _ <-.
Qed.

(** C5, with one entry per body.  In every completed run the body sequence
    has five entries, and the vector of leg types and the vector of
    acceleration maps have one entry per body, not one less: the leg types
    are departure, three swing-bys and capture.  What is one less than the
    number of bodies is the number of leg durations in the parameter vector
    of [main], four, between the start epoch and the case selector. *)
Theorem leg_vectors_have_one_entry_per_body (T : Tudat) (clock : nat -> Q)
    (parameters : list Q) (integ : IntegratorSettings)
    (d : TransferDesign T) (s : PropagationSetup T) (st : ArcLoopState T) :
  Run.result (pipeline T clock parameters integ) = Done (d, s, st) ->
  length (transferBodyOrder_ d) = 5%nat /\
  transferLegTypes_ d = [mga_Departure; mga_Swingby; mga_Swingby; mga_Swingby; capture] /\
  length (transferLegTypes_ d) = length (transferBodyOrder_ d) /\
  length (accelerationMap_ s) = length (transferBodyOrder_ d) /\
  (length (trajectoryParameters) - 2)%nat = (length (transferBodyOrder_ d) - 1)%nat.
Proof.
  intros H. apply pipeline_Done in H as (l0 & l1 & Hdesign & Hsetup).
  apply designTransfer_Done in Hdesign as (Htypes & (x & y & Horder) & _).
  apply propagateFullProblem_Done in Hsetup.
  rewrite Htypes, Horder in *. split_and!; try done.
  unfold getAccelerationModelsPerturbedPatchedConicsTrajectory in Hsetup.
  rewrite (accelerationLoop_spec _ _ _ _ _ 5) in Hsetup by (simpl; lia).
  injection Hsetup as <-. done.
Qed.

Lemma leg_vectors_have_one_entry_per_body_witness :
  exists d s st,
    Run.result (pipeline Toy.oneArc Toy.clock trajectoryParameters integratorSettings) =
      Done (d, s, st) /\
    length (accelerationMap_ s) = length (transferBodyOrder_ d).
Proof.
  assert (exists d s st,
            Run.result (pipeline Toy.oneArc Toy.clock trajectoryParameters
                          integratorSettings) = Done (d, s, st))
    as (d & s & st & Hrun).
  { eexists _, _, _. reflexivity. }
  exists d, s, st. split; [exact Hrun|].
  destruct (leg_vectors_have_one_entry_per_body Toy.oneArc Toy.clock
              trajectoryParameters integratorSettings d s st Hrun)
    as (_ & _ & _ & Hmaps & _).
  exact Hmaps.
Defined.

(** C5 with one entry less than there are bodies does not hold: in a
    completed run of [main] the vector of leg types does not have one entry
    less than the body sequence, it is not departure, two swing-bys and
    capture, and the vector of acceleration maps does not have one entry
    less than the body sequence either. *)
Lemma legs_are_not_bodies_minus_one :
  exists d s st,
    Run.result (pipeline Toy.oneArc Toy.clock trajectoryParameters integratorSettings) =
      Done (d, s, st) /\
    length (transferLegTypes_ d) <> (length (transferBodyOrder_ d) - 1)%nat /\
    transferLegTypes_ d <> [mga_Departure; mga_Swingby; mga_Swingby; capture] /\
    length (accelerationMap_ s) <> (length (transferBodyOrder_ d) - 1)%nat.
Proof.
  assert (exists d s st,
            Run.result (pipeline Toy.oneArc Toy.clock trajectoryParameters
                          integratorSettings) = Done (d, s, st) /\
            transferLegTypes_ d =
              [mga_Departure; mga_Swingby; mga_Swingby; mga_Swingby; capture] /\
            length (transferBodyOrder_ d) = 5%nat /\
            length (accelerationMap_ s) = 5%nat)
    as (d & s & st & Hrun & Htypes & Horder & Hmaps).
  { eexists _, _, _. split_and!; reflexivity. }
  exists d, s, st. rewrite Htypes, Horder, Hmaps. split_and!; [done|simpl; lia|done|lia].
Qed.

(** * Further properties of the code *)

(** ** The builder for any leg count *)

Lemma Qlt_inject_Z_ceiling (i : Z) (q : Q) : (inject_Z i < q)%Q <-> i < Qceiling q.
Proof.
  split.
  - intros Hlt. destruct (Z_lt_le_dec i (Qceiling q)) as [|Hge]; [done|].
    exfalso. pose proof (Qle_ceiling q) as Hq.
    assert (inject_Z (Qceiling q) <= inject_Z i)%Q as Hle by (unfold Qle; simpl; lia).
    lra.
  - intros Hlt. pose proof (Qceiling_lt q) as Hq.
    assert (inject_Z i <= inject_Z (Qceiling q - 1))%Q as Hle by (unfold Qle; simpl; lia).
    lra.
Qed.

Lemma Qceiling_pos (q : Q) : (0 < q)%Q <-> 0 < Qceiling q.
Proof. apply (Qlt_inject_Z_ceiling 0 q). Qed.

Lemma bodiesRead_cases (q : Q) :
  ((q <= 0)%Q /\ bodiesRead q = 0) \/
  ((0 < q)%Q /\ (q == inject_Z (Qceiling q))%Q /\ bodiesRead q = Qceiling q) \/
  ((0 < q)%Q /\ ~ (q == inject_Z (Qceiling q))%Q /\ bodiesRead q = Qceiling q + 1).
Proof.
  unfold bodiesRead. destruct (Qle_bool q 0) eqn:H0.
  - left. by apply Qle_bool_iff in H0.
  - right. assert (0 < q)%Q as Hpos.
    { apply Qnot_le_lt. intros H. apply Qle_bool_iff in H. congruence. }
    destruct (Qeq_bool q (inject_Z (Qceiling q))) eqn:Hint.
    + left. by apply Qeq_bool_iff in Hint.
    + right. split_and!; try done. intros H. apply Qeq_bool_iff in H. congruence.
Qed.

(** The test of line 49 holds for [i] when the leg count is the whole
    number [i + 1]. *)
Lemma last_pass_test (i : Z) (q : Q) :
  Qeq_bool (inject_Z i) (q - 1) = true <->
  (q == inject_Z (Qceiling q))%Q /\ i = Qceiling q - 1.
Proof.
  rewrite Qeq_bool_iff. split.
  - intros H. assert (q == inject_Z (i + 1))%Q as Hq.
    { rewrite inject_Z_plus. change (inject_Z 1) with 1%Q. lra. }
    rewrite (Qceiling_comp _ _ Hq), Qceiling_Z. split; [done|lia].
  - intros [Hq ->]. transitivity (inject_Z (Qceiling q) - 1)%Q.
    + unfold Qeq. simpl. lia.
    + by rewrite <- Hq.
Qed.

Section BuilderAnyCount.
Context {NamedBodyMap AccelerationMap : Type}.
Variable create :
  NamedBodyMap -> SelectedAccelerationMap -> list string -> list string ->
  AccelerationMap.
Variable numberOfLegs : Q.
Variable nameCentralBody nameBodyToPropagate : string.
Variable bodyMap : NamedBodyMap.
Variable transferBodyOrder : list string.

Local Abbreviation legOf :=
  (accelerationSettingsMapOfLeg numberOfLegs nameCentralBody nameBodyToPropagate
     transferBodyOrder).
Local Abbreviation bodyCount := (Z.of_nat (length transferBodyOrder)).

Lemma accelerationSettingsMapOfLeg_returns (i : Z) :
  0 <= i < bodyCount ->
  Qeq_bool (inject_Z i) (numberOfLegs - 1) = true \/ i + 1 < bodyCount ->
  exists m, legOf i = Done m.
Proof.
  intros Hi Hnext. unfold accelerationSettingsMapOfLeg.
  destruct (at_in_range transferBodyOrder i) as [bi ->]; [lia|].
  destruct (Qeq_bool (inject_Z i) (numberOfLegs - 1)) eqn:Hlast; simpl; [by eexists|].
  destruct Hnext as [|Hnext]; [done|].
  destruct (at_in_range transferBodyOrder (i + 1)) as [bn ->]; [lia|].
  destruct (negb (String.eqb bi bn)); by eexists.
Qed.

Lemma accelerationSettingsMapOfLeg_throws (i : Z) :
  bodyCount <= i \/
  (Qeq_bool (inject_Z i) (numberOfLegs - 1) = false /\ bodyCount <= i + 1) ->
  legOf i = Raised std_out_of_range.
Proof.
  intros H. unfold accelerationSettingsMapOfLeg.
  destruct (at_ transferBodyOrder i) as [bi|e] eqn:Hbi.
  - destruct H as [H|[Hlast H]].
    { apply at_Done in Hbi as [_ Hbi]. apply lookup_lt_Some in Hbi. lia. }
    rewrite Hlast. simpl. by rewrite at_out_of_range by lia.
  - unfold at_ in Hbi.
    destruct ((0 <=? i) && (i <? bodyCount)); [|congruence].
    destruct (transferBodyOrder !! Z.to_nat i); congruence.
Qed.

Lemma accelerationLoop_returns (fuel : nat) (i : Z) (acc : list AccelerationMap) :
  bodiesRead numberOfLegs <= bodyCount ->
  0 <= i ->
  Z.max 0 (Qceiling numberOfLegs - i) < Z.of_nat fuel ->
  accelerationLoop create numberOfLegs nameCentralBody nameBodyToPropagate
    bodyMap transferBodyOrder fuel i acc =
  Some (Done (acc ++
    map (fun j => create bodyMap
                    (legSettings numberOfLegs nameCentralBody nameBodyToPropagate
                       transferBodyOrder j)
                    [nameBodyToPropagate] [nameCentralBody])
        (seqZ i (Qceiling numberOfLegs - i)))) /\
  forall j, i <= j < Qceiling numberOfLegs -> exists m, legOf j = Done m.
Proof.
  intros Hread. revert i acc.
  induction fuel as [|fuel IH]; intros i acc Hi Hfuel; [lia|].
  simpl. destruct (Qlt_le_dec (inject_Z i) numberOfLegs) as [Hlt|Hge].
  - pose proof (proj1 (Qlt_inject_Z_ceiling _ _) Hlt) as Hlt'.
    destruct (accelerationSettingsMapOfLeg_returns i) as [m Hm].
    { destruct (bodiesRead_cases numberOfLegs) as [[H0 _]|[(_ & _ & H)|(_ & _ & H)]];
        [|lia|lia].
      assert (0 <= inject_Z i)%Q by (unfold Qle; simpl; lia). lra. }
    { destruct (Qeq_bool (inject_Z i) (numberOfLegs - 1)) eqn:Hlast; [by left|right].
      destruct (bodiesRead_cases numberOfLegs) as [[H0 _]|[(_ & Hint & H)|(_ & _ & H)]];
        [|rewrite H in Hread|lia].
      - assert (0 <= inject_Z i)%Q by (unfold Qle; simpl; lia). lra.
      - destruct (decide (i = Qceiling numberOfLegs - 1)) as [Heq|]; [|lia].
        assert (Qeq_bool (inject_Z i) (numberOfLegs - 1) = true)
          by by apply last_pass_test.
        congruence. }
    rewrite Hm.
    destruct (IH (i + 1) (acc ++ [create bodyMap m [nameBodyToPropagate]
                                    [nameCentralBody]]))
      as (-> & Hall); [lia|lia|].
    split.
    + assert (seqZ i (Qceiling numberOfLegs - i) =
              i :: seqZ (i + 1) (Qceiling numberOfLegs - (i + 1))) as ->.
      { rewrite seqZ_cons by lia. do 2 f_equal; lia. }
      simpl. unfold legSettings at 2. by rewrite Hm, <- app_assoc.
    + intros j Hj. destruct (decide (j = i)) as [->|]; [by eexists|]. apply Hall. lia.
  - assert (Qceiling numberOfLegs <= i) as Hdone.
    { destruct (Z_lt_le_dec i (Qceiling numberOfLegs)) as [Hlt|]; [|done].
      apply Qlt_inject_Z_ceiling in Hlt. lra. }
    split; [|intros j Hj; lia].
    rewrite (seqZ_nil i) by lia. by rewrite app_nil_r.
Qed.

Lemma accelerationLoop_throws (fuel : nat) (i : Z) (acc : list AccelerationMap) :
  bodyCount < bodiesRead numberOfLegs ->
  0 <= i <= bodyCount ->
  i < Qceiling numberOfLegs ->
  bodyCount - i < Z.of_nat fuel ->
  accelerationLoop create numberOfLegs nameCentralBody nameBodyToPropagate
    bodyMap transferBodyOrder fuel i acc = Some (Raised std_out_of_range).
Proof.
  intros Hread. revert i acc.
  induction fuel as [|fuel IH]; intros i acc Hi Hpass Hfuel; [lia|].
  simpl. destruct (Qlt_le_dec (inject_Z i) numberOfLegs) as [Hlt|Hge].
  2: { apply Qlt_inject_Z_ceiling in Hpass. lra. }
  assert (Qeq_bool (inject_Z i) (numberOfLegs - 1) = true -> bodyCount <= i) as Hlast.
  { intros [Hint ->]%last_pass_test.
    destruct (bodiesRead_cases numberOfLegs) as [[_ H]|[(_ & _ & H)|(_ & Hfrac & _)]];
      [lia|lia|done]. }
  destruct (decide (i + 1 < bodyCount)) as [Hnext|Hnext].
  - destruct (accelerationSettingsMapOfLeg_returns i) as [m ->]; [lia|by right|].
    apply IH; [lia| |lia].
    destruct (bodiesRead_cases numberOfLegs) as [[_ H]|[(_ & _ & H)|(_ & _ & H)]]; lia.
  - rewrite accelerationSettingsMapOfLeg_throws; [done|].
    destruct (Qeq_bool (inject_Z i) (numberOfLegs - 1)); [left; auto|right; split; [done|lia]].
Qed.
End BuilderAnyCount.

(** X1.  For any leg count, whole or fractional, for which the body
    sequence has the entries the loop reads, the builder returns one
    acceleration map per pass, the [i]-th created from the settings that
    pass [i] assembles, for the propagated body about the central body.
    The number of passes is the leg count rounded up, and none for a leg
    count that is not positive. *)
Theorem builder_returns_one_map_per_pass {NamedBodyMap AccelerationMap : Type}
    (create : NamedBodyMap -> SelectedAccelerationMap -> list string -> list string ->
              AccelerationMap)
    (numberOfLegs : Q) (nameCentralBody nameBodyToPropagate : string)
    (bodyMap : NamedBodyMap) (transferBodyOrder : list string) :
  bodiesRead numberOfLegs <= Z.of_nat (length transferBodyOrder) ->
  exists maps : list AccelerationMap,
    getAccelerationModelsPerturbedPatchedConicsTrajectory create numberOfLegs
      nameCentralBody nameBodyToPropagate bodyMap transferBodyOrder =
    Some (Done maps) /\
    length maps = Z.to_nat (Qceiling numberOfLegs) /\
    forall i : Z, 0 <= i < Qceiling numberOfLegs ->
      exists m,
        accelerationSettingsMapOfLeg numberOfLegs nameCentralBody nameBodyToPropagate
          transferBodyOrder i = Done m /\
        maps !! Z.to_nat i =
          Some (create bodyMap m [nameBodyToPropagate] [nameCentralBody]).
Proof.
  intros Hread.
  assert (Qceiling numberOfLegs <= Z.of_nat (length transferBodyOrder)) as Hlen.
  { destruct (bodiesRead_cases numberOfLegs) as [[H0 _]|[(_ & _ & H)|(_ & _ & H)]];
      [|lia|lia].
    destruct (Z_lt_le_dec 0 (Qceiling numberOfLegs)) as [Hpos|]; [|lia].
    apply Qceiling_pos in Hpos. lra. }
  destruct (accelerationLoop_returns create numberOfLegs nameCentralBody
              nameBodyToPropagate bodyMap transferBodyOrder
              (S (length transferBodyOrder)) 0 []) as [Hrun Hall]; [done|lia|lia|].
  eexists. split; [exact Hrun|]. rewrite Z.sub_0_r. split.
  - by rewrite length_app, length_map, length_seqZ.
  - intros i Hi. destruct (Hall i) as [m Hm]; [lia|]. exists m. split; [done|].
    simpl. rewrite list_lookup_fmap, lookup_seqZ_lt by lia. simpl.
    unfold legSettings. by rewrite Z.add_0_l, Z2Nat.id, Hm by lia.
Qed.

Lemma builder_returns_one_map_per_pass_witness :
  bodiesRead (5 # 2) <= Z.of_nat (length ["Earth"; "Venus"; "Mars"; "Jupiter"]) /\
  exists maps : list SelectedAccelerationMap,
    getAccelerationModelsPerturbedPatchedConicsTrajectory
      (fun (_ : unit) m _ _ => m) (5 # 2) "Sun" "Spacecraft" tt
      ["Earth"; "Venus"; "Mars"; "Jupiter"] = Some (Done maps) /\
    length maps = 3%nat.
Proof.
  assert (bodiesRead (5 # 2) <= Z.of_nat (length ["Earth"; "Venus"; "Mars"; "Jupiter"]))
    as Hread by (vm_compute; discriminate).
  split; [exact Hread|].
  destruct (builder_returns_one_map_per_pass (fun (_ : unit) m _ _ => m) (5 # 2)
              "Sun" "Spacecraft" tt ["Earth"; "Venus"; "Mars"; "Jupiter"] Hread)
    as (maps & Hrun & Hlen & _).
  exists maps. split; [exact Hrun|exact Hlen].
Defined.

(** A leg count greater than the number of bodies makes the loop read
    past the end of the body sequence. *)
Lemma bodiesRead_more_legs_than_bodies (numberOfLegs : Q) (n : Z) :
  0 <= n -> (inject_Z n < numberOfLegs)%Q -> n < bodiesRead numberOfLegs.
Proof.
  intros Hn Hlt. pose proof (proj1 (Qlt_inject_Z_ceiling _ _) Hlt) as Hc.
  destruct (bodiesRead_cases numberOfLegs) as [[H0 _]|[(_ & _ & H)|(_ & _ & H)]];
    [|lia|lia].
  assert (0 <= inject_Z n)%Q by (unfold Qle; simpl; lia). lra.
Qed.

(** X2.  When the body sequence has fewer entries than the loop reads for
    the leg count, the builder throws [std::out_of_range] and returns no
    acceleration map, however many passes it completed before.  The loop
    reads one entry per pass, and one more unless the leg count is a whole
    number; so the builder throws for every leg count greater than the
    number of bodies, and for a fractional one already when it exceeds the
    number of bodies less one. *)
Theorem builder_throws_out_of_range {NamedBodyMap AccelerationMap : Type}
    (create : NamedBodyMap -> SelectedAccelerationMap -> list string -> list string ->
              AccelerationMap)
    (numberOfLegs : Q) (nameCentralBody nameBodyToPropagate : string)
    (bodyMap : NamedBodyMap) (transferBodyOrder : list string) :
  Z.of_nat (length transferBodyOrder) < bodiesRead numberOfLegs ->
  getAccelerationModelsPerturbedPatchedConicsTrajectory create numberOfLegs
    nameCentralBody nameBodyToPropagate bodyMap transferBodyOrder =
  Some (Raised std_out_of_range).
Proof.
  intros Hread. apply accelerationLoop_throws; [done|lia| |lia].
  destruct (bodiesRead_cases numberOfLegs) as [[_ H]|[(_ & _ & H)|(Hpos & _ & _)]];
    [lia|lia|].
  by apply Qceiling_pos.
Qed.

Lemma builder_throws_out_of_range_witness :
  Z.of_nat (length ["Earth"; "Jupiter"]) < bodiesRead 3 /\
  getAccelerationModelsPerturbedPatchedConicsTrajectory
    (fun (_ : unit) (m : SelectedAccelerationMap) _ _ => m) 3 "Sun" "Spacecraft" tt
    ["Earth"; "Jupiter"] = Some (Raised std_out_of_range).
Proof.
  assert (Z.of_nat (length ["Earth"; "Jupiter"]) < bodiesRead 3) as Hread
    by (vm_compute; reflexivity).
  split; [exact Hread|].
  exact (builder_throws_out_of_range (fun (_ : unit) (m : SelectedAccelerationMap) _ _ => m)
           3 "Sun" "Spacecraft" tt ["Earth"; "Jupiter"] Hread).
Defined.

(** ** The list of relevant bodies (lines 206-215) *)

Section RelevantBodies.
Implicit Types (order acc l : list string) (b x : string).

Local Abbreviation collect :=
  (fold_left (fun bodyList b => if bool_decide (b ∈ bodyList) then bodyList
                                else bodyList ++ [b])).

(** What the loop of lines 207-214 appends to a duplicate-free list. *)
Lemma collect_spec order acc :
  exists l,
    collect order acc = acc ++ l /\
    NoDup l /\
    (forall x, x ∈ l <-> x ∈ order /\ x ∉ acc) /\
    (forall pre b post,
       order = pre ++ b :: post -> b ∉ pre -> b ∉ acc ->
       exists l1 l2, l = l1 ++ b :: l2 /\ forall x, x ∈ l1 <-> x ∈ pre /\ x ∉ acc) /\
    (NoDup order -> (forall x, x ∈ order -> x ∉ acc) -> l = order).
Proof.
  revert acc. induction order as [|a rest IH]; intros acc.
  { exists []. split_and!.
    - by rewrite app_nil_r.
    - constructor.
    - intros x. rewrite elem_of_nil. tauto.
    - intros [|??] ???; discriminate.
    - done. }
  simpl. case_bool_decide as Ha.
  - destruct (IH acc) as (l & -> & Hnd & Hin & Hfirst & Hsame).
    exists l. split_and!; try done.
    + intros x. rewrite Hin, elem_of_cons. split; [tauto|].
      intros [[->|Hx] Hacc]; tauto.
    + intros pre b post Horder Hpre Hacc. destruct pre as [|a' pre'].
      { injection Horder as -> _. done. }
      injection Horder as <- ->.
      destruct (Hfirst pre' b post eq_refl) as (l1 & l2 & -> & Hl1);
        [by intros ?; apply Hpre; right|done|].
      exists l1, l2. split; [done|]. intros x. rewrite Hl1, elem_of_cons. split; [tauto|].
      intros [[->|Hx] Hx']; tauto.
    + intros _ Hdisj. exfalso. apply (Hdisj a); [by left|done].
  - destruct (IH (acc ++ [a])) as (l & -> & Hnd & Hin & Hfirst & Hsame).
    exists (a :: l). split_and!.
    + by rewrite <- app_assoc.
    + constructor; [|done]. rewrite Hin, elem_of_app, list_elem_of_singleton. tauto.
    + intros x. rewrite !elem_of_cons, Hin, elem_of_app, list_elem_of_singleton.
      destruct (decide (x = a)) as [->|]; tauto.
    + intros pre b post Horder Hpre Hacc. destruct pre as [|a' pre'].
      { injection Horder as -> _. exists [], l. split; [done|].
        intros x. rewrite elem_of_nil. tauto. }
      injection Horder as <- ->.
      assert (b <> a) as Hne by (intros ->; apply Hpre; by left).
      destruct (Hfirst pre' b post eq_refl) as (l1 & l2 & -> & Hl1).
      { intros ?. apply Hpre. by right. }
      { rewrite elem_of_app, list_elem_of_singleton. tauto. }
      exists (a :: l1), l2. split; [done|].
      intros x. rewrite !elem_of_cons, Hl1, elem_of_app, list_elem_of_singleton.
      destruct (decide (x = a)) as [->|]; tauto.
    + intros Hnodup Hdisj. apply NoDup_cons in Hnodup as [Ha' Hnodup]. f_equal.
      apply Hsame; [done|].
      intros x Hx. rewrite elem_of_app, list_elem_of_singleton.
      intros [Hacc| ->]; [|done]. apply (Hdisj x); [by right|done].
Qed.
End RelevantBodies.

Lemma relevantBodies_elem_of (transferBodyOrder : list string) (b : string) :
  b ∈ relevantBodies transferBodyOrder <-> b ∈ transferBodyOrder \/ b = "Sun".
Proof.
  unfold relevantBodies.
  destruct (collect_spec transferBodyOrder []) as (l & -> & _ & Hin & _).
  simpl. rewrite elem_of_app, Hin, list_elem_of_singleton.
  pose proof (not_elem_of_nil b). tauto.
Qed.

(** X3.  The list of relevant bodies is the bodies of the sequence followed
    by the Sun: every body of the sequence is listed once, however often it
    is visited, in the order in which the bodies are first visited (a body
    is preceded by exactly the bodies visited before its first visit); a
    sequence without repetition is kept as it is.  The Sun is appended
    whether or not the sequence contains it, so the list is free of
    duplicates exactly when the sequence does not contain the Sun. *)
Theorem relevant_bodies_each_once_then_sun (transferBodyOrder : list string) :
  exists bodies,
    relevantBodies transferBodyOrder = bodies ++ ["Sun"] /\
    NoDup bodies /\
    (forall b, b ∈ bodies <-> b ∈ transferBodyOrder) /\
    (forall visited b later,
       transferBodyOrder = visited ++ b :: later -> b ∉ visited ->
       exists before after,
         bodies = before ++ b :: after /\ forall x, x ∈ before <-> x ∈ visited) /\
    (NoDup transferBodyOrder -> bodies = transferBodyOrder) /\
    (NoDup (relevantBodies transferBodyOrder) <-> "Sun" ∉ transferBodyOrder).
Proof.
  unfold relevantBodies.
  destruct (collect_spec transferBodyOrder []) as (l & -> & Hnd & Hin & Hfirst & Hsame).
  exists l. simpl. split_and!; try done.
  - intros b. rewrite Hin, elem_of_nil. tauto.
  - intros pre b post Horder Hpre.
    destruct (Hfirst pre b post Horder Hpre) as (l1 & l2 & -> & Hl1).
    { apply not_elem_of_nil. }
    exists l1, l2. split; [done|]. intros x. rewrite Hl1, elem_of_nil. tauto.
  - intros Hnodup. apply Hsame; [done|]. intros x _. apply not_elem_of_nil.
  - rewrite NoDup_app. split.
    + intros (_ & Hdisj & _) Hsun. apply (Hdisj "Sun").
      * apply Hin. split; [done|apply not_elem_of_nil].
      * by left.
    + intros Hsun. split_and!; [done| |apply NoDup_singleton].
      intros x Hx ->%list_elem_of_singleton. apply Hin in Hx. tauto.
Qed.

Lemma relevant_bodies_each_once_then_sun_witness :
  exists bodies,
    relevantBodies ["Earth"; "Venus"; "Venus"; "Earth"; "Jupiter"] = bodies ++ ["Sun"] /\
    NoDup bodies /\
    NoDup (relevantBodies ["Earth"; "Venus"; "Venus"; "Earth"; "Jupiter"]).
Proof.
  destruct (relevant_bodies_each_once_then_sun
              ["Earth"; "Venus"; "Venus"; "Earth"; "Jupiter"])
    as (bodies & Hlist & Hnodup & _ & _ & _ & Hsun).
  exists bodies. split; [exact Hlist|]. split; [exact Hnodup|].
  apply Hsun. rewrite !elem_of_cons, elem_of_nil. intuition discriminate.
Defined.

(** ** The transfer case and the inputs of the design (lines 116-165) *)

(** Conversion to [int] truncates towards zero. *)
Lemma double_to_int_bounds (d : Q) :
  ((0 <= d)%Q -> (inject_Z (double_to_int d) <= d < inject_Z (double_to_int d) + 1)%Q) /\
  ((d <= 0)%Q -> (inject_Z (double_to_int d) - 1 < d <= inject_Z (double_to_int d))%Q).
Proof.
  destruct d as [n p]. unfold double_to_int. simpl.
  pose proof (Z.quot_rem' n (Z.pos p)) as Hqr.
  unfold Qle, Qlt, Qplus, Qminus, Qopp, inject_Z. simpl.
  split; intros Hsign.
  - pose proof (Z.rem_bound_pos n (Z.pos p)). nia.
  - pose proof (Z.rem_bound_pos_neg n (Z.pos p)). nia.
Qed.

Lemma designTransfer_inputs (T : Tudat) (parameters : list Q) (log : list (Event T))
    (d : TransferDesign T) :
  designTransfer T parameters = (log, Done d) ->
  exists p5 x y bodyMap0,
    at_ parameters 5 = Done p5 /\
    at_ transferCaseNames (double_to_int p5) = Done (x, y) /\
    transferBodyOrder_ d = ["Earth"; "Venus"; x; y; "Jupiter"] /\
    setupBodyMapFromEphemeridesForPatchedConicsTrajectory T "Sun" "Spacecraft"
      (transferBodyOrder_ d) = Done bodyMap0 /\
    setGlobalFrameBodyEphemerides T
      (addBodyWithConstantMass T bodyMap0 "Spacecraft" 400) "SSB" "ECLIPJ2000" =
      Done (bodyMapForPatchedConic_ d) /\
    trajectoryIndependentVariables_ d =
      map (fun p => Some (p * JULIAN_DAY T)%Q)
          (take (length parameters - 1) parameters) ++ [None] /\
    getDefaultMinimumPericenterRadii T (transferBodyOrder_ d) =
      Done (minimumPericenterRadii_ d) /\
    departureCaptureSemiMajorAxes_ d = [None; Some (1.0895e8 / 0.02)%Q] /\
    departureCaptureEccentricities_ d = [None; Some 0.98%Q].
Proof.
  unfold designTransfer. intros H. run_inv H.
  match goal with
  | H : context [Trajectory.maneuvers ?tr] |- _ =>
    destruct (Trajectory.maneuvers tr) as [[ps ts] dvs] eqn:Hman; run_inv H
  end.
  simpl.
  match goal with
  | H : at_ transferCaseNames _ = Done ?c |- _ => destruct c as [x y]
  end.
  eauto 16.
Qed.

(** The entries of the two tables of transfer cases. *)
Lemma transferCaseNames_lookup (c : nat) (x y : string) :
  transferCaseNames !! c = Some (x, y) ->
  x ∈ ["Earth"; "Venus"; "Mars"] /\ y ∈ ["Earth"; "Venus"; "Mars"] /\
  transferCases !! c = Some (initials ["Earth"; "Venus"; x; y; "Jupiter"]).
Proof.
  intros H. do 7 (destruct c as [|c]; [injection H as <- <-; split_and!;
    [rewrite !elem_of_cons; tauto|rewrite !elem_of_cons; tauto|reflexivity]|]).
  discriminate.
Qed.

(** X4.  A completed design has read the transfer case from entry 5 of the
    parameter vector, truncated towards zero: the entry lies strictly
    between -1 and 7, and the body sequence is Earth, Venus, the two bodies
    that the table of case names holds for the truncated value, Jupiter.
    The two bodies are among Earth, Venus and Mars, and the initials of the
    sequence spell the label that the table of cases holds for the same
    value. *)
Theorem transfer_case_selects_the_bodies (T : Tudat) (parameters : list Q)
    (log : list (Event T)) (d : TransferDesign T) :
  designTransfer T parameters = (log, Done d) ->
  exists (p5 : Q) (x y : string),
    parameters !! 5%nat = Some p5 /\
    (-1 < p5 < 7)%Q /\
    transferCaseNames !! Z.to_nat (double_to_int p5) = Some (x, y) /\
    transferBodyOrder_ d = ["Earth"; "Venus"; x; y; "Jupiter"] /\
    x ∈ ["Earth"; "Venus"; "Mars"] /\
    y ∈ ["Earth"; "Venus"; "Mars"] /\
    transferCases !! Z.to_nat (double_to_int p5) = Some (initials (transferBodyOrder_ d)).
Proof.
  intros H.
  apply designTransfer_inputs in H as (p5 & x & y & _ & Hp5 & Hcase & Horder & _).
  apply at_Done in Hp5 as [_ Hp5]. apply at_Done in Hcase as [Hc0 Hcase].
  pose proof (lookup_lt_Some _ _ _ Hcase) as Hc7. simpl in Hc7.
  destruct (transferCaseNames_lookup _ _ _ Hcase) as (Hx & Hy & Hlabel).
  exists p5, x, y. rewrite Horder. split_and!; try done.
  - destruct (double_to_int_bounds p5) as [Hpos Hneg].
    destruct (Qlt_le_dec p5 0) as [Hlt|Hge].
    + destruct Hneg as [Hlo _]; [lra|].
      assert (0 <= inject_Z (double_to_int p5))%Q by (unfold Qle; simpl; lia). lra.
    + lra.
  - destruct (double_to_int_bounds p5) as [Hpos Hneg].
    destruct (Qlt_le_dec p5 0) as [Hlt|Hge]; [lra|].
    destruct Hpos as [_ Hhi]; [done|].
    assert (inject_Z (double_to_int p5) <= 6)%Q by (unfold Qle; simpl; lia). lra.
Qed.

Lemma transfer_case_selects_the_bodies_witness :
  exists d,
    designTransfer (Toy.library ([], [], [])) [0; 1; 1; 1; 1; 7 # 2]%Q =
      (Run.log (designTransfer (Toy.library ([], [], [])) [0; 1; 1; 1; 1; 7 # 2]%Q),
       Done d) /\
    transferBodyOrder_ d = ["Earth"; "Venus"; "Venus"; "Mars"; "Jupiter"] /\
    exists (p5 : Q), [0; 1; 1; 1; 1; 7 # 2]%Q !! 5%nat = Some p5 /\ (-1 < p5 < 7)%Q.
Proof.
  eexists. split; [reflexivity|]. split; [reflexivity|].
  destruct (transfer_case_selects_the_bodies (Toy.library ([], [], []))
              [0; 1; 1; 1; 1; 7 # 2]%Q _ _ eq_refl)
    as (p5 & x & y & Hp5 & Hrange & _).
  exists p5. split; [exact Hp5|exact Hrange].
Defined.

(** X5.  When the parameter vector has no entry 5, or when entry 5,
    truncated to an [int], is not an index of the table of case names
    (the entry is at most -1 or at least 7), the design phase, which starts
    once lines 101 and 103 (loading the kernels, asking for the output
    path) have returned, ends with [std::out_of_range] at its first or
    second [at], and so does the run: nothing has been printed, and no
    interpolation, no simulation and no file has been requested. *)
Theorem bad_transfer_case_ends_the_run (T : Tudat) (clock : nat -> Q)
    (parameters : list Q) (integ : IntegratorSettings) :
  parameters !! 5%nat = None \/
  (exists p5, parameters !! 5%nat = Some p5 /\
              - 2 ^ 31 <= double_to_int p5 < 2 ^ 31 /\
              ((p5 <= -1)%Q \/ (7 <= p5)%Q)) ->
  designTransfer T parameters = ([], Raised std_out_of_range) /\
  pipeline T clock parameters integ = ([], Raised std_out_of_range).
Proof.
  intros H.
  assert (designTransfer T parameters = ([], Raised std_out_of_range)) as Hdesign.
  { unfold designTransfer. rewrite bind_lift.
    destruct H as [Hnone|(p5 & Hp5 & _ & Hrange)].
    - rewrite at_out_of_range; [done|].
      apply lookup_ge_None in Hnone. lia.
    - assert (at_ parameters 5 = Done p5) as -> by (by apply at_Done).
      rewrite bind_lift, at_out_of_range; [done|]. simpl.
      destruct (double_to_int_bounds p5) as [Hpos Hneg].
      destruct Hrange as [Hlow|Hhigh].
      + destruct Hneg as [Hlo _]; [lra|].
        assert (inject_Z (double_to_int p5) < 0)%Q as Hlt by lra.
        unfold Qlt in Hlt. simpl in Hlt. lia.
      + destruct Hpos as [_ Hhi]; [lra|].
        assert (6 < inject_Z (double_to_int p5))%Q as Hlt by lra.
        unfold Qlt in Hlt. simpl in Hlt. lia. }
  split; [done|]. unfold pipeline. by rewrite Hdesign, bind_Raised_l.
Qed.

Lemma bad_transfer_case_ends_the_run_witness :
  pipeline Toy.oneArc Toy.clock [0; 1; 1; 1; 1; 7]%Q integratorSettings =
  ([], Raised std_out_of_range).
Proof.
  apply (bad_transfer_case_ends_the_run Toy.oneArc Toy.clock [0; 1; 1; 1; 1; 7]%Q
           integratorSettings).
  right. exists 7%Q. split; [reflexivity|]. split; [vm_compute; split; [discriminate|reflexivity]|].
  right. apply Qle_refl.
Defined.

(** X6.  In a completed design the vector of independent variables handed
    to the library has as many entries as the parameter vector: every entry
    but the last is the parameter multiplied by the length of the Julian
    day (days to seconds), and the last entry, the transfer case, is
    replaced by NaN. *)
Theorem independent_variables_in_seconds (T : Tudat) (parameters : list Q)
    (log : list (Event T)) (d : TransferDesign T) :
  designTransfer T parameters = (log, Done d) ->
  length (trajectoryIndependentVariables_ d) = length parameters /\
  last (trajectoryIndependentVariables_ d) = Some None /\
  (forall (i : nat) (p : Q),
     (i < length parameters - 1)%nat -> parameters !! i = Some p ->
     trajectoryIndependentVariables_ d !! i = Some (Some (p * JULIAN_DAY T)%Q)) /\
  Trajectory.createTransferTrajectoryObject T (bodyMapForPatchedConic_ d)
    (transferBodyOrder_ d) "Sun" (transferLegTypes_ d)
    (trajectoryIndependentVariables_ d) (minimumPericenterRadii_ d)
    false None None true (Some (1.0895e8 / 0.02)%Q) (Some 0.98%Q) =
  Done (trajectory_ d).
Proof.
  intros H. pose proof (designTransfer_parameters T _ _ _ H) as Hlen.
  pose proof (designTransfer_Done T _ _ _ H) as (_ & _ & Hcreate & _).
  apply designTransfer_inputs in H as (p5 & x & y & _ & _ & _ & _ & _ & _ & Hvars & _).
  rewrite Hvars in *. split_and!; [| | |done].
  - rewrite length_app, length_map, length_take. simpl. lia.
  - by rewrite last_snoc.
  - intros i p Hi Hp. rewrite lookup_app_l by (rewrite length_map, length_take; lia).
    by rewrite list_lookup_fmap, lookup_take_lt, Hp by lia.
Qed.

Lemma independent_variables_in_seconds_witness :
  exists d,
    designTransfer (Toy.library ([], [], [])) [0; 1; 2; 3; 4; 1]%Q =
      (Run.log (designTransfer (Toy.library ([], [], [])) [0; 1; 2; 3; 4; 1]%Q), Done d) /\
    length (trajectoryIndependentVariables_ d) = 6%nat /\
    last (trajectoryIndependentVariables_ d) = Some None.
Proof.
  eexists. split; [reflexivity|].
  destruct (independent_variables_in_seconds (Toy.library ([], [], []))
              [0; 1; 2; 3; 4; 1]%Q _ _ eq_refl) as (Hlen & Hlast & _).
  split; [exact Hlen|exact Hlast].
Defined.

(** ** The setup of the propagation (lines 192-269) *)

(** A completed setup, step by step. *)
Lemma propagateFullProblem_setup (T : Tudat) (clock : nat -> Q)
    (integ : IntegratorSettings) (d : TransferDesign T) (l : list (Event T))
    (s : PropagationSetup T) :
  propagateFullProblem T clock integ d = (l, Done s) ->
  bodyMapForPropagation_ s = bodyMapForPatchedConic_ d /\
  bodyList_ s = relevantBodies (transferBodyOrder_ d) /\
  dependentVariablesToSave_ s =
    replicate (length (transferBodyOrder_ d)) (map distanceTo (bodyList_ s)) /\
  getPatchedConicPropagatorSettings T (bodyMapForPropagation_ s) (accelerationMap_ s)
    (transferBodyOrder_ d) "Sun" "Spacecraft" (transferLegTypes_ d)
    (trajectoryIndependentVariables_ d) (minimumPericenterRadii_ d)
    (departureCaptureSemiMajorAxes_ d) (departureCaptureEccentricities_ d)
    (dependentVariablesToSave_ s) cowell true = Done (propagatorSettingsCreated_ s) /\
  fullPropagationPatchedConicsTrajectory T (bodyMapForPropagation_ s)
    (transferBodyOrder_ d) "Sun" (transferLegTypes_ d)
    (trajectoryIndependentVariables_ d) (minimumPericenterRadii_ d)
    (departureCaptureSemiMajorAxes_ d) (departureCaptureEccentricities_ d)
    (propagatorSettingsCreated_ s) integ =
    Done (lambertTargeterResultForEachLeg_ s, fullProblemResultForEachLeg_ s,
          dependentVariableResultForEachLeg_ s) /\
  l = [Cout [text "Operation took: "; number (Some (clock 1%nat - clock 0%nat)%Q);
             text " seconds"]].
Proof.
  unfold propagateFullProblem. rewrite !bind_lift.
  destruct (match getAccelerationModelsPerturbedPatchedConicsTrajectory _ _ _ _ _ _ with
            | Some o => o
            | None => Raised std_out_of_range
            end) as [accelerationMap|]; [|done].
  rewrite !bind_lift.
  destruct (getPatchedConicPropagatorSettings T _ _ _ _ _ _ _ _ _ _ _ _ _)
    as [settings|] eqn:Hsettings; [|done].
  rewrite !bind_lift.
  destruct (fullPropagationPatchedConicsTrajectory T _ _ _ _ _ _ _ _ _ _)
    as [[[lambert full] dep]|] eqn:Hresults; [|done].
  intros H. apply bind_Done_inv in H as (? & [] & ? & Hemit & H & ->).
  injection Hemit as <-. injection H as <- <-. simpl. split_and!; done.
Qed.

(** X7.  In every completed run the list of relevant bodies is Earth and
    Venus, then Mars if the transfer case visits it, then Jupiter and the
    Sun, each once: it holds the bodies of the sequence and the Sun.  The
    library is asked to save, for each of the five entries of the body
    sequence, the same list of dependent variables: the distance of the
    spacecraft to each relevant body, in the order of that list. *)
Theorem distances_saved_for_every_body (T : Tudat) (clock : nat -> Q)
    (parameters : list Q) (integ : IntegratorSettings)
    (d : TransferDesign T) (s : PropagationSetup T) (st : ArcLoopState T) :
  Run.result (pipeline T clock parameters integ) = Done (d, s, st) ->
  NoDup (bodyList_ s) /\
  (exists others, bodyList_ s = "Earth" :: "Venus" :: others ++ ["Jupiter"; "Sun"] /\
                  others ⊆ ["Mars"]) /\
  (forall b, b ∈ bodyList_ s <-> b ∈ transferBodyOrder_ d \/ b = "Sun") /\
  length (dependentVariablesToSave_ s) = 5%nat /\
  (forall variables, variables ∈ dependentVariablesToSave_ s ->
                     variables = map distanceTo (bodyList_ s)) /\
  getPatchedConicPropagatorSettings T (bodyMapForPropagation_ s) (accelerationMap_ s)
    (transferBodyOrder_ d) "Sun" "Spacecraft" (transferLegTypes_ d)
    (trajectoryIndependentVariables_ d) (minimumPericenterRadii_ d)
    (departureCaptureSemiMajorAxes_ d) (departureCaptureEccentricities_ d)
    (dependentVariablesToSave_ s) cowell true = Done (propagatorSettingsCreated_ s).
Proof.
  intros H. apply pipeline_Done in H as (l0 & l1 & Hdesign & Hsetup).
  apply designTransfer_inputs in Hdesign as (p5 & x & y & _ & _ & Hcase & Horder & _).
  apply at_Done in Hcase as [_ Hcase].
  destruct (transferCaseNames_lookup _ _ _ Hcase) as (Hx & Hy & _).
  apply propagateFullProblem_setup in Hsetup as (_ & Hlist & Hsave & Hsettings & _).
  rewrite Hsave, Hlist, Horder. split_and!.
  - rewrite !elem_of_cons, elem_of_nil in Hx, Hy.
    destruct Hx as [->|[->|[->|[]]]], Hy as [->|[->|[->|[]]]]; vm_compute;
      repeat (constructor; [rewrite ?elem_of_cons, elem_of_nil; intuition discriminate|]);
      constructor.
  - rewrite !elem_of_cons, elem_of_nil in Hx, Hy.
    destruct Hx as [->|[->|[->|[]]]], Hy as [->|[->|[->|[]]]];
      (exists []; split; [reflexivity|set_solver]) ||
      (exists ["Mars"]; split; [reflexivity|set_solver]).
  - intros b. apply relevantBodies_elem_of.
  - by rewrite length_replicate.
  - intros variables Hin. by apply elem_of_replicate in Hin as [-> _].
  - by rewrite Hsave, Hlist, Horder in Hsettings.
Qed.

Lemma distances_saved_for_every_body_witness :
  exists d s st,
    Run.result (pipeline Toy.oneArc Toy.clock trajectoryParameters integratorSettings) =
      Done (d, s, st) /\
    NoDup (bodyList_ s) /\
    length (dependentVariablesToSave_ s) = 5%nat.
Proof.
  assert (exists d s st,
            Run.result (pipeline Toy.oneArc Toy.clock trajectoryParameters
                          integratorSettings) = Done (d, s, st))
    as (d & s & st & Hrun).
  { eexists _, _, _. reflexivity. }
  exists d, s, st. split; [exact Hrun|].
  destruct (distances_saved_for_every_body Toy.oneArc Toy.clock trajectoryParameters
              integratorSettings d s st Hrun) as (Hnodup & _ & _ & Hlen & _).
  split; [exact Hnodup|exact Hlen].
Defined.

(** ** Bounds met by the arc loop *)

Section ArcBounds.
Context (T : Tudat).
Variable trajectoryParameters : list Q.
Variable bodyMapForPropagation : NamedBodyMap T.
Variable outputPath : string.
Variable numberOfResults : Z.

Local Abbreviation body :=
  (arcBody T trajectoryParameters bodyMapForPropagation outputPath numberOfResults).
Local Abbreviation loop :=
  (arcLoop T trajectoryParameters bodyMapForPropagation outputPath numberOfResults).

(** What a completed loop has required of every arc it was given. *)
Lemma arcLoop_Done_requirements (st st' : ArcLoopState T)
    (results : list (Z * StateHistory)) (log : list (Event T)) :
  loop st results = (log, Done st') ->
  length (propagatorSettings_ st') = length (propagatorSettings_ st) /\
  forall k h, (k, h) ∈ results ->
    0 <= k < Z.of_nat (length (propagatorSettings_ st)) /\
    h <> [] /\
    (exists t seed, lagrangeInterpolate T h 8 t = Done seed) /\
    (as_size_t k < as_size_t (numberOfResults - 1) ->
     0 <= k + 2 < Z.of_nat (length trajectoryParameters)).
Proof.
  revert st log. induction results as [|[k h] rest IH]; intros st log H.
  { injection H as <- <-. split; [done|]. intros k h Hin. by apply elem_of_nil in Hin. }
  rewrite arcLoop_cons in H.
  apply bind_Done_inv in H as (l1 & st1 & l2 & Hbody & Hrest & ->).
  apply arcBody_Done in Hbody
    as (seed & tEnd & tStart & pr & fwd & bwd & mid' & Hseed & HtEnd & HtStart & Hk
        & Hpr & _ & _ & Hmid & _ & ->).
  destruct (IH _ _ Hrest) as [Hlen Hall]. simpl in Hlen, Hall.
  rewrite length_insert in Hlen, Hall. split; [done|].
  intros k' h' [[= -> ->]|Hin]%elem_of_cons; [|by apply Hall].
  apply lookup_lt_Some in Hpr. split_and!; [lia|lia| |eauto|].
  - intros ->. discriminate.
  - intros Hnext. unfold nextArcMiddleTime in Hmid.
    apply Z.ltb_lt in Hnext. rewrite Hnext in Hmid.
    destruct (at_ trajectoryParameters (k + 1)) as [p1|]; [|done].
    destruct (at_ trajectoryParameters (k + 2)) as [p2|] eqn:Hp2; [|done].
    apply at_Done in Hp2 as [? Hp2]. apply lookup_lt_Some in Hp2. lia.
Qed.
End ArcBounds.

(** X8.  A pass for an arc whose key has no pair of propagator settings
    (the key is negative or not below the number of pairs) ends with
    [std::out_of_range] at [propagatorSettings.at], after the middle state
    has been interpolated: the interpolation is all that the pass has
    requested, no simulation is started and no table is written for the
    arc.  (The initial time of the shared integrator settings has been set
    by then, line 285; an exceptional outcome carries no state, so the
    statement does not cover the settings.) *)
Theorem arc_without_settings_pair (T : Tudat) (parameters : list Q)
    (bodyMap : NamedBodyMap T) (outputPath : string) (numberOfResults : Z)
    (st : ArcLoopState T) (k : Z) (h : StateHistory) (seed : Vector6d) :
  lagrangeInterpolate T h 8 (currentArcMiddleTime_ st * 86400)%Q = Done seed ->
  ~ (0 <= k < Z.of_nat (length (propagatorSettings_ st))) ->
  arcBody T parameters bodyMap outputPath numberOfResults st (k, h) =
  ([Interpolation h 8 (currentArcMiddleTime_ st * 86400)%Q], Raised std_out_of_range).
Proof.
  intros Hseed Hk. rewrite arcBody_eq. simpl. by rewrite Hseed, at_out_of_range.
Qed.

Lemma arc_without_settings_pair_witness :
  arcBody Toy.oneArc [10; 20; 30; 1]%Q ["Sun"] "HighThrust" 3 Toy.state0
    (2, Toy.propagatedHistory) =
  ([Interpolation Toy.propagatedHistory 8 (0 * 86400)%Q], Raised std_out_of_range).
Proof.
  assert (exists seed,
            lagrangeInterpolate Toy.oneArc Toy.propagatedHistory 8
              (currentArcMiddleTime_ Toy.state0 * 86400)%Q = Done seed) as [seed Hseed].
  { eexists. reflexivity. }
  apply (arc_without_settings_pair Toy.oneArc [10; 20; 30; 1]%Q ["Sun"] "HighThrust" 3
           Toy.state0 2 Toy.propagatedHistory seed Hseed).
  simpl. lia.
Defined.

(** X9.  When the arc loop of [main] completes, the parameter vector has at
    least two entries, and for every arc of the propagated results: its key
    is the index of a pair of propagator settings, its history is not
    empty and could be interpolated, and, unless the key is the number of
    arcs less one or more, the parameter vector has the entries [key + 1]
    and [key + 2] that the update of the middle time reads. *)
Theorem completed_loop_has_met_its_bounds (T : Tudat) (parameters : list Q)
    (outputPath : string) (integ : IntegratorSettings) (s : PropagationSetup T)
    (log : list (Event T)) (st : ArcLoopState T) :
  repropagateArcs T parameters outputPath integ s = (log, Done st) ->
  Z.of_nat (length (propagatorSettingsCreated_ s)) <= 2 ^ 64 ->
  Z.of_nat (length (fullProblemResultForEachLeg_ s)) <= 2 ^ 64 ->
  (2 <= length parameters)%nat /\
  length (propagatorSettings_ st) = length (propagatorSettingsCreated_ s) /\
  forall k h, (k, h) ∈ fullProblemResultForEachLeg_ s ->
    0 <= k < Z.of_nat (length (propagatorSettingsCreated_ s)) /\
    h <> [] /\
    (exists t seed, lagrangeInterpolate T h 8 t = Done seed) /\
    (k < Z.of_nat (length (fullProblemResultForEachLeg_ s)) - 1 ->
     k + 2 < Z.of_nat (length parameters)).
Proof.
  unfold repropagateArcs. intros H Hpairs Hsize.
  apply bind_Done_inv in H as (? & p0 & ? & Hp0 & H & ->).
  apply lift_Done_inv in Hp0 as [Hp0 ->].
  apply bind_Done_inv in H as (? & p1 & ? & Hp1 & H & ->).
  apply lift_Done_inv in Hp1 as [Hp1 ->].
  apply at_Done in Hp1 as [_ Hp1]. apply lookup_lt_Some in Hp1.
  apply arcLoop_Done_requirements in H as [Hlen Hall]. simpl in Hlen, Hall.
  split_and!; [simpl in Hp1; lia|done|].
  intros k h Hin. destruct (Hall k h Hin) as (Hk & Hh & Hseed & Hnext).
  do 3 (split; [done|]). intros Hlt.
  assert (as_size_t k <
          as_size_t (Z.of_nat (length (fullProblemResultForEachLeg_ s)) - 1)) as Hlt'.
  { unfold as_size_t. rewrite !Z.mod_small; lia. }
  apply Hnext in Hlt'. lia.
Qed.

Lemma completed_loop_has_met_its_bounds_witness :
  exists log st,
    repropagateArcs Toy.oneArc [10; 20; 30; 1]%Q "HighThrust" integratorSettings
      Toy.setup = (log, Done st) /\
    (2 <= length [10; 20; 30; 1]%Q)%nat /\
    length (propagatorSettings_ st) = 2%nat.
Proof.
  assert (exists log st,
            repropagateArcs Toy.oneArc [10; 20; 30; 1]%Q "HighThrust" integratorSettings
              Toy.setup = (log, Done st)) as (log & st & Hrun).
  { eexists _, _. reflexivity. }
  exists log, st. split; [exact Hrun|].
  assert (Z.of_nat (length (propagatorSettingsCreated_ Toy.setup)) <= 2 ^ 64) as Hpairs
    by (simpl; lia).
  assert (Z.of_nat (length (fullProblemResultForEachLeg_ Toy.setup)) <= 2 ^ 64) as Hsize
    by (simpl; lia).
  destruct (completed_loop_has_met_its_bounds Toy.oneArc [10; 20; 30; 1]%Q "HighThrust"
              integratorSettings Toy.setup log st Hrun Hpairs Hsize) as (Hparams & Hlen & _).
  split; [exact Hparams|exact Hlen].
Defined.

(** ** What the arc loop keeps *)

Section ArcInvariants.
Context (T : Tudat).
Variable trajectoryParameters : list Q.
Variable bodyMapForPropagation : NamedBodyMap T.
Variable outputPath : string.
Variable numberOfResults : Z.

Local Abbreviation loop :=
  (arcLoop T trajectoryParameters bodyMapForPropagation outputPath numberOfResults).

(** After at least one pass the time step is the negated magnitude. *)
Lemma arcLoop_Done_step (st st' : ArcLoopState T) (results : list (Z * StateHistory))
    (log : list (Event T)) (a : Q) :
  Qabs (initialTimeStep_ (integratorSettings_ st)) = a ->
  loop st results = (log, Done st') ->
  results <> [] ->
  initialTimeStep_ (integratorSettings_ st') = (a * -1)%Q.
Proof.
  revert st log. induction results as [|[k h] rest IH]; intros st log Ha H Hne; [done|].
  rewrite arcLoop_cons in H.
  apply bind_Done_inv in H as (l1 & st1 & l2 & Hbody & Hrest & ->).
  apply arcBody_Done in Hbody
    as (seed & tEnd & tStart & pr & fwd & bwd & mid' & _ & _ & _ & _ & _ & _ & _ & _
        & _ & ->).
  destruct rest as [|e rest].
  - injection Hrest as _ <-. simpl. by rewrite Ha.
  - eapply IH; [|exact Hrest|done]. simpl. rewrite Ha, <- Ha. apply Qabs_opp_abs.
Qed.

(** The pairs of the keys that are not among the results are not written. *)
Lemma arcLoop_Done_other_pairs (st st' : ArcLoopState T)
    (results : list (Z * StateHistory)) (log : list (Event T)) (j : Z) :
  loop st results = (log, Done st') ->
  0 <= j -> j ∉ results.*1 ->
  propagatorSettings_ st' !! Z.to_nat j = propagatorSettings_ st !! Z.to_nat j.
Proof.
  revert st log. induction results as [|[k h] rest IH]; intros st log H Hj Hnot.
  { by injection H as _ <-. }
  rewrite arcLoop_cons in H.
  apply bind_Done_inv in H as (l1 & st1 & l2 & Hbody & Hrest & ->).
  apply arcBody_Done in Hbody
    as (seed & tEnd & tStart & pr & fwd & bwd & mid' & _ & _ & _ & Hk & _ & _ & _ & _
        & _ & ->).
  simpl in Hnot. apply not_elem_of_cons in Hnot as [Hne Hnot].
  rewrite (IH _ _ Hrest Hj Hnot). simpl. apply list_lookup_insert_ne. lia.
Qed.
End ArcInvariants.

(** X10.  A completed arc loop leaves the library's models as they were:
    the integrator type and the magnitude of the time step, the number of
    pairs of propagator settings, the first member of every pair, the
    dynamics (acceleration model) of every second member, and the whole
    pair of every key that is not among the results.  After at least one
    pass the shared integrator settings hold the negated magnitude of the
    time step. *)
Theorem arc_loop_keeps_the_models (T : Tudat) (parameters : list Q)
    (bodyMap : NamedBodyMap T) (outputPath : string) (numberOfResults : Z)
    (st st' : ArcLoopState T) (results : list (Z * StateHistory))
    (log : list (Event T)) :
  arcLoop T parameters bodyMap outputPath numberOfResults st results = (log, Done st') ->
  integratorType_ (integratorSettings_ st') = integratorType_ (integratorSettings_ st) /\
  Qabs (initialTimeStep_ (integratorSettings_ st')) =
    Qabs (initialTimeStep_ (integratorSettings_ st)) /\
  (results <> [] ->
   initialTimeStep_ (integratorSettings_ st') =
     (Qabs (initialTimeStep_ (integratorSettings_ st)) * -1)%Q) /\
  length (propagatorSettings_ st') = length (propagatorSettings_ st) /\
  (forall j,
     pointee (propagatorSettings_ st') {| arc_ := j; member_ := first |} =
     pointee (propagatorSettings_ st) {| arc_ := j; member_ := first |}) /\
  (forall j,
     dynamics_ <$> pointee (propagatorSettings_ st') {| arc_ := j; member_ := second |} =
     dynamics_ <$> pointee (propagatorSettings_ st) {| arc_ := j; member_ := second |}) /\
  (forall j,
     0 <= j -> j ∉ results.*1 ->
     propagatorSettings_ st' !! Z.to_nat j = propagatorSettings_ st !! Z.to_nat j).
Proof.
  intros H.
  destruct (arcLoop_run T _ _ _ _ st st _ _ _ (sameModels_refl T st) H)
    as (chunks & tail & _ & _ & _ & _ & Hty & Hstep & Hstore).
  assert (forall j : nat,
            option_Forall2 (fun a b => a.1 = b.1 /\ dynamics_ a.2 = dynamics_ b.2)
              (propagatorSettings_ st !! j) (propagatorSettings_ st' !! j)) as Hpairs.
  { by apply Forall2_lookup. }
  split_and!; try done.
  - intros Hne. exact (arcLoop_Done_step T _ _ _ _ _ _ _ _ _ eq_refl H Hne).
  - symmetry. by eapply Forall2_length.
  - intros j. unfold pointee. simpl.
    destruct (Hpairs (Z.to_nat j)) as [a b [Hfst _]|]; [|done]. by rewrite Hfst.
  - intros j. unfold pointee. simpl.
    destruct (Hpairs (Z.to_nat j)) as [a b [_ Hdyn]|]; [|done]. simpl. by rewrite Hdyn.
  - intros j Hj Hnot. exact (arcLoop_Done_other_pairs T _ _ _ _ _ _ _ _ _ H Hj Hnot).
Qed.

Lemma arc_loop_keeps_the_models_witness :
  exists st' log,
    arcLoop Toy.oneArc [10; 20; 30; 1]%Q ["Sun"] "HighThrust" 1 Toy.state0
      [(0, Toy.propagatedHistory)] = (log, Done st') /\
    initialTimeStep_ (integratorSettings_ st') = (Qabs 1000 * -1)%Q /\
    propagatorSettings_ st' !! 1%nat = Some Toy.settingsPair.
Proof.
  assert (exists st' log,
            arcLoop Toy.oneArc [10; 20; 30; 1]%Q ["Sun"] "HighThrust" 1 Toy.state0
              [(0, Toy.propagatedHistory)] = (log, Done st')) as (st' & log & Hrun).
  { eexists _, _. reflexivity. }
  exists st', log. split; [exact Hrun|].
  destruct (arc_loop_keeps_the_models Toy.oneArc [10; 20; 30; 1]%Q ["Sun"] "HighThrust" 1
              Toy.state0 st' [(0, Toy.propagatedHistory)] log Hrun)
    as (_ & _ & Hstep & _ & _ & _ & Hother).
  split.
  - apply Hstep. discriminate.
  - apply (Hother 1); [lia|]. simpl. rewrite elem_of_cons, elem_of_nil.
    intuition discriminate.
Defined.

(** ** The names of the tables *)

Lemma to_string_inj (k1 k2 : Z) : to_string k1 = to_string k2 -> k1 = k2.
Proof.
  unfold to_string. intros H. apply DecimalZ.to_int_inj.
  assert (forall k, NilZero.int_of_string (NilZero.string_of_int (Z.to_int k)) =
                      Some (Z.to_int k)) as Hround.
  { intros k. apply NilZero.isi; destruct k as [|p|p]; simpl; try discriminate;
      intros [= Hp]; by apply DecimalPos.Unsigned.to_uint_nonnil in Hp. }
  pose proof (Hround k1) as H1. rewrite H, Hround in H1. by injection H1.
Qed.

(** A decimal numeral starts with a digit or with the minus sign. *)
Lemma to_string_head (k : Z) :
  exists c s, to_string k = String c s /\
              String c "" ∈ ["-"; "0"; "1"; "2"; "3"; "4"; "5"; "6"; "7"; "8"; "9"].
Proof.
  assert (forall d, d <> Decimal.Nil ->
            exists c s, NilZero.string_of_uint d = String c s /\
              String c "" ∈ ["0"; "1"; "2"; "3"; "4"; "5"; "6"; "7"; "8"; "9"]) as Huint.
  { intros d Hd. destruct d; [done|..]; simpl; eexists _, _; (split; [reflexivity|]);
      rewrite !elem_of_cons; tauto. }
  unfold to_string. destruct k as [|p|p]; simpl.
  - eexists _, _. split; [reflexivity|]. rewrite !elem_of_cons. tauto.
  - destruct (Huint (Pos.to_uint p) (DecimalPos.Unsigned.to_uint_nonnil p))
      as (c & s & -> & Hc).
    exists c, s. split; [done|]. by right.
  - eexists _, _. split; [reflexivity|]. by left.
Qed.

Lemma string_app_inv_tail (s1 s2 t : string) : s1 +:+ t = s2 +:+ t -> s1 = s2.
Proof.
  assert (forall s u, String.length (s +:+ u) = (String.length s + String.length u)%nat)
    as Hlen by (intros s u; induction s as [|? ? IHs]; simpl; [done|by rewrite IHs]).
  revert s2. induction s1 as [|c s1 IH]; intros [|c' s2] H; simpl in H.
  - done.
  - apply (f_equal String.length) in H. simpl in H. rewrite !Hlen in H. simpl in H. lia.
  - apply (f_equal String.length) in H. simpl in H. rewrite !Hlen in H. simpl in H. lia.
  - injection H as -> H. f_equal. by apply IH.
Qed.

Lemma append_String (c : Ascii.ascii) (s t : string) :
  String c s +:+ t = String c (s +:+ t).
Proof. reflexivity. Qed.

Lemma append_empty (t : string) : "" +:+ t = t.
Proof. reflexivity. Qed.

(** The names of the five kinds of tables do not collide. *)
Lemma tableName_inj (p1 p2 : string) (k1 k2 : Z) :
  p1 ∈ ["numericalResultForward"; "numericalResultBackward"; "lambertResult";
        "numericalResult"; "dependentResult"] ->
  p2 ∈ ["numericalResultForward"; "numericalResultBackward"; "lambertResult";
        "numericalResult"; "dependentResult"] ->
  tableName p1 k1 = tableName p2 k2 -> p1 = p2 /\ k1 = k2.
Proof.
  assert (forall k c s, to_string k +:+ ".dat" = String c s ->
            String c "" ∈ ["-"; "0"; "1"; "2"; "3"; "4"; "5"; "6"; "7"; "8"; "9"])
    as Hhead.
  { intros k c s. destruct (to_string_head k) as (c' & u & -> & Hc).
    rewrite append_String. by intros [= <- _]. }
  intros Hp1 Hp2 H. unfold tableName in H.
  rewrite !elem_of_cons, elem_of_nil in Hp1, Hp2.
  destruct Hp1 as [->|[->|[->|[->|[->|[]]]]]], Hp2 as [->|[->|[->|[->|[->|[]]]]]];
    rewrite !append_String, !append_empty in H; try discriminate H;
    repeat match type of H with
           | String _ _ = String _ _ => injection H as H
           end;
    try (by apply string_app_inv_tail, to_string_inj in H);
    exfalso; first [apply Hhead in H|symmetry in H; apply Hhead in H];
    rewrite !elem_of_cons, elem_of_nil in H; intuition discriminate.
Qed.

(** ** The files of a run *)

Lemma filesWritten_app {T : Tudat} (l1 l2 : list (Event T)) :
  filesWritten (l1 ++ l2) = filesWritten l1 ++ filesWritten l2.
Proof. apply omap_app. Qed.

Lemma filesWritten_tableWrites {T : Tudat} (prefix outputPath : string)
    (tables : list (Z * DataMap)) :
  filesWritten (tableWrites (T := T) prefix outputPath tables) =
  map (fun e => (outputPath, tableName prefix e.1)) tables.
Proof. induction tables as [|e rest IH]; [done|]. simpl. by rewrite <- IH. Qed.

Lemma elem_of_filesWritten {T : Tudat} (log : list (Event T)) (path name : string) :
  (path, name) ∈ filesWritten log <-> exists data, FileWrite data name path ∈ log.
Proof.
  unfold filesWritten. rewrite list_elem_of_omap. split.
  - intros ([| | |data name' path'] & Hin & [= <- <-]). eauto.
  - intros [data Hin]. by eexists.
Qed.

Lemma writeEach_eq (T : Tudat) (prefix outputPath : string) (tables : list (Z * DataMap)) :
  writeEach T prefix outputPath tables = (tableWrites prefix outputPath tables, Done tt).
Proof.
  induction tables as [|e rest IH]; [done|]. simpl.
  unfold Run.emit. by rewrite bind_Done_l, IH.
Qed.

Lemma writeResults_eq (T : Tudat) (outputPath : string) (s : PropagationSetup T) :
  writeResults T outputPath s =
  (tableWrites "lambertResult" outputPath (tables (lambertTargeterResultForEachLeg_ s)) ++
   tableWrites "numericalResult" outputPath (tables (fullProblemResultForEachLeg_ s)) ++
   tableWrites "dependentResult" outputPath (dependentVariableResultForEachLeg_ s),
   Done tt).
Proof.
  unfold writeResults. rewrite !writeEach_eq, !bind_Done_l. done.
Qed.

Section ArcFiles.
Context (T : Tudat).
Variable trajectoryParameters : list Q.
Variable bodyMapForPropagation : NamedBodyMap T.
Variable outputPath : string.
Variable numberOfResults : Z.

Local Abbreviation body :=
  (arcBody T trajectoryParameters bodyMapForPropagation outputPath numberOfResults).
Local Abbreviation loop :=
  (arcLoop T trajectoryParameters bodyMapForPropagation outputPath numberOfResults).

(** A pass writes the forward table, then the backward table, and a pass
    that completes has written both. *)
Lemma arcBody_filesWritten st k h :
  exists n,
    filesWritten (body st (k, h)).1 = map (pair outputPath) (take n (arcFiles k)) /\
    forall st', (body st (k, h)).2 = Done st' -> n = 2%nat.
Proof.
  rewrite arcBody_eq. simpl.
  destruct (lagrangeInterpolate T h 8 _) as [seed|]; [|by exists 0%nat].
  destruct (at_ (propagatorSettings_ st) k) as [pr|]; [|by exists 0%nat].
  destruct (rbegin_first h) as [tEnd|]; [|by exists 0%nat].
  destruct (SingleArcDynamicsSimulator T _ _ _) as [fwd|]; [|by exists 0%nat].
  destruct (begin_first h) as [tStart|]; [|by exists 1%nat].
  destruct (SingleArcDynamicsSimulator T _ _ _) as [bwd|]; [|by exists 1%nat].
  by exists 2%nat.
Qed.

Lemma arcLoop_filesWritten st results :
  exists rest,
    map (pair outputPath) (flat_map (fun e => arcFiles e.1) results) =
      filesWritten (loop st results).1 ++ rest /\
    forall st', (loop st results).2 = Done st' -> rest = [].
Proof.
  revert st. induction results as [|[k h] results IH]; intros st.
  { by exists []. }
  rewrite arcLoop_cons, bind_log, bind_result, filesWritten_app.
  destruct (arcBody_filesWritten st k h) as (n & -> & Hn).
  destruct (body st (k, h)).2 as [st1|e].
  - rewrite (Hn st1 eq_refl). destruct (IH st1) as (rest & Hrest & Hdone).
    exists rest. split; [|done].
    cbn [flat_map]. rewrite map_app, Hrest, app_assoc. done.
  - exists (map (pair outputPath) (drop n (arcFiles k)) ++
            map (pair outputPath) (flat_map (fun e => arcFiles e.1) results)).
    split; [|done].
    cbn [flat_map fst filesWritten omap]. rewrite app_nil_r, app_assoc, <- !map_app.
    by rewrite take_drop.
Qed.
End ArcFiles.

(** A completed run, phase by phase. *)
Lemma pipeline_Done_phases (T : Tudat) (clock : nat -> Q) (parameters : list Q)
    (integ : IntegratorSettings) (log : list (Event T)) (d : TransferDesign T)
    (s : PropagationSetup T) (st : ArcLoopState T) :
  pipeline T clock parameters integ = (log, Done (d, s, st)) ->
  exists l0 l1 l2 st0,
    designTransfer T parameters = (l0, Done d) /\
    propagateFullProblem T clock integ d = (l1, Done s) /\
    arcLoop T parameters (bodyMapForPropagation_ s) (getOutputPath T "HighThrust")
      (Z.of_nat (length (fullProblemResultForEachLeg_ s))) st0
      (fullProblemResultForEachLeg_ s) = (l2, Done st) /\
    log = l0 ++ l1 ++ l2 ++
          tableWrites "lambertResult" (getOutputPath T "HighThrust")
            (tables (lambertTargeterResultForEachLeg_ s)) ++
          tableWrites "numericalResult" (getOutputPath T "HighThrust")
            (tables (fullProblemResultForEachLeg_ s)) ++
          tableWrites "dependentResult" (getOutputPath T "HighThrust")
            (dependentVariableResultForEachLeg_ s).
Proof.
  unfold pipeline. intros H.
  apply bind_Done_inv in H as (l0 & d' & ? & Hdesign & H & ->).
  apply bind_Done_inv in H as (l1 & s' & ? & Hsetup & H & ->).
  apply bind_Done_inv in H as (l2 & st' & ? & Hloop & H & ->).
  rewrite writeResults_eq, bind_Done_l in H. injection H as <- -> -> ->.
  unfold repropagateArcs in Hloop. rewrite !bind_lift in Hloop.
  destruct (at_ parameters 0) as [p0|]; [|done].
  rewrite !bind_lift in Hloop.
  destruct (at_ parameters 1) as [p1|]; [|done].
  exists l0, l1, l2. eexists. split_and!; try done.
  by rewrite app_nil_r.
Qed.

Lemma designTransfer_filesWritten (T : Tudat) (parameters : list Q) :
  filesWritten (designTransfer T parameters).1 = [].
Proof.
  unfold designTransfer. rewrite bind_lift.
  destruct (at_ parameters 5) as [p5|]; [|done]. rewrite bind_lift.
  destruct (at_ transferCaseNames _) as [caseNames|]; [|done]. rewrite bind_lift.
  destruct (setupBodyMapFromEphemeridesForPatchedConicsTrajectory T _ _ _)
    as [bodyMap0|]; [|done]. rewrite bind_lift.
  destruct (setGlobalFrameBodyEphemerides T _ _ _) as [bodyMap|]; [|done].
  rewrite bind_lift.
  destruct (getDefaultMinimumPericenterRadii T _) as [radii|]; [|done].
  rewrite bind_lift.
  destruct (Trajectory.createTransferTrajectoryObject T _ _ _ _ _ _ _ _ _ _ _ _)
    as [trajectory|]; [|done].
  destruct (Trajectory.maneuvers trajectory) as [[ps ts] dvs].
  unfold Run.emit. by rewrite bind_Done_l.
Qed.

Lemma propagateFullProblem_filesWritten (T : Tudat) (clock : nat -> Q)
    (integ : IntegratorSettings) (d : TransferDesign T) :
  filesWritten (propagateFullProblem T clock integ d).1 = [].
Proof.
  unfold propagateFullProblem. rewrite !bind_lift.
  destruct (match getAccelerationModelsPerturbedPatchedConicsTrajectory _ _ _ _ _ _ with
            | Some o => o
            | None => Raised std_out_of_range
            end) as [accelerationMap|]; [|done].
  rewrite !bind_lift.
  destruct (getPatchedConicPropagatorSettings T _ _ _ _ _ _ _ _ _ _ _ _ _)
    as [settings|]; [|done].
  rewrite !bind_lift.
  destruct (fullPropagationPatchedConicsTrajectory T _ _ _ _ _ _ _ _ _ _)
    as [results|]; [|done].
  unfold Run.emit. by rewrite bind_Done_l.
Qed.

Lemma elem_of_flat_map_arcFiles (keys : list Z) (name : string) :
  name ∈ flat_map arcFiles keys <-> exists k, k ∈ keys /\ name ∈ arcFiles k.
Proof.
  induction keys as [|k keys IH]; cbn [flat_map].
  - split; [by intros ?%elem_of_nil|by intros (? & ?%elem_of_nil & _)].
  - rewrite elem_of_app, IH. split.
    + intros [H|(k' & Hk' & H)]; [exists k|exists k']; rewrite elem_of_cons; auto.
    + intros (k' & [->|Hk']%elem_of_cons & H); eauto.
Qed.

Lemma flat_map_arcFiles_fst {A} (results : list (Z * A)) :
  flat_map (fun e => arcFiles e.1) results = flat_map arcFiles results.*1.
Proof. induction results as [|e rest IH]; [done|]. simpl. by rewrite IH. Qed.

Ltac table_prefix := rewrite !elem_of_cons; tauto.

Lemma elem_of_arcFiles (name : string) (k : Z) :
  name ∈ arcFiles k <->
  name = tableName "numericalResultForward" k \/
  name = tableName "numericalResultBackward" k.
Proof. unfold arcFiles. rewrite !elem_of_cons, elem_of_nil. tauto. Qed.

(** With distinct keys in each of the three result maps, the names of the
    tables of a run are distinct. *)
Lemma table_names_NoDup (arcs lambert dependent : list Z) :
  NoDup arcs -> NoDup lambert -> NoDup dependent ->
  NoDup (flat_map arcFiles arcs ++
         map (tableName "lambertResult") lambert ++
         map (tableName "numericalResult") arcs ++
         map (tableName "dependentResult") dependent).
Proof.
  intros Harcs Hlambert Hdependent.
  assert (forall p ks, p ∈ ["numericalResultForward"; "numericalResultBackward";
                            "lambertResult"; "numericalResult"; "dependentResult"] ->
                       NoDup ks -> NoDup (map (tableName p) ks)) as Hmap.
  { intros p ks Hp Hks. apply NoDup_fmap_2_strong; [|done].
    intros k1 k2 _ _ H. by apply (tableName_inj p p) in H as [_ ?]. }
  assert (forall x p ks, x ∈ map (tableName p) ks -> exists k, x = tableName p k) as Hin.
  { intros x p ks (k & -> & _)%list_elem_of_fmap. eauto. }
  assert (forall x ks, x ∈ flat_map arcFiles ks ->
            exists k, x = tableName "numericalResultForward" k \/
                      x = tableName "numericalResultBackward" k) as Hin'.
  { intros x ks (k & _ & H)%elem_of_flat_map_arcFiles. apply elem_of_arcFiles in H. eauto. }
  rewrite !NoDup_app. split_and!.
  - clear Hin Hin'. induction Harcs as [|k ks Hk _ IH]; simpl; [constructor|].
    constructor; [|constructor; [|done]].
    + rewrite elem_of_cons, elem_of_flat_map_arcFiles.
      intros [H|(k' & Hk' & H)].
      * apply tableName_inj in H as [[=] _]; table_prefix.
      * apply elem_of_arcFiles in H as [H|H];
          apply tableName_inj in H as [[=] <-]; try table_prefix; done.
    + rewrite elem_of_flat_map_arcFiles. intros (k' & Hk' & H).
      apply elem_of_arcFiles in H as [H|H];
        apply tableName_inj in H as [[=] <-]; try table_prefix; done.
  - intros x [k Hx]%Hin' Hx'. rewrite !elem_of_app in Hx'.
    destruct Hx' as [[k' ->]%Hin|[[k' ->]%Hin|[k' ->]%Hin]], Hx as [Hx|Hx];
      apply tableName_inj in Hx as [[=] _]; table_prefix.
  - by apply Hmap; [table_prefix|].
  - intros x [k ->]%Hin Hx'. rewrite !elem_of_app in Hx'.
    destruct Hx' as [[k' Hx]%Hin|[k' Hx]%Hin];
      apply tableName_inj in Hx as [[=] _]; table_prefix.
  - by apply Hmap; [table_prefix|].
  - intros x [k ->]%Hin [k' Hx]%Hin.
    apply tableName_inj in Hx as [[=] _]; table_prefix.
  - by apply Hmap; [table_prefix|].
Qed.

(** X11.  A completed run has logged, in this order: the line with the
    total and the capture velocity change; the line with the run time, which
    is the difference of the two clock readings around the library's
    propagation; the passes of the arc loop, which write for every arc of
    the propagated results the forward and then the backward table; and then
    one table for every entry of the analytic results, of the propagated
    results and of the dependent-variable results, in this order, holding
    what the library returned.  All tables go to the output directory of the
    application. *)
Theorem completed_run_writes_every_table (T : Tudat) (clock : nat -> Q)
    (parameters : list Q) (integ : IntegratorSettings) (log : list (Event T))
    (d : TransferDesign T) (s : PropagationSetup T) (st : ArcLoopState T) :
  pipeline T clock parameters integ = (log, Done (d, s, st)) ->
  exists arcLog,
    log =
      Cout [text "Total/capture Delta V: "; number (Some (totalDeltaV_ d));
            text " "; number (captureDeltaV_ d)] ::
      Cout [text "Operation took: "; number (Some (clock 1%nat - clock 0%nat)%Q);
            text " seconds"] ::
      arcLog ++
      tableWrites "lambertResult" (getOutputPath T "HighThrust")
        (tables (lambertTargeterResultForEachLeg_ s)) ++
      tableWrites "numericalResult" (getOutputPath T "HighThrust")
        (tables (fullProblemResultForEachLeg_ s)) ++
      tableWrites "dependentResult" (getOutputPath T "HighThrust")
        (dependentVariableResultForEachLeg_ s) /\
    filesWritten arcLog =
      map (pair (getOutputPath T "HighThrust"))
          (flat_map (fun e => arcFiles e.1) (fullProblemResultForEachLeg_ s)) /\
    fullPropagationPatchedConicsTrajectory T (bodyMapForPropagation_ s)
      (transferBodyOrder_ d) "Sun" (transferLegTypes_ d)
      (trajectoryIndependentVariables_ d) (minimumPericenterRadii_ d)
      (departureCaptureSemiMajorAxes_ d) (departureCaptureEccentricities_ d)
      (propagatorSettingsCreated_ s) integ =
      Done (lambertTargeterResultForEachLeg_ s, fullProblemResultForEachLeg_ s,
            dependentVariableResultForEachLeg_ s).
Proof.
  intros H.
  apply pipeline_Done_phases in H as (l0 & l1 & l2 & st0 & Hdesign & Hsetup & Hloop & ->).
  apply designTransfer_Done in Hdesign as (_ & _ & _ & _ & _ & _ & ->).
  apply propagateFullProblem_setup in Hsetup as (_ & _ & _ & _ & Hresults & ->).
  exists l2. split; [done|]. split; [|done].
  destruct (arcLoop_filesWritten T parameters (bodyMapForPropagation_ s)
              (getOutputPath T "HighThrust")
              (Z.of_nat (length (fullProblemResultForEachLeg_ s))) st0
              (fullProblemResultForEachLeg_ s)) as (rest & Hfiles & Hrest).
  rewrite Hloop in Hfiles, Hrest. simpl in Hfiles, Hrest.
  by rewrite Hfiles, (Hrest st eq_refl), app_nil_r.
Qed.

Lemma completed_run_writes_every_table_witness :
  exists d s st (arcLog : list (Event Toy.oneArc)),
    Run.result (pipeline Toy.oneArc Toy.clock trajectoryParameters integratorSettings) =
      Done (d, s, st) /\
    filesWritten arcLog =
      map (pair (getOutputPath Toy.oneArc "HighThrust"))
          (flat_map (fun e => arcFiles e.1) (fullProblemResultForEachLeg_ s)).
Proof.
  assert (exists d s st,
            Run.result (pipeline Toy.oneArc Toy.clock trajectoryParameters
                          integratorSettings) = Done (d, s, st))
    as (d & s & st & Hres).
  { eexists _, _, _. reflexivity. }
  assert (pipeline Toy.oneArc Toy.clock trajectoryParameters integratorSettings =
          (Run.log (pipeline Toy.oneArc Toy.clock trajectoryParameters
                      integratorSettings), Done (d, s, st))) as Hrun.
  { rewrite <- Hres. apply surjective_pairing. }
  destruct (completed_run_writes_every_table Toy.oneArc Toy.clock trajectoryParameters
              integratorSettings _ d s st Hrun) as (arcLog & _ & Hfiles & _).
  exists d, s, st, arcLog. split; [exact Hres|exact Hfiles].
Defined.

(** X12.  When the keys of the analytic results, of the propagated results
    and of the dependent-variable results are distinct within each map, a
    completed run writes every file once: no table overwrites another. *)
Theorem no_table_is_written_twice (T : Tudat) (clock : nat -> Q)
    (parameters : list Q) (integ : IntegratorSettings) (log : list (Event T))
    (d : TransferDesign T) (s : PropagationSetup T) (st : ArcLoopState T) :
  pipeline T clock parameters integ = (log, Done (d, s, st)) ->
  NoDup (lambertTargeterResultForEachLeg_ s).*1 ->
  NoDup (fullProblemResultForEachLeg_ s).*1 ->
  NoDup (dependentVariableResultForEachLeg_ s).*1 ->
  NoDup (filesWritten log).
Proof.
  intros H Hlambert Hfull Hdependent.
  apply pipeline_Done_phases in H as (l0 & l1 & l2 & st0 & Hdesign & Hsetup & Hloop & ->).
  pose proof (designTransfer_filesWritten T parameters) as H0.
  pose proof (propagateFullProblem_filesWritten T clock integ d) as H1.
  rewrite Hdesign in H0. rewrite Hsetup in H1. simpl in H0, H1.
  destruct (arcLoop_filesWritten T parameters (bodyMapForPropagation_ s)
              (getOutputPath T "HighThrust")
              (Z.of_nat (length (fullProblemResultForEachLeg_ s))) st0
              (fullProblemResultForEachLeg_ s)) as (rest & Hfiles & Hrest).
  rewrite Hloop in Hfiles, Hrest. simpl in Hfiles, Hrest.
  rewrite (Hrest st eq_refl), app_nil_r in Hfiles.
  rewrite !filesWritten_app, H0, H1, <- Hfiles, !filesWritten_tableWrites. simpl.
  unfold tables. rewrite !map_map. simpl.
  pose proof (table_names_NoDup _ _ _ Hfull Hlambert Hdependent) as Hnames.
  apply (NoDup_fmap_2 (pair (getOutputPath T "HighThrust"))) in Hnames.
  rewrite !fmap_app, <- !list_fmap_compose in Hnames.
  by rewrite flat_map_arcFiles_fst.
Qed.

Lemma no_table_is_written_twice_witness :
  exists d s st,
    Run.result (pipeline Toy.oneArc Toy.clock trajectoryParameters integratorSettings) =
      Done (d, s, st) /\
    (fullProblemResultForEachLeg_ s).*1 = [0] /\
    NoDup (filesWritten
             (Run.log (pipeline Toy.oneArc Toy.clock trajectoryParameters
                         integratorSettings))).
Proof.
  assert (exists d s st,
            Run.result (pipeline Toy.oneArc Toy.clock trajectoryParameters
                          integratorSettings) = Done (d, s, st))
    as (d & s & st & Hres).
  { eexists _, _, _. reflexivity. }
  assert (pipeline Toy.oneArc Toy.clock trajectoryParameters integratorSettings =
          (Run.log (pipeline Toy.oneArc Toy.clock trajectoryParameters
                      integratorSettings), Done (d, s, st))) as Hrun.
  { rewrite <- Hres. apply surjective_pairing. }
  destruct (pipeline_Done_phases _ _ _ _ _ _ _ _ Hrun)
    as (l0 & l1 & l2 & st0 & _ & Hsetup & _).
  apply propagateFullProblem_setup in Hsetup as (_ & _ & _ & _ & Hresults & _).
  injection Hresults as Hlambert Hfull Hdependent.
  assert (NoDup [0]) as Hkeys.
  { repeat constructor; rewrite ?elem_of_cons, ?elem_of_nil; intuition discriminate. }
  exists d, s, st. split; [exact Hres|]. split; [by rewrite <- Hfull|].
  apply (no_table_is_written_twice Toy.oneArc Toy.clock trajectoryParameters
           integratorSettings _ d s st Hrun).
  - rewrite <- Hlambert. exact Hkeys.
  - rewrite <- Hfull. exact Hkeys.
  - rewrite <- Hdependent. exact Hkeys.
Defined.

(** X13.  A run that ends with an exception, in whichever phase, has
    written nothing but forward and backward tables of arcs, to the output
    directory of the application, in the order forward then backward, arc
    after arc, up to the failure: the files written are the beginning of
    that sequence for some sequence of keys.  No table of the analytic
    results, of the propagated results or of the dependent variables has
    been written for any key. *)
Theorem failed_run_writes_no_result_table (T : Tudat) (clock : nat -> Q)
    (parameters : list Q) (integ : IntegratorSettings) (log : list (Event T))
    (e : exception) :
  pipeline T clock parameters integ = (log, Raised e) ->
  (exists keys,
     filesWritten log `prefix_of`
       map (pair (getOutputPath T "HighThrust")) (flat_map arcFiles keys)) /\
  (forall data name path,
     FileWrite data name path ∈ log ->
     path = getOutputPath T "HighThrust" /\ exists k, name ∈ arcFiles k) /\
  (forall data prefix k path,
     prefix ∈ ["lambertResult"; "numericalResult"; "dependentResult"] ->
     FileWrite data (tableName prefix k) path ∉ log).
Proof.
  intros H.
  assert (exists keys,
            filesWritten log `prefix_of`
              map (pair (getOutputPath T "HighThrust")) (flat_map arcFiles keys))
    as [keys Hprefix].
  { unfold pipeline in H.
    pose proof (designTransfer_filesWritten T parameters) as H0.
    destruct (designTransfer T parameters) as [l0 [d|e0]].
    2: { rewrite bind_Raised_l in H. injection H as <- _. simpl in H0. rewrite H0.
         exists []. apply prefix_nil. }
    rewrite bind_Done_l in H.
    pose proof (propagateFullProblem_filesWritten T clock integ d) as H1.
    destruct (propagateFullProblem T clock integ d) as [l1 [s|e1]].
    2: { rewrite bind_Raised_l, prefixed_pair in H. injection H as <- _.
         simpl in H0, H1. rewrite filesWritten_app, H0, H1.
         exists []. apply prefix_nil. }
    rewrite bind_Done_l in H.
    pose proof (repropagateArcs_log T parameters (getOutputPath T "HighThrust") integ s)
      as H2.
    destruct (repropagateArcs T parameters _ integ s) as [l2 [st'|e2]].
    { rewrite bind_Done_l, writeResults_eq, bind_Done_l in H.
      unfold Run.ret in H. by rewrite !prefixed_pair in H. }
    rewrite bind_Raised_l, !prefixed_pair in H. injection H as <- _.
    simpl in H0, H1. rewrite !filesWritten_app, H0, H1. simpl.
    unfold Run.log in H2. simpl in H2. destruct H2 as [->|[st0 ->]].
    { exists []. apply prefix_nil. }
    destruct (arcLoop_filesWritten T parameters (bodyMapForPropagation_ s)
                (getOutputPath T "HighThrust")
                (Z.of_nat (length (fullProblemResultForEachLeg_ s))) st0
                (fullProblemResultForEachLeg_ s)) as (rest & Hall & _).
    exists (fullProblemResultForEachLeg_ s).*1.
    rewrite <- flat_map_arcFiles_fst, Hall. by exists rest. }
  assert (forall path name, (path, name) ∈ filesWritten log ->
            path = getOutputPath T "HighThrust" /\ exists k, name ∈ arcFiles k) as Hfiles.
  { intros path name Hin. destruct Hprefix as [rest Hall].
    assert ((path, name) ∈ map (pair (getOutputPath T "HighThrust"))
              (flat_map arcFiles keys)) as Hin'.
    { rewrite Hall. apply elem_of_app. by left. }
    apply list_elem_of_fmap in Hin' as (name' & [= -> ->] & Hname).
    split; [done|].
    apply elem_of_flat_map_arcFiles in Hname as (k & _ & Hk). eauto. }
  split; [by exists keys|]. split.
  - intros data name path Hin. apply Hfiles, elem_of_filesWritten. eauto.
  - intros data prefix k path Hpre Hin.
    destruct (Hfiles path (tableName prefix k)) as [_ [k' Hk']].
    { apply elem_of_filesWritten. eauto. }
    rewrite !elem_of_cons, elem_of_nil in Hpre.
    apply elem_of_arcFiles in Hk' as [Hk'|Hk'];
      apply tableName_inj in Hk' as [-> _]; try table_prefix;
      destruct Hpre as [|[|[|[]]]]; discriminate.
Qed.

Lemma failed_run_writes_no_result_table_witness :
  exists e,
    Run.result (pipeline Toy.firstArcFails Toy.clock trajectoryParameters
                  integratorSettings) = Raised e /\
    forall data k path,
      FileWrite data (tableName "numericalResult" k) path ∉
        Run.log (pipeline Toy.firstArcFails Toy.clock trajectoryParameters
                   integratorSettings).
Proof.
  assert (exists e,
            Run.result (pipeline Toy.firstArcFails Toy.clock trajectoryParameters
                          integratorSettings) = Raised e) as [e Hres].
  { eexists. reflexivity. }
  assert (pipeline Toy.firstArcFails Toy.clock trajectoryParameters integratorSettings =
          (Run.log (pipeline Toy.firstArcFails Toy.clock trajectoryParameters
                      integratorSettings), Raised e)) as Hrun.
  { rewrite <- Hres. apply surjective_pairing. }
  exists e. split; [exact Hres|].
  destruct (failed_run_writes_no_result_table Toy.firstArcFails Toy.clock
              trajectoryParameters integratorSettings _ e Hrun) as (_ & _ & Hnone).
  intros data k path. apply Hnone. rewrite !elem_of_cons. tauto.
Defined.
